(** * HireSpec backend: live interview coordinator

    A shallow embedding of the three in-memory subsystems of the Node
    backend that carry state between requests:

    - [routes/proctoring.js]: the proctoring event log and the integrity
      score folded from it (module [Proctoring]);
    - [socket/handlers.js]: the live interview rooms kept by the socket
      layer (module [LiveRooms]);
    - [routes/resume.js], live interview part: the session records and
      their status field (module [LiveSessions]).

    Every handler is a function from the store it closes over and the
    request data to a reply and the next store.  [new Date()], [uuidv4()]
    and the external face verifier are inputs of the handler that uses
    them.  A handler is taken to run at one instant: every [new Date()]
    inside one handler invocation reads the same [now]. *)

From stdpp Require Import base gmap sets list strings pretty.
From Stdlib Require Import ZArith Lia.

Local Open Scope Z_scope.
Set Warnings "-clear-no-such-hyp".

(** ** JavaScript values reaching the handlers *)

Module Js.

(** The fields of a JSON request body or of a socket payload, as the
    handlers see them after destructuring: a missing field is
    [undefined].  This is the type of the fields a handler inspects (by
    [===], by truthiness, as a [Map] key or as a property key); fields
    that are only stored or forwarded have type [json] below.  Numbers
    are the integer valued ones (a [Z]); an array or an object in an
    inspected position is outside this model. *)
Inductive jsval :=
| JUndefined
| JNull
| JBool (b : bool)
| JNum (n : Z)
| JStr (s : string).

#[global] Instance jsval_eq_dec : EqDecision jsval.
Proof. solve_decision. Defined.

Definition jsval_code (v : jsval) : unit + unit + bool + Z + string :=
  match v with
  | JUndefined => inl (inl (inl (inl ())))
  | JNull => inl (inl (inl (inr ())))
  | JBool b => inl (inl (inr b))
  | JNum n => inl (inr n)
  | JStr s => inr s
  end.

Definition jsval_decode (c : unit + unit + bool + Z + string) : jsval :=
  match c with
  | inl (inl (inl (inl _))) => JUndefined
  | inl (inl (inl (inr _))) => JNull
  | inl (inl (inr b)) => JBool b
  | inl (inr n) => JNum n
  | inr s => JStr s
  end.

#[global] Instance jsval_countable : Countable jsval.
Proof.
  refine (inj_countable' jsval_code jsval_decode _).
  intros []; reflexivity.
Defined.

(** [ToBoolean]: what [!v], [v || w] and [if (v)] test. *)
Definition truthy (v : jsval) : bool :=
  match v with
  | JUndefined | JNull => false
  | JBool b => b
  | JNum n => negb (n =? 0)
  | JStr s => negb (bool_decide (s = ""))
  end.

(** [ToString], which is also [ToPropertyKey] on these values.  On a
    number this is the text for the integers below 10^21 in size, which
    print as plain decimal digits; from there on JavaScript prints an
    exponent, and a number with a fraction is no [JNum] at all. *)
Definition to_string (v : jsval) : string :=
  match v with
  | JUndefined => "undefined"
  | JNull => "null"
  | JBool true => "true"
  | JBool false => "false"
  | JNum n => pretty n
  | JStr s => s
  end.

(** [v === 'lit'] for a string literal: no coercion. *)
Definition is_string (lit : string) (v : jsval) : bool :=
  match v with
  | JStr s => bool_decide (s = lit)
  | _ => false
  end.

(** [v?.toFixed(3)]: [undefined] on a nullish receiver, the digits on a
    number, and a TypeError on anything else, which has no [toFixed]
    method.  The digits are those of an integer below 10^21 in size, as
    for [to_string]. *)
Inductive fixed_result := FixedUndefined | FixedText (s : string) | FixedThrows.

Definition optional_toFixed3 (v : jsval) : fixed_result :=
  match v with
  | JUndefined | JNull => FixedUndefined
  | JNum n => FixedText (pretty n +:+ ".000")
  | JBool _ | JStr _ => FixedThrows
  end.

(** Payloads the handlers store or forward without looking inside: any
    JSON value. *)
#[local] Unset Elimination Schemes.
Inductive json :=
| Scalar (v : jsval)
| Array (items : list json)
| Object (fields : list (string * json)).
#[local] Set Elimination Schemes.

(** *** [Map]: insertion ordered, keys compared by SameValueZero *)

Section JsMap.
Context {K V : Type} `{EqDecision K}.

(** [m.get(k)]; [m.has(k)] is whether it finds something. *)
Fixpoint map_get (k : K) (m : list (K * V)) : option V :=
  match m with
  | [] => None
  | (k', v) :: m' => if decide (k' = k) then Some v else map_get k m'
  end.

(** [m.set(k, v)]: an existing key keeps its position. *)
Fixpoint map_set (k : K) (v : V) (m : list (K * V)) : list (K * V) :=
  match m with
  | [] => [(k, v)]
  | (k', v') :: m' =>
      if decide (k' = k) then (k, v) :: m' else (k', v') :: map_set k v m'
  end.

(** [m.delete(k)] *)
Definition map_delete (k : K) (m : list (K * V)) : list (K * V) :=
  filter (λ kv, kv.1 ≠ k) m.

(** [Array.from(m.keys())], [Array.from(m.values())] *)
Definition map_keys (m : list (K * V)) : list K := fst <$> m.
Definition map_values (m : list (K * V)) : list V := snd <$> m.

End JsMap.

(** *** Plain objects used as dictionaries

    [o[k] = v] on an object created by a literal of the server creates
    or overwrites the own property [k], except for the key [__proto__],
    which is the accessor of [Object.prototype] and never becomes an own
    property there.  (An object parsed from a client's JSON can own such
    a key; see [LiveRooms.camera_assign].) *)
Definition proto_key : string := "__proto__".

Definition obj_assign {V} (k : string) (v : V) (o : gmap string V) : gmap string V :=
  if bool_decide (k = proto_key) then o else <[k := v]> o.

(** The function valued properties an object literal inherits from
    [Object.prototype], each with the name of the function it holds. *)
Definition object_prototype_methods : list (string * string) :=
  [ ("constructor", "Object");
    ("__defineGetter__", "__defineGetter__");
    ("__defineSetter__", "__defineSetter__");
    ("hasOwnProperty", "hasOwnProperty");
    ("__lookupGetter__", "__lookupGetter__");
    ("__lookupSetter__", "__lookupSetter__");
    ("isPrototypeOf", "isPrototypeOf");
    ("propertyIsEnumerable", "propertyIsEnumerable");
    ("toString", "toString");
    ("valueOf", "valueOf");
    ("toLocaleString", "toLocaleString") ].

(** [String(f)] of a built-in function, as V8 prints it. *)
Definition native_source (name : string) : string :=
  "function " +:+ name +:+ "() { [native code] }".

End Js.

Export Js.

(** ** Proctoring event pipeline ([routes/proctoring.js]) *)

Module Proctoring.

(** All routes of the router but [GET /dashboard/sessions], the listing
    that repeats the score fold for every active session. *)

(** One entry of a proctoring log. *)
Record event := Event {
  eventType : jsval;
  severity : jsval;
  details : json;
  timestamp : Z
}.

(** A record of [activeSessions].  [startTime] is the body's value when
    that is truthy and the clock otherwise. *)
Inductive start_time := StartGiven (v : jsval) | StartClock (t : Z).

Inductive session_status := Active | Ended.

Record session := Session {
  interviewId : jsval;
  candidateName : json;
  candidateEmail : json;
  recruiterName : json;
  startTime : start_time;
  lastActivity : Z;
  status : session_status;
  eventCount : Z;
  endTime : option Z
}.

(** An entry of [identityVerifications]. *)
Record verification := Verification {
  v_timestamp : Z;
  v_userId : jsval;
  v_verified : jsval;
  v_score : jsval;
  v_liveness : json
}.

(** The three module level [Map]s.  None of them is iterated by the
    handlers below, so their insertion order is not kept. *)
Record store := Store {
  proctoringEvents : gmap jsval (list event);
  activeSessions : gmap jsval session;
  identityVerifications : gmap jsval (list verification)
}.

Definition empty_store : store := Store ∅ ∅ ∅.

(** [proctoringEvents.get(id) || []]: an array is always truthy. *)
Definition events_of (st : store) (id : jsval) : list event :=
  default [] (proctoringEvents st !! id).

(** *** The score fold *)

(** The [switch (event.severity)] of the score handler: strict comparison
    with the four literals, no [default] branch. *)
Definition deduct (score : Z) (sev : jsval) : Z :=
  if is_string "low" sev then score - 2
  else if is_string "medium" sev then score - 5
  else if is_string "high" sev then score - 10
  else if is_string "critical" sev then score - 20
  else score.

(** Values the properties of [breakdown] can hold: a count, or the text
    that [+ 1] makes out of something that is not a number. *)
Inductive propval := PNum (n : Z) | PText (s : string).

#[global] Instance propval_eq_dec : EqDecision propval.
Proof. solve_decision. Defined.

(** What reading [breakdown[k]] finds: an own property, a function or
    the prototype itself reached through [Object.prototype], or
    [undefined]. *)
Inductive read_result :=
| Own (v : propval)
| InheritedFunction (name : string)
| PrototypeObject
| Undefined.

Definition read_property (o : gmap string propval) (k : string) : read_result :=
  match o !! k with
  | Some v => Own v
  | None =>
      if bool_decide (k = proto_key) then PrototypeObject
      else match map_get k object_prototype_methods with
           | Some f => InheritedFunction f
           | None => Undefined
           end
  end.

(** [(x || 0) + 1]: addition on a number, concatenation on anything that
    converts to a string. *)
Definition or_zero_plus_one (x : read_result) : propval :=
  match x with
  | Own (PNum n) => PNum ((if n =? 0 then 0 else n) + 1)
  | Own (PText s) => if bool_decide (s = "") then PNum 1 else PText (s +:+ "1")
  | InheritedFunction f => PText (native_source f +:+ "1")
  | PrototypeObject => PText "[object Object]1"
  | Undefined => PNum 1
  end.

(** [breakdown[k] = (breakdown[k] || 0) + 1] *)
Definition count_type (o : gmap string propval) (k : string) : gmap string propval :=
  obj_assign k (or_zero_plus_one (read_property o k)) o.

(** The body of the [forEach] callback on the pair of variables it
    updates. *)
Definition score_step (acc : Z * gmap string propval) (e : event) : Z * gmap string propval :=
  (deduct acc.1 (severity e), count_type acc.2 (to_string (eventType e))).

Definition score_loop (events : list event) : Z * gmap string propval :=
  foldl score_step (100, ∅) events.

(** A breakdown key that meets nothing on the prototype chain of an
    object literal, and the number of events of a log filed under a
    key. *)
Definition plain_key (k : string) : Prop :=
  k ≠ proto_key ∧ map_get k object_prototype_methods = None.

Definition occurrences (k : string) (events : list event) : nat :=
  length (filter (λ e, to_string (eventType e) = k) events).

(** The reading of the specification: a table of deductions by severity
    level, summed over the log and taken from 100, floored at 0. *)
Inductive level := Low | Medium | High | Critical.

Definition level_of (sev : jsval) : option level :=
  match sev with
  | JStr s =>
      if decide (s = "low") then Some Low
      else if decide (s = "medium") then Some Medium
      else if decide (s = "high") then Some High
      else if decide (s = "critical") then Some Critical
      else None
  | _ => None
  end.

Definition points (l : level) : Z :=
  match l with Low => 2 | Medium => 5 | High => 10 | Critical => 20 end.

Definition deduction (e : event) : Z :=
  from_option points 0 (level_of (severity e)).

Definition total_deduction (events : list event) : Z :=
  foldr (λ e acc, deduction e + acc) 0 events.

Definition table_score (events : list event) : Z :=
  Z.max 0 (100 - total_deduction events).

(** *** Replies *)

Inductive reply :=
| MissingUserOrImage
| VerifierUnavailable
| IdentityChecked (verified score : jsval) (liveness reason : json)
| IdentityChecks (total passed failed : nat) (verifications : list verification)
| EventStored (e : event)
| EventLog (events : list event)
| ScoreReport (score : Z) (totalEvents : nat) (breakdown : gmap string propval)
| Success
| SessionNotFound
| SessionDetails (s : session) (events : list event) (eventCount : nat).

(** [res.status(..)]; [res.json] alone answers 200. *)
Definition http_status (r : reply) : Z :=
  match r with
  | MissingUserOrImage => 400
  | VerifierUnavailable => 503
  | SessionNotFound => 404
  | _ => 200
  end.

(** The fields of a score report, when the reply is one. *)
Definition reported (r : reply) : option (Z * nat * gmap string propval) :=
  match r with
  | ScoreReport s n b => Some (s, n, b)
  | _ => None
  end.

(** *** Handlers *)

(** [POST /event] *)
Record event_request := EventRequest {
  er_interviewId : jsval;
  er_eventType : jsval;
  er_severity : jsval;
  er_details : json
}.

Definition bump_session (now : Z) (s : session) : session :=
  Session (interviewId s) (candidateName s) (candidateEmail s) (recruiterName s)
          (startTime s) now (status s)
          ((if eventCount s =? 0 then 0 else eventCount s) + 1) (endTime s).

Definition post_event (st : store) (r : event_request) (now : Z) : reply * store :=
  let id := er_interviewId r in
  let e := Event (er_eventType r) (er_severity r) (er_details r) now in
  let logs := <[id := events_of st id ++ [e]]> (proctoringEvents st) in
  let sessions :=
    match activeSessions st !! id with
    | Some s => <[id := bump_session now s]> (activeSessions st)
    | None => activeSessions st
    end in
  (EventStored e, Store logs sessions (identityVerifications st)).

(** A series of [POST /event] requests, each with its arrival time, and
    the events they are stored as. *)
Definition record_all (st : store) (rs : list (event_request * Z)) : store :=
  foldl (λ s r, (post_event s r.1 r.2).2) st rs.

Definition stored_event (r : event_request * Z) : event :=
  Event (er_eventType r.1) (er_severity r.1) (er_details r.1) r.2.

(** [GET /:interviewId]; a route parameter is a string. *)
Definition get_events (st : store) (id : string) : reply * store :=
  (EventLog (events_of st (JStr id)), st).

(** [GET /:interviewId/score] *)
Definition get_score (st : store) (id : string) : reply * store :=
  let events := events_of st (JStr id) in
  let '(score, breakdown) := score_loop events in
  (ScoreReport (Z.max 0 score) (length events) breakdown, st).

(** [POST /session] *)
Record session_request := SessionRequest {
  sr_interviewId : jsval;
  sr_candidateName : json;
  sr_candidateEmail : json;
  sr_recruiterName : json;
  sr_startTime : jsval
}.

Definition post_session (st : store) (r : session_request) (now : Z) : reply * store :=
  let s := Session (sr_interviewId r) (sr_candidateName r) (sr_candidateEmail r)
                   (sr_recruiterName r)
                   (if truthy (sr_startTime r) then StartGiven (sr_startTime r)
                    else StartClock now)
                   now Active 0 None in
  (Success,
   Store (proctoringEvents st) (<[sr_interviewId r := s]> (activeSessions st))
         (identityVerifications st)).

(** [DELETE /session/:interviewId] *)
Definition end_session (s : session) (now : Z) : session :=
  Session (interviewId s) (candidateName s) (candidateEmail s) (recruiterName s)
          (startTime s) (lastActivity s) Ended (eventCount s) (Some now).

Definition delete_session (st : store) (id : string) (now : Z) : reply * store :=
  match activeSessions st !! JStr id with
  | Some s =>
      (Success,
       Store (proctoringEvents st) (<[JStr id := end_session s now]> (activeSessions st))
             (identityVerifications st))
  | None => (Success, st)
  end.

(** The handler registered for [GET /dashboard/:interviewId], as a
    function of the parameter it is called with.  Which requests reach
    it is settled by the order of the routes, in
    [ProctoringDashboard.route_get]: the paths [/dashboard/sessions],
    [/dashboard/score] and [/dashboard/identity-checks] are served by
    routes registered before this one. *)
Definition get_dashboard (st : store) (id : string) : reply * store :=
  match activeSessions st !! JStr id with
  | None => (SessionNotFound, st)
  | Some s =>
      let events := events_of st (JStr id) in
      (SessionDetails s events (length events), st)
  end.

(** [GET /:interviewId/identity-checks] *)
Definition get_identity_checks (st : store) (id : string) : reply * store :=
  let vs := default [] (identityVerifications st !! JStr id) in
  (IdentityChecks (length vs)
                  (length (filter (λ v, truthy (v_verified v) = true) vs))
                  (length (filter (λ v, truthy (v_verified v) = false) vs))
                  vs,
   st).

(** [POST /verify-identity].  The answer of the face verification
    service is an input: the call fails (the [fetch] or the parsing of
    its body rejects), or it yields a JSON value, which is [null] or
    something whose four properties can be read. *)
Record verifier_result := VerifierResult {
  vr_verified : jsval;
  vr_score : jsval;
  vr_liveness : json;
  vr_reason : json
}.

Inductive verifier_answer :=
| CallFails
| AnswersNull
| Answers (r : verifier_result).

Record identity_request := IdentityRequest {
  ir_interviewId : jsval;
  ir_userId : jsval;
  ir_image : jsval
}.

Definition mismatch_text : string :=
  "Face does not match registered user. Score: ".

Definition verify_identity (st : store) (r : identity_request) (now : Z)
    (answer : verifier_answer) : reply * store :=
  if negb (truthy (ir_userId r)) || negb (truthy (ir_image r)) then
    (MissingUserOrImage, st)
  else
    match answer with
    | CallFails => (VerifierUnavailable, st)
    | AnswersNull =>
        (* the list is created before the first property of [result] is read *)
        let id := ir_interviewId r in
        let checks0 := default [] (identityVerifications st !! id) in
        (VerifierUnavailable,
         Store (proctoringEvents st) (activeSessions st)
               (<[id := checks0]> (identityVerifications st)))
    | Answers res =>
        let id := ir_interviewId r in
        let checks0 := default [] (identityVerifications st !! id) in
        let record :=
          Verification now (ir_userId r) (vr_verified res) (vr_score res)
                       (vr_liveness res) in
        let checks := <[id := checks0 ++ [record]]> (identityVerifications st) in
        if truthy (vr_verified res) then
          (IdentityChecked (vr_verified res) (vr_score res) (vr_liveness res)
                           (vr_reason res),
           Store (proctoringEvents st) (activeSessions st) checks)
        else
          let log0 := events_of st id in
          match optional_toFixed3 (vr_score res) with
          | FixedThrows =>
              (* thrown while the event object is built: the log exists, the
                 event is not pushed *)
              (VerifierUnavailable,
               Store (<[id := log0]> (proctoringEvents st)) (activeSessions st) checks)
          | fixed =>
              let shown :=
                match fixed with FixedText s => s | _ => "N/A" end in
              let e := Event (JStr "identity_mismatch") (JStr "critical")
                             (Scalar (JStr (mismatch_text +:+ shown))) now in
              (IdentityChecked (vr_verified res) (vr_score res) (vr_liveness res)
                               (vr_reason res),
               Store (<[id := log0 ++ [e]]> (proctoringEvents st)) (activeSessions st)
                     checks)
          end
    end.

End Proctoring.

(** ** Live interview rooms ([socket/handlers.js]) *)

Module LiveRooms.

(** The handlers that read or write [liveInterviewRooms].  The relays
    that only forward a payload, the secondary camera registry, the
    dashboard set and the chat handlers keep no room state and are left
    out. *)

(** A property of a participant's [cameras] object: what the client sent
    at join time, or the record written by [camera-status-update]. *)
Inductive camera_entry :=
| CameraGiven (v : json)
| CameraStatus (enabled streamId : json).

Record participant := Participant {
  id : json;
  socketId : string;
  userName : json;
  role : json;
  cameras : gmap string camera_entry;
  audioEnabled : bool;
  videoEnabled : bool;
  joinedAt : Z
}.

Record code_state := CodeState {
  code : json;
  language : json;
  cursorPositions : gmap string (json * json)
}.

Record screen_share := ScreenShare {
  streamType : json;
  startedAt : Z
}.

Record settings := Settings {
  enableChat : bool;
  enableScreenShare : bool;
  enableCodeExecution : bool
}.

(** A value of [liveInterviewRooms].  [participants] and [screenShares]
    are [Map]s keyed by socket id. *)
Record room := Room {
  participants : list (string * participant);
  codeState : code_state;
  screenShares : list (string * screen_share);
  whiteboard : list json;
  room_settings : settings
}.

(** [liveInterviewRooms], and the room deletions that [end-live-interview]
    has scheduled and that have not run yet. *)
Record state := State {
  liveInterviewRooms : list (jsval * room);
  scheduledCleanups : list jsval
}.

Definition initial_state : state := State [] [].

(** The room created by the first join. *)
Definition fresh_room : room :=
  Room [] (CodeState (Scalar (JStr "")) (Scalar (JStr "javascript")) ∅) [] []
       (Settings true true true).

(** *** What a handler emits *)

(** [socket.emit], [socket.to(r).emit] and [io.to(r).emit]. *)
Inductive audience :=
| Sender
| OthersIn (r : string)
| EveryoneIn (r : string).

Inductive message :=
| ParticipantJoined (participantId : json) (socket : string) (userName role : json)
                    (cameras : option (gmap string json))
| RoomState (participants : list participant) (codeState : code_state)
            (screenShares : list (string * screen_share)) (settings : settings)
| LiveSessionUpdate (sessionId : jsval) (type : string) (userName role : json)
| ParticipantLeft (socket : string) (userName role : json)
| ParticipantCameraUpdate (socket : string) (cameraType : jsval) (enabled streamId : json)
| ScreenShareStarted (socket : string) (streamType : json)
| ScreenShareStopped (socket : string)
| LiveCodeUpdate (code language cursorPosition selection : json) (from : string)
| WhiteboardDraw (drawData : json) (from : string)
| WhiteboardCleared
| InterviewEnded (reason : json) (endedBy : string) (timestamp : Z).

(** The socket.io room of a session: the template [live-${sessionId}]. *)
Definition live (sessionId : jsval) : string := "live-" +:+ to_string sessionId.

Definition dashboard : string := "proctor-dashboard".

(** *** Field updates *)

Definition with_participants (ps : list (string * participant)) (r : room) : room :=
  Room ps (codeState r) (screenShares r) (whiteboard r) (room_settings r).

Definition with_screenShares (ss : list (string * screen_share)) (r : room) : room :=
  Room (participants r) (codeState r) ss (whiteboard r) (room_settings r).

Definition with_codeState (c : code_state) (r : room) : room :=
  Room (participants r) c (screenShares r) (whiteboard r) (room_settings r).

Definition with_whiteboard (w : list json) (r : room) : room :=
  Room (participants r) (codeState r) (screenShares r) w (room_settings r).

Definition with_rooms (rooms : list (jsval * room)) (st : state) : state :=
  State rooms (scheduledCleanups st).

(** *** Handlers; [sock] is [socket.id] of the connection they run on *)

(** [join-live-interview].  [cameras] is the object the client sent, or
    [None] when it sent nothing truthy. *)
Record join_data := JoinData {
  jd_sessionId : jsval;
  jd_participantId : json;
  jd_userName : json;
  jd_role : json;
  jd_cameras : option (gmap string json)
}.

Definition default_cameras : gmap string camera_entry :=
  <["primary" := CameraGiven (Scalar (JBool true))]>
    (<["secondary" := CameraGiven (Scalar (JBool false))]> ∅).

Definition room_state (r : room) : message :=
  RoomState (map_values (participants r)) (codeState r) (screenShares r)
            (room_settings r).

Definition join_live_interview (st : state) (sock : string) (d : join_data) (now : Z)
    : list (audience * message) * state :=
  let sid := jd_sessionId d in
  let r0 := default fresh_room (map_get sid (liveInterviewRooms st)) in
  let p := Participant (jd_participantId d) sock (jd_userName d) (jd_role d)
                       (match jd_cameras d with
                        | Some o => CameraGiven <$> o
                        | None => default_cameras
                        end)
                       true true now in
  let r := with_participants (map_set sock p (participants r0)) r0 in
  ([ (OthersIn (live sid),
      ParticipantJoined (jd_participantId d) sock (jd_userName d) (jd_role d)
                        (jd_cameras d));
     (Sender, room_state r);
     (EveryoneIn dashboard,
      LiveSessionUpdate sid "participant-joined" (jd_userName d) (jd_role d)) ],
   with_rooms (map_set sid r (liveInterviewRooms st)) st).

(** [handleLiveInterviewLeave], called by [leave-live-interview]. *)
Definition leave_room (sock : string) (r : room) : room :=
  with_screenShares (map_delete sock (screenShares r))
    (with_participants (map_delete sock (participants r)) r).

Definition leave_live_interview (st : state) (sock : string) (sessionId : jsval)
    : list (audience * message) * state :=
  match map_get sessionId (liveInterviewRooms st) with
  | Some r =>
      match map_get sock (participants r) with
      | Some p =>
          ([ (OthersIn (live sessionId), ParticipantLeft sock (userName p) (role p)) ],
           with_rooms (map_set sessionId (leave_room sock r) (liveInterviewRooms st)) st)
      | None => ([], st)
      end
  | None => ([], st)
  end.

(** [disconnect]: the loop over all rooms. *)
Fixpoint disconnect_rooms (sock : string) (rooms : list (jsval * room))
    : list (audience * message) * list (jsval * room) :=
  match rooms with
  | [] => ([], [])
  | (sid, r) :: rest =>
      let '(out, rest') := disconnect_rooms sock rest in
      match map_get sock (participants r) with
      | Some p =>
          ((EveryoneIn (live sid), ParticipantLeft sock (userName p) (role p))
           :: (EveryoneIn dashboard,
               LiveSessionUpdate sid "participant-left" (userName p) (role p))
           :: out,
           (sid, leave_room sock r) :: rest')
      | None => (out, (sid, r) :: rest')
      end
  end.

Definition disconnect (st : state) (sock : string) : list (audience * message) * state :=
  let '(out, rooms) := disconnect_rooms sock (liveInterviewRooms st) in
  (out, with_rooms rooms st).

(** [camera-status-update].  The [cameras] object can be the client's
    own, parsed from JSON, and then it may have [__proto__] as an own
    property, which the assignment overwrites like any other; where
    there is no such own property the assignment goes to the accessor of
    [Object.prototype], which swaps the prototype and leaves the own
    properties as they are. *)
Definition camera_assign (k : string) (v : camera_entry) (o : gmap string camera_entry)
    : gmap string camera_entry :=
  if bool_decide (k = proto_key)
  then match o !! k with Some _ => <[k := v]> o | None => o end
  else <[k := v]> o.

Definition set_camera (cameraType : jsval) (enabled streamId : json) (p : participant)
    : participant :=
  Participant (id p) (socketId p) (userName p) (role p)
              (camera_assign (to_string cameraType) (CameraStatus enabled streamId)
                             (cameras p))
              (audioEnabled p) (videoEnabled p) (joinedAt p).

Definition camera_status_update (st : state) (sock : string) (sessionId cameraType : jsval)
    (enabled streamId : json) : list (audience * message) * state :=
  match map_get sessionId (liveInterviewRooms st) with
  | Some r =>
      match map_get sock (participants r) with
      | Some p =>
          let r' :=
            with_participants
              (map_set sock (set_camera cameraType enabled streamId p) (participants r)) r in
          ([ (OthersIn (live sessionId),
              ParticipantCameraUpdate sock cameraType enabled streamId) ],
           with_rooms (map_set sessionId r' (liveInterviewRooms st)) st)
      | None => ([], st)
      end
  | None => ([], st)
  end.

(** [start-screen-share] and [stop-screen-share] *)
Definition start_screen_share (st : state) (sock : string) (sessionId : jsval)
    (streamType : json) (now : Z) : list (audience * message) * state :=
  match map_get sessionId (liveInterviewRooms st) with
  | Some r =>
      let r' :=
        with_screenShares (map_set sock (ScreenShare streamType now) (screenShares r)) r in
      ([ (OthersIn (live sessionId), ScreenShareStarted sock streamType) ],
       with_rooms (map_set sessionId r' (liveInterviewRooms st)) st)
  | None => ([], st)
  end.

Definition stop_screen_share (st : state) (sock : string) (sessionId : jsval)
    : list (audience * message) * state :=
  match map_get sessionId (liveInterviewRooms st) with
  | Some r =>
      let r' := with_screenShares (map_delete sock (screenShares r)) r in
      ([ (OthersIn (live sessionId), ScreenShareStopped sock) ],
       with_rooms (map_set sessionId r' (liveInterviewRooms st)) st)
  | None => ([], st)
  end.

(** [live-code-update] *)
Record code_update := CodeUpdate {
  cu_code : json;
  cu_language : json;
  cu_cursorPosition : json;
  cu_selection : json
}.

Definition apply_code_update (sock : string) (u : code_update) (c : code_state) : code_state :=
  CodeState (cu_code u) (cu_language u)
            (obj_assign sock (cu_cursorPosition u, cu_selection u) (cursorPositions c)).

Definition live_code_update (st : state) (sock : string) (sessionId : jsval)
    (u : code_update) : list (audience * message) * state :=
  match map_get sessionId (liveInterviewRooms st) with
  | Some r =>
      let r' := with_codeState (apply_code_update sock u (codeState r)) r in
      ([ (OthersIn (live sessionId),
          LiveCodeUpdate (cu_code u) (cu_language u) (cu_cursorPosition u)
                         (cu_selection u) sock) ],
       with_rooms (map_set sessionId r' (liveInterviewRooms st)) st)
  | None => ([], st)
  end.

(** [whiteboard-draw]: the stroke is forwarded whether or not the room
    exists. *)
Definition whiteboard_draw (st : state) (sock : string) (sessionId : jsval)
    (drawData : json) : list (audience * message) * state :=
  ([ (OthersIn (live sessionId), WhiteboardDraw drawData sock) ],
   match map_get sessionId (liveInterviewRooms st) with
   | Some r =>
       with_rooms
         (map_set sessionId (with_whiteboard (whiteboard r ++ [drawData]) r)
                  (liveInterviewRooms st)) st
   | None => st
   end).

(** [whiteboard-clear] *)
Definition whiteboard_clear (st : state) (sessionId : jsval)
    : list (audience * message) * state :=
  ([ (EveryoneIn (live sessionId), WhiteboardCleared) ],
   match map_get sessionId (liveInterviewRooms st) with
   | Some r =>
       with_rooms (map_set sessionId (with_whiteboard [] r) (liveInterviewRooms st)) st
   | None => st
   end).

(** [end-live-interview] announces the end and arms the 30 second
    timer; [cleanup] is that timer firing. *)
Definition end_live_interview (st : state) (sock : string) (sessionId : jsval)
    (reason : json) (now : Z) : list (audience * message) * state :=
  ([ (EveryoneIn (live sessionId), InterviewEnded reason sock now) ],
   State (liveInterviewRooms st) (scheduledCleanups st ++ [sessionId])).

Definition cleanup (st : state) : list (audience * message) * state :=
  match scheduledCleanups st with
  | [] => ([], st)
  | sessionId :: later =>
      ([], State (map_delete sessionId (liveInterviewRooms st)) later)
  end.

(** *** Runs of the room membership operations *)

Inductive membership_op :=
| Join (sock : string) (d : join_data) (now : Z)
| Leave (sock : string) (sessionId : jsval)
| Disconnect (sock : string).

Definition membership_step (st : state) (op : membership_op) : state :=
  match op with
  | Join sock d now => (join_live_interview st sock d now).2
  | Leave sock sid => (leave_live_interview st sock sid).2
  | Disconnect sock => (disconnect st sock).2
  end.

Definition run_membership (ops : list membership_op) (st : state) : state :=
  foldl membership_step st ops.

(** The endpoints the registry holds for a room: the keys of its
    [participants] map, none when there is no such room. *)
Definition members (st : state) (sessionId : jsval) : gset string :=
  match map_get sessionId (liveInterviewRooms st) with
  | Some r => list_to_set (map_keys (participants r))
  | None => ∅
  end.

(** The reading of the specification: the endpoints that joined the room
    and have not left it or disconnected since. *)
Definition account (sessionId : jsval) (acc : gset string) (op : membership_op)
    : gset string :=
  match op with
  | Join sock d _ => if decide (jd_sessionId d = sessionId) then {[sock]} ∪ acc else acc
  | Leave sock sid => if decide (sid = sessionId) then acc ∖ {[sock]} else acc
  | Disconnect sock => acc ∖ {[sock]}
  end.

Definition joined_not_left (sessionId : jsval) (ops : list membership_op) : gset string :=
  foldl (account sessionId) ∅ ops.

(** The snapshot a joiner receives: the [room-state] message among the
    emissions of its join. *)
Definition snapshot_of (out : list (audience * message)) : option message :=
  match out with
  | [_; (Sender, m); _] => Some m
  | _ => None
  end.

(** [live-code-update]s sent one after the other, each by its own
    socket. *)
Definition run_code_updates (sessionId : jsval) (us : list (string * code_update))
    (st : state) : state :=
  foldl (λ s su, (live_code_update s su.1 sessionId su.2).2) st us.

End LiveRooms.

(** ** Live interview sessions ([routes/resume.js]) *)

Module LiveSessions.

(** The routes on [liveInterviewSessions] that create or change a
    session, and the read of one session. *)

(** The four values the [status] field ever takes. *)
Inductive status := Scheduled | Waiting | InProgress | Completed.

#[global] Instance status_eq_dec : EqDecision status.
Proof. solve_decision. Defined.

(** An element of [session.participants]. *)
Record participant := Participant {
  p_id : string;
  p_name : json;
  p_role : jsval;
  p_joinedAt : Z;
  p_primaryCamera : option json;
  p_secondaryCamera : option json;
  p_audioEnabled : bool;
  p_videoEnabled : bool
}.

Record snapshot := Snapshot {
  s_code : json;
  s_language : json;
  s_timestamp : jsval + Z
}.

(** The fields of a session that [POST /create] copies from the request
    and that no handler below looks into. *)
Record details := Details {
  recruiterId : json;
  recruiterName : json;
  companyName : json;
  jobTitle : json;
  candidateEmail : json;
  candidateName : json;
  scheduledTime : jsval + Z;
  duration : json;
  requirements : json
}.

Record session := Session {
  id : string;
  accessCode : string;
  info : details;
  status_of : status;
  participants : list participant;
  createdAt : Z;
  startedAt : option Z;
  endedAt : option Z;
  recordingEnabled : bool;
  recordingUrl : option json;
  codeSnapshots : list snapshot;
  chatHistory : list json;
  proctoringEvents : list (json * Z);
  feedback : option (json * json)
}.

Inductive reply :=
| Created (sessionId accessCode : string)
| NotFound
| InvalidAccessCode
| SessionView (s : session)
| Joined (p : participant) (st : status) (ps : list participant)
| Summary (minutes : Z) (codeSnapshots chatMessages proctoringEvents : nat)
| Saved.

Definition http_status (r : reply) : Z :=
  match r with
  | NotFound => 404
  | InvalidAccessCode => 403
  | _ => 200
  end.

(** [POST /create].  The fresh [uuidv4()] and the generated access code
    are inputs; [duration] and [requirements] default to [60] and [[]]
    when the body leaves them undefined. *)
Record create_request := CreateRequest {
  cr_recruiterId : json;
  cr_recruiterName : json;
  cr_companyName : json;
  cr_jobTitle : json;
  cr_candidateEmail : json;
  cr_candidateName : json;
  cr_scheduledTime : jsval;
  cr_duration : option json;
  cr_requirements : option json
}.

Definition create (st : gmap string session) (r : create_request)
    (uuid code : string) (now : Z) : reply * gmap string session :=
  let d := Details (cr_recruiterId r) (cr_recruiterName r) (cr_companyName r)
                   (cr_jobTitle r) (cr_candidateEmail r) (cr_candidateName r)
                   (if truthy (cr_scheduledTime r) then inl (cr_scheduledTime r)
                    else inr now)
                   (default (Scalar (JNum 60)) (cr_duration r))
                   (default (Array []) (cr_requirements r)) in
  let s := Session uuid code d Scheduled [] now None None false None [] [] [] None in
  (Created uuid code, <[uuid := s]> st).

(** [GET /session/:sessionId?code=..] *)
Definition get_session (st : gmap string session) (sessionId : string) (code : jsval)
    : reply * gmap string session :=
  match st !! sessionId with
  | None => (NotFound, st)
  | Some s =>
      if negb (is_string (accessCode s) code) then (InvalidAccessCode, st)
      else (SessionView s, st)
  end.

(** [POST /join/:sessionId] *)
Definition has_role (r : string) (ps : list participant) : bool :=
  existsb (λ p, is_string r (p_role p)) ps.

Definition join_session (s : session) (p : participant) (now : Z) : session :=
  let ps := participants s ++ [p] in
  let st1 := if decide (status_of s = Scheduled) then Waiting else status_of s in
  let start :=
    has_role "recruiter" ps && has_role "candidate" ps
    && negb (bool_decide (st1 = InProgress)) in
  Session (id s) (accessCode s) (info s)
          (if start then InProgress else st1)
          ps (createdAt s)
          (if start then Some now else startedAt s)
          (endedAt s) (recordingEnabled s) (recordingUrl s) (codeSnapshots s)
          (chatHistory s) (proctoringEvents s) (feedback s).

Definition join (st : gmap string session) (sessionId : string) (name : json)
    (role code : jsval) (uuid : string) (now : Z) : reply * gmap string session :=
  match st !! sessionId with
  | None => (NotFound, st)
  | Some s =>
      if negb (is_string (accessCode s) code) then (InvalidAccessCode, st)
      else
        let p := Participant uuid name role now None None true true in
        let s' := join_session s p now in
        (Joined p (status_of s') (participants s'), <[sessionId := s']> st)
  end.

(** [POST /end/:sessionId].  [Math.round((endedAt - startedAt) / 60000)]
    with a [null] start counting as 0. *)
Definition minutes_between (start : option Z) (stop : Z) : Z :=
  (stop - default 0 start + 30000) `div` 60000.

Definition end_session (s : session) (fb notes : json) (now : Z) : session :=
  Session (id s) (accessCode s) (info s) Completed (participants s) (createdAt s)
          (startedAt s) (Some now) (recordingEnabled s) (recordingUrl s)
          (codeSnapshots s) (chatHistory s) (proctoringEvents s) (Some (fb, notes)).

Definition finish (st : gmap string session) (sessionId : string) (fb notes : json)
    (now : Z) : reply * gmap string session :=
  match st !! sessionId with
  | None => (NotFound, st)
  | Some s =>
      let s' := end_session s fb notes now in
      (Summary (minutes_between (startedAt s') now) (length (codeSnapshots s'))
               (length (chatHistory s')) (length (proctoringEvents s')),
       <[sessionId := s']> st)
  end.

(** [POST /snapshot/:sessionId] *)
Definition add_snapshot (s : session) (c l : json) (timestamp : jsval) (now : Z) : session :=
  Session (id s) (accessCode s) (info s) (status_of s) (participants s) (createdAt s)
          (startedAt s) (endedAt s) (recordingEnabled s) (recordingUrl s)
          (codeSnapshots s
             ++ [Snapshot c l (if truthy timestamp then inl timestamp else inr now)])
          (chatHistory s) (proctoringEvents s) (feedback s).

Definition save_snapshot (st : gmap string session) (sessionId : string) (c l : json)
    (timestamp : jsval) (now : Z) : reply * gmap string session :=
  match st !! sessionId with
  | None => (NotFound, st)
  | Some s => (Saved, <[sessionId := add_snapshot s c l timestamp now]> st)
  end.

(** [POST /proctoring-event/:sessionId] *)
Definition add_event (s : session) (event : json) (now : Z) : session :=
  Session (id s) (accessCode s) (info s) (status_of s) (participants s) (createdAt s)
          (startedAt s) (endedAt s) (recordingEnabled s) (recordingUrl s)
          (codeSnapshots s) (chatHistory s) (proctoringEvents s ++ [(event, now)])
          (feedback s).

Definition save_event (st : gmap string session) (sessionId : string) (event : json)
    (now : Z) : reply * gmap string session :=
  match st !! sessionId with
  | None => (NotFound, st)
  | Some s => (Saved, <[sessionId := add_event s event now]> st)
  end.

(** *** Requests as data, to run sequences of them *)

Inductive request :=
| ReqJoin (name : json) (role code : jsval) (uuid : string) (now : Z)
| ReqEnd (fb notes : json) (now : Z)
| ReqSnapshot (c l : json) (timestamp : jsval) (now : Z)
| ReqEvent (event : json) (now : Z).

Definition is_join (r : request) : bool :=
  match r with ReqJoin _ _ _ _ _ => true | _ => false end.

Definition handle (sessionId : string) (st : gmap string session) (r : request)
    : gmap string session :=
  match r with
  | ReqJoin name role code uuid now => (join st sessionId name role code uuid now).2
  | ReqEnd fb notes now => (finish st sessionId fb notes now).2
  | ReqSnapshot c l ts now => (save_snapshot st sessionId c l ts now).2
  | ReqEvent e now => (save_event st sessionId e now).2
  end.

End LiveSessions.

(** ** The proctoring dashboard listing and runs of requests *)

Module ProctoringDashboard.
Import Proctoring.

(** The [violations] object of a listing entry: one [filter] and
    [length] per severity literal. *)
Record violations := Violations {
  low : nat;
  medium : nat;
  high : nat;
  critical : nat
}.

Definition count_severity (lit : string) (events : list event) : nat :=
  length (filter (λ e, is_string lit (severity e) = true) events).

(** The listing's own copy of the score loop: the [switch] alone, no
    breakdown. *)
Definition dashboard_score (events : list event) : Z :=
  foldl (λ score e, deduct score (severity e)) 100 events.

(** [events.slice(-5)] *)
Definition recent (events : list event) : list event :=
  drop (length events - 5) events.

(** An entry of the listing: the session record spread out, and the five
    computed fields. *)
Record summary := Summary {
  of_session : session;
  integrityScore : Z;
  violations_of : violations;
  totalEvents : nat;
  duration : jsval;
  recentEvents : list event
}.

(** The callback of [map].  [elapsed] stands for
    [Math.floor((new Date() - new Date(session.startTime)) / 1000 / 60)],
    which parses a date and divides in floating point: it is an input. *)
Definition summarize (st : store) (elapsed : start_time → jsval) (s : session) : summary :=
  let events := events_of st (interviewId s) in
  Summary s (Z.max 0 (dashboard_score events))
          (Violations (count_severity "low" events) (count_severity "medium" events)
                      (count_severity "high" events) (count_severity "critical" events))
          (length events) (elapsed (startTime s)) (recent events).

Definition is_active (s : session) : bool :=
  match status s with Active => true | Ended => false end.

(** [GET /dashboard/sessions].  The entries come in the order of the
    keys of the model's map; the insertion order of [activeSessions] is
    not kept by [store]. *)
Definition dashboard_sessions (st : store) (elapsed : start_time → jsval)
    : list summary * store :=
  (summarize st elapsed
     <$> filter (λ s, is_active s = true) (map_to_list (activeSessions st)).*2,
   st).

(** The requests of the router as data, and runs of them.  A
    constructor for a GET names the handler that serves the request,
    with the parameter the handler reads. *)
Inductive request :=
| PostEvent (r : event_request) (now : Z)
| VerifyIdentity (r : identity_request) (now : Z) (answer : verifier_answer)
| PostSession (r : session_request) (now : Z)
| DeleteSession (id : string) (now : Z)
| GetEvents (id : string)
| GetScore (id : string)
| GetIdentityChecks (id : string)
| GetDashboard (id : string)
| GetDashboardSessions (elapsed : start_time → jsval).

Definition handle (st : store) (r : request) : store :=
  match r with
  | PostEvent r now => (post_event st r now).2
  | VerifyIdentity r now answer => (verify_identity st r now answer).2
  | PostSession r now => (post_session st r now).2
  | DeleteSession id now => (delete_session st id now).2
  | GetEvents id => (get_events st id).2
  | GetScore id => (get_score st id).2
  | GetIdentityChecks id => (get_identity_checks st id).2
  | GetDashboard id => (get_dashboard st id).2
  | GetDashboardSessions elapsed => (dashboard_sessions st elapsed).2
  end.

Definition run (reqs : list request) (st : store) : store := foldl handle st reqs.

(** The requests of a series of [POST /event] that are for one
    interview. *)
Definition for_interview (id : jsval) (rs : list (event_request * Z))
    : list (event_request * Z) :=
  filter (λ r, er_interviewId r.1 = id) rs.

(** The fields of an identity check report. *)
Definition checks_of (r : reply) : option (nat * nat * nat) :=
  match r with
  | IdentityChecks total passed failed _ => Some (total, passed, failed)
  | _ => None
  end.

(** A request that registers, or registers anew, an interview. *)
Definition registers (id : jsval) (r : request) : bool :=
  match r with
  | PostSession r _ => bool_decide (sr_interviewId r = id)
  | _ => false
  end.

(** *** The GET routes in the order they are registered

    Express tries the routes of a router in the order of registration
    and serves the first one whose path matches.  A literal segment
    matches without regard to the case of ASCII letters, a parameter
    matches any one segment, and the handler reads the parameter percent
    decoded: [decode] is [decodeURIComponent], [None] where it throws,
    which the router answers with 400.  A path is the list of its
    segments, as sent, below the mount point of the router; a segment is
    not empty, and a list with an empty one matches no route. *)
Definition lower (c : Ascii.ascii) : Ascii.ascii :=
  let n := Ascii.N_of_ascii c in
  if ((65 <=? n) && (n <=? 90))%N then Ascii.ascii_of_N (n + 32) else c.

Fixpoint lowercase (s : string) : string :=
  match s with
  | EmptyString => EmptyString
  | String c s' => String (lower c) (lowercase s')
  end.

(** [lit] is written in lower case. *)
Definition matches (lit segment : string) : bool :=
  bool_decide (lowercase segment = lit).

Inductive routed :=
| Served (r : reply)
| Listed (entries : list summary)
| BadParam
| Unrouted.

(** The status of the answer; a request that no route takes leaves the
    router unanswered. *)
Definition routed_status (r : routed) : option Z :=
  match r with
  | Served r => Some (http_status r)
  | Listed _ => Some 200
  | BadParam => Some 400
  | Unrouted => None
  end.

Definition with_param (decode : string → option string) (segment : string) (st : store)
    (handler : string → reply * store) : routed * store :=
  if bool_decide (segment = "") then (Unrouted, st)
  else match decode segment with
       | Some id => let '(r, st') := handler id in (Served r, st')
       | None => (BadParam, st)
       end.

(** The five GET routes: [/:interviewId/identity-checks],
    [/:interviewId], [/:interviewId/score], [/dashboard/sessions],
    [/dashboard/:interviewId]. *)
Definition route_get (decode : string → option string) (elapsed : start_time → jsval)
    (st : store) (path : list string) : routed * store :=
  match path with
  | [a] => with_param decode a st (get_events st)
  | [a; b] =>
      if matches "identity-checks" b then with_param decode a st (get_identity_checks st)
      else if matches "score" b then with_param decode a st (get_score st)
      else if matches "dashboard" a then
        if matches "sessions" b then
          let '(entries, st') := dashboard_sessions st elapsed in (Listed entries, st')
        else with_param decode b st (get_dashboard st)
      else (Unrouted, st)
  | _ => (Unrouted, st)
  end.

(** The second segments that an earlier route takes away from
    [/dashboard/:interviewId]. *)
Definition shadowed (segment : string) : bool :=
  matches "identity-checks" segment || matches "score" segment
  || matches "sessions" segment.

End ProctoringDashboard.

(** ** The session directory: access codes, the active listing, runs of calls *)

Module SessionDirectory.
Import LiveSessions.

(** [generateAccessCode].  [draw i] stands for
    [Math.floor(Math.random() * chars.length)] in round [i] of the
    loop. *)
Definition access_alphabet : string := "ABCDEFGHJKLMNPQRSTUVWXYZ23456789".

(** [s.charAt(i)]: a string of one character, empty past the end. *)
Definition charAt (s : string) (i : nat) : string :=
  match String.get i s with
  | Some c => String c ""
  | None => ""
  end.

Definition generateAccessCode (draw : nat → nat) : string :=
  foldl (λ code i, code +:+ charAt access_alphabet (draw i)) "" (seq 0 6).

(** [GET /active] *)
Record active_entry := ActiveEntry {
  ae_id : string;
  ae_recruiterName : json;
  ae_candidateName : json;
  ae_companyName : json;
  ae_status : status;
  ae_participants : nat;
  ae_startedAt : option Z
}.

Definition entry_of (s : session) : active_entry :=
  ActiveEntry (id s) (recruiterName (info s)) (candidateName (info s))
              (companyName (info s)) (status_of s) (length (participants s))
              (startedAt s).

Definition is_live (s : session) : bool :=
  bool_decide (status_of s = InProgress) || bool_decide (status_of s = Waiting).

(** The entries come in the order of the keys of the model's map, not in
    the insertion order of [liveInterviewSessions]. *)
Definition active (st : gmap string session) : list active_entry * gmap string session :=
  (entry_of <$> filter (λ s, is_live s = true) (map_to_list st).*2, st).

(** The calls of the router as data. *)
Inductive call :=
| Create (r : create_request) (uuid code : string) (now : Z)
| On (sessionId : string) (r : request)
| GetSession (sessionId : string) (code : jsval)
| GetActive.

Definition serve (st : gmap string session) (c : call) : gmap string session :=
  match c with
  | Create r uuid code now => (create st r uuid code now).2
  | On sessionId r => handle sessionId st r
  | GetSession sessionId code => (get_session st sessionId code).2
  | GetActive => (active st).2
  end.

Definition serve_all (cs : list call) (st : gmap string session) : gmap string session :=
  foldl serve st cs.

(** What a request adds to a session whose access code is [code]: the
    participant of a join that carries the code, the snapshot of a
    snapshot request, the entry of a proctoring event request. *)
Definition joined (code : string) (r : request) : option participant :=
  match r with
  | ReqJoin name role c uuid now =>
      if is_string code c then Some (Participant uuid name role now None None true true)
      else None
  | _ => None
  end.

Definition snapped (r : request) : option snapshot :=
  match r with
  | ReqSnapshot c l timestamp now =>
      Some (Snapshot c l (if truthy timestamp then inl timestamp else inr now))
  | _ => None
  end.

Definition logged (r : request) : option (json * Z) :=
  match r with
  | ReqEvent event now => Some (event, now)
  | _ => None
  end.

(** The session a call writes to, if any. *)
Definition target (c : call) : option string :=
  match c with
  | Create _ uuid _ _ => Some uuid
  | On sessionId _ => Some sessionId
  | GetSession _ _ | GetActive => None
  end.

(** How status, participants and time stamps of a session hang
    together. *)
Definition both_roles (s : session) : bool :=
  has_role "recruiter" (participants s) && has_role "candidate" (participants s).

Record consistent (s : session) : Prop := Consistent {
  scheduled_untouched :
    status_of s = Scheduled →
    participants s = [] ∧ startedAt s = None ∧ endedAt s = None;
  waiting_incomplete :
    status_of s = Waiting →
    participants s ≠ [] ∧ both_roles s = false ∧ startedAt s = None ∧ endedAt s = None;
  running_staffed :
    status_of s = InProgress → both_roles s = true ∧ is_Some (startedAt s);
  started_staffed :
    is_Some (startedAt s) → both_roles s = true;
  completed_stamped :
    status_of s = Completed → is_Some (endedAt s) ∧ is_Some (feedback s)
}.

End SessionDirectory.

(** ** All room traffic as data *)

Module RoomTraffic.
Import LiveRooms.

(** One constructor for each handler that reads or writes
    [liveInterviewRooms]; [OpCleanup] is the 30 second timer firing. *)
Inductive room_op :=
| OpJoin (sock : string) (d : join_data) (now : Z)
| OpLeave (sock : string) (sessionId : jsval)
| OpDisconnect (sock : string)
| OpCamera (sock : string) (sessionId cameraType : jsval) (enabled streamId : json)
| OpStartShare (sock : string) (sessionId : jsval) (streamType : json) (now : Z)
| OpStopShare (sock : string) (sessionId : jsval)
| OpCode (sock : string) (sessionId : jsval) (u : code_update)
| OpDraw (sock : string) (sessionId : jsval) (drawData : json)
| OpClear (sessionId : jsval)
| OpEnd (sock : string) (sessionId : jsval) (reason : json) (now : Z)
| OpCleanup.

Definition step (st : state) (op : room_op) : state :=
  match op with
  | OpJoin sock d now => (join_live_interview st sock d now).2
  | OpLeave sock sid => (leave_live_interview st sock sid).2
  | OpDisconnect sock => (disconnect st sock).2
  | OpCamera sock sid ty enabled stream =>
      (camera_status_update st sock sid ty enabled stream).2
  | OpStartShare sock sid ty now => (start_screen_share st sock sid ty now).2
  | OpStopShare sock sid => (stop_screen_share st sock sid).2
  | OpCode sock sid u => (live_code_update st sock sid u).2
  | OpDraw sock sid stroke => (whiteboard_draw st sock sid stroke).2
  | OpClear sid => (whiteboard_clear st sid).2
  | OpEnd sock sid reason now => (end_live_interview st sock sid reason now).2
  | OpCleanup => (cleanup st).2
  end.

Definition run (ops : list room_op) (st : state) : state := foldl step st ops.

Definition is_cleanup (op : room_op) : bool :=
  match op with OpCleanup => true | _ => false end.

Definition is_join (op : room_op) : bool :=
  match op with OpJoin _ _ _ => true | _ => false end.

(** The membership operation an operation is, if it is one. *)
Definition membership_of (op : room_op) : option membership_op :=
  match op with
  | OpJoin sock d now => Some (Join sock d now)
  | OpLeave sock sid => Some (Leave sock sid)
  | OpDisconnect sock => Some (Disconnect sock)
  | _ => None
  end.

(** What the operations of a sequence make of a whiteboard and of a code
    state, read off the sequence alone: strokes pile up until a clear,
    and the last code update wins. *)
Definition sketch (sessionId : jsval) (board : list json) (op : room_op) : list json :=
  match op with
  | OpDraw _ sid stroke => if decide (sid = sessionId) then board ++ [stroke] else board
  | OpClear sid => if decide (sid = sessionId) then [] else board
  | _ => board
  end.

Definition retype (sessionId : jsval) (shown : json * json) (op : room_op) : json * json :=
  match op with
  | OpCode _ sid u => if decide (sid = sessionId) then (cu_code u, cu_language u) else shown
  | _ => shown
  end.

(** A room whose participant map has each key once and files every
    participant under its own socket id. *)
Definition tidy (r : room) : Prop :=
  NoDup (map_keys (participants r))
  ∧ Forall (λ kp, socketId kp.2 = kp.1) (participants r).

(** A room [r1] that holds, of what the room [r] held, what one
    operation makes of it: the whiteboard and the code by [sketch] and
    [retype], the settings as they were, and a cursor entry for every
    socket that had one. *)
Definition follows (sessionId : jsval) (op : room_op) (r r1 : room) : Prop :=
  whiteboard r1 = sketch sessionId (whiteboard r) op
  ∧ (code (codeState r1), language (codeState r1))
    = retype sessionId (code (codeState r), language (codeState r)) op
  ∧ room_settings r1 = room_settings r
  ∧ dom (cursorPositions (codeState r)) ⊆ dom (cursorPositions (codeState r1)).

(** What a disconnect says about one room: nothing where the socket is
    no participant, and otherwise a [participant-left] to the room and a
    [live-session-update] to the dashboard. *)
Definition departure (sock : string) (kr : jsval * room) : list (audience * message) :=
  match map_get sock (participants kr.2) with
  | Some p =>
      [ (EveryoneIn (live kr.1), ParticipantLeft sock (userName p) (role p));
        (EveryoneIn dashboard,
         LiveSessionUpdate kr.1 "participant-left" (userName p) (role p)) ]
  | None => []
  end.

(** The participants listed by a room-state message. *)
Definition listed (m : message) : list participant :=
  match m with
  | RoomState ps _ _ _ => ps
  | _ => []
  end.

End RoomTraffic.

(** ** The secondary camera registry ([socket/handlers.js]) *)

Module Pairing.

(** A value of [secondaryCameraMappings]; [phoneSocketId] is absent until
    a phone connects. *)
Record mapping := Mapping {
  interviewId : jsval;
  mainSocketId : string;
  phoneSocketId : option string
}.

(** [secondaryCameraMappings] and [proctorDashboardSockets]. *)
Record state := State {
  secondaryCameraMappings : gmap jsval mapping;
  proctorDashboardSockets : gset string
}.

Definition initial_state : state := State ∅ ∅.

(** [io.to(r).emit] and [socket.to(r).emit]; the room is the value the
    handler passes, a socket id being the room of that socket. *)
Inductive audience :=
| EveryoneIn (r : jsval)
| OthersIn (r : jsval).

Inductive message :=
| SecondaryCameraConnected (status : json) (timestamp : Z)
| SecondarySnapshot (snapshot : json) (timestamp : Z).

(** [register-secondary-camera] *)
Definition register_secondary_camera (st : state) (sock : string) (interview code : jsval)
    : list (audience * message) * state :=
  ([], State (<[code := Mapping interview sock None]> (secondaryCameraMappings st))
             (proctorDashboardSockets st)).

(** [connect-secondary-camera] *)
Definition connect_secondary_camera (st : state) (sock : string) (code : jsval)
    (status : json) (now : Z) : list (audience * message) * state :=
  match secondaryCameraMappings st !! code with
  | Some m =>
      ([ (EveryoneIn (JStr (mainSocketId m)), SecondaryCameraConnected status now) ],
       State (<[code := Mapping (interviewId m) (mainSocketId m) (Some sock)]>
                (secondaryCameraMappings st))
             (proctorDashboardSockets st))
  | None => ([], st)
  end.

(** [secondary-snapshot] *)
Definition secondary_snapshot (st : state) (sock : string) (code : jsval)
    (snapshot : json) (now : Z) : list (audience * message) * state :=
  match secondaryCameraMappings st !! code with
  | Some m =>
      ([ (EveryoneIn (JStr (mainSocketId m)), SecondarySnapshot snapshot now);
         (OthersIn (interviewId m), SecondarySnapshot snapshot now) ],
       State (secondaryCameraMappings st) (proctorDashboardSockets st ∖ {[sock]}))
  | None => ([], st)
  end.

(** [join-proctor-dashboard], and the last statement of [disconnect]. *)
Definition join_proctor_dashboard (st : state) (sock : string)
    : list (audience * message) * state :=
  ([], State (secondaryCameraMappings st) ({[sock]} ∪ proctorDashboardSockets st)).

Definition disconnect (st : state) (sock : string) : list (audience * message) * state :=
  ([], State (secondaryCameraMappings st) (proctorDashboardSockets st ∖ {[sock]})).

(** The events as data. *)
Inductive pairing_op :=
| Register (sock : string) (interview code : jsval)
| Connect (sock : string) (code : jsval) (status : json) (now : Z)
| Snapshot (sock : string) (code : jsval) (snapshot : json) (now : Z)
| JoinDashboard (sock : string)
| Disconnect (sock : string).

Definition step (st : state) (op : pairing_op) : state :=
  match op with
  | Register sock interview code => (register_secondary_camera st sock interview code).2
  | Connect sock code status now => (connect_secondary_camera st sock code status now).2
  | Snapshot sock code snapshot now => (secondary_snapshot st sock code snapshot now).2
  | JoinDashboard sock => (join_proctor_dashboard st sock).2
  | Disconnect sock => (disconnect st sock).2
  end.

Definition run (ops : list pairing_op) (st : state) : state := foldl step st ops.

(** Who holds a code, read off a sequence of events: the socket of the
    latest registration of the code. *)
Definition registrant (code : jsval) (holder : option string) (op : pairing_op)
    : option string :=
  match op with
  | Register sock _ c => if decide (c = code) then Some sock else holder
  | _ => holder
  end.

End Pairing.

(** * Properties *)

(** ** Insertion ordered maps *)

Section JsMapFacts.
Context {K V : Type} `{Countable K}.
Implicit Types (k : K) (v : V) (m : list (K * V)).

Lemma map_get_set_eq k v m : map_get k (map_set k v m) = Some v.
Proof.
  induction m as [|[k' v'] m IH]; simpl.
  - by rewrite decide_True.
  - destruct (decide (k' = k)) as [->|Hne]; simpl.
    + by rewrite decide_True.
    + by rewrite decide_False.
Qed.

Lemma map_get_set_ne k k' v m : k ≠ k' → map_get k' (map_set k v m) = map_get k' m.
Proof.
  intros Hne. induction m as [|[k0 v0] m IH]; simpl.
  - by rewrite decide_False.
  - destruct (decide (k0 = k)) as [->|Hk0]; simpl.
    + by rewrite !decide_False.
    + by rewrite IH.
Qed.

Lemma map_get_None k m : map_get k m = None ↔ k ∉ map_keys m.
Proof.
  induction m as [|[k' v'] m IH]; simpl.
  - split; [intros _; apply not_elem_of_nil | done].
  - rewrite not_elem_of_cons. destruct (decide (k' = k)) as [->|Hne].
    + split; [done | by intros [? _]].
    + rewrite IH. naive_solver.
Qed.

Lemma map_keys_set k v m :
  list_to_set (C := gset K) (map_keys (map_set k v m))
  = {[k]} ∪ list_to_set (map_keys m).
Proof.
  unfold map_keys. induction m as [|[k' v'] m IH]; [done|].
  cbn [map_set]. destruct (decide (k' = k)) as [->|Hne].
  - rewrite !fmap_cons, !list_to_set_cons. set_solver.
  - rewrite !fmap_cons, !list_to_set_cons, IH. set_solver.
Qed.

Lemma map_keys_delete k m :
  list_to_set (C := gset K) (map_keys (map_delete k m))
  = list_to_set (map_keys m) ∖ {[k]}.
Proof.
  unfold map_delete, map_keys. induction m as [|[k' v'] m IH].
  - set_solver.
  - rewrite filter_cons. cbn [fst].
    destruct (decide (k' ≠ k)) as [Hne|Heq].
    + rewrite !fmap_cons, !list_to_set_cons, IH. set_solver.
    + apply dec_stable in Heq as ->.
      rewrite fmap_cons, list_to_set_cons, IH. set_solver.
Qed.

Lemma map_get_delete_ne k k' m : k ≠ k' → map_get k' (map_delete k m) = map_get k' m.
Proof.
  intros Hne. unfold map_delete. induction m as [|[k0 v0] m IH]; simpl; [done|].
  rewrite filter_cons. simpl. destruct (decide (k0 ≠ k)) as [Hk0|Hk0]; simpl.
  - by rewrite IH.
  - apply dec_stable in Hk0 as ->. by rewrite decide_False.
Qed.

End JsMapFacts.

(** ** The integrity score *)

Module ProctoringFacts.
Import Proctoring.

Lemma is_string_level lit sev :
  is_string lit sev = true ↔ sev = JStr lit.
Proof.
  destruct sev; simpl; try by split.
  rewrite bool_decide_eq_true. split; [by intros -> | by intros [= ->]].
Qed.

(** The [switch] takes off exactly the points of the table. *)
Lemma deduct_table score sev :
  deduct score sev = score - from_option points 0 (level_of sev).
Proof.
  unfold deduct.
  destruct sev as [| | b | n | s]; simpl; try lia.
  repeat case_bool_decide; repeat case_decide; simplify_eq; simpl; lia.
Qed.

Lemma score_fold_from acc events :
  (foldl score_step acc events).1 = acc.1 - total_deduction events.
Proof.
  revert acc. induction events as [|e events IH]; intros acc; simpl.
  - lia.
  - rewrite IH. simpl. rewrite deduct_table. unfold deduction. lia.
Qed.

Lemma score_loop_table events :
  Z.max 0 (score_loop events).1 = table_score events.
Proof. unfold score_loop, table_score. by rewrite score_fold_from. Qed.

Lemma deduction_nonneg e : 0 ≤ deduction e.
Proof.
  unfold deduction. destruct (level_of (severity e)) as [[]|]; simpl; lia.
Qed.

Lemma total_deduction_nonneg events : 0 ≤ total_deduction events.
Proof.
  induction events as [|e events IH]; simpl; [lia|].
  pose proof (deduction_nonneg e). lia.
Qed.

Lemma total_deduction_app events more :
  total_deduction (events ++ more) = total_deduction events + total_deduction more.
Proof. induction events as [|e events IH]; simpl; lia. Qed.

Lemma table_score_bounds events : 0 ≤ table_score events ≤ 100.
Proof.
  unfold table_score. pose proof (total_deduction_nonneg events). lia.
Qed.

Lemma table_score_app events more :
  table_score (events ++ more) ≤ table_score events.
Proof.
  unfold table_score. rewrite total_deduction_app.
  pose proof (total_deduction_nonneg more). lia.
Qed.

(** The reply of the score handler in closed form. *)
Lemma get_score_eq st id :
  get_score st id
  = (ScoreReport (table_score (events_of st (JStr id)))
                 (length (events_of st (JStr id)))
                 (score_loop (events_of st (JStr id))).2, st).
Proof.
  unfold get_score. rewrite <- score_loop_table.
  by destruct (score_loop (events_of st (JStr id))).
Qed.

(** The log of a session after [POST /event]. *)
Lemma events_of_post_event st r now id :
  events_of (post_event st r now).2 id
  = if decide (er_interviewId r = id)
    then events_of st id
         ++ [Event (er_eventType r) (er_severity r) (er_details r) now]
    else events_of st id.
Proof.
  unfold events_of at 1. simpl. case_decide as Hid.
  - subst. by rewrite lookup_insert_eq.
  - by rewrite lookup_insert_ne.
Qed.

(** The log of a session after [POST /verify-identity]: unchanged, or one
    [identity_mismatch] event longer. *)
Lemma events_of_verify_identity st r now answer id :
  events_of (verify_identity st r now answer).2 id = events_of st id
  ∨ ∃ e, events_of (verify_identity st r now answer).2 id = events_of st id ++ [e].
Proof.
  unfold verify_identity.
  destruct (negb (truthy (ir_userId r)) || negb (truthy (ir_image r))); [by left|].
  destruct answer as [| |res]; [by left | by left |].
  destruct (truthy (vr_verified res)); [by left|].
  destruct (decide (ir_interviewId r = id)) as [->|Hne].
  - destruct (optional_toFixed3 (vr_score res)) eqn:Hfix;
      [right; eexists | right; eexists | left];
      unfold events_of at 1; simpl; by rewrite lookup_insert_eq.
  - left. destruct (optional_toFixed3 (vr_score res)) eqn:Hfix;
      unfold events_of at 1; simpl; by rewrite lookup_insert_ne.
Qed.

(** For a plain key the breakdown holds the number of events of that
    type, and no property when there is none. *)
Lemma count_type_lookup_plain o k k' :
  plain_key k' →
  (∀ v, o !! k' = Some v → ∃ n, v = PNum n ∧ 0 < n) →
  count_type o k !! k'
  = if decide (k = k')
    then Some (PNum (match o !! k' with Some (PNum n) => n + 1 | _ => 1 end))
    else o !! k'.
Proof.
  intros [Hproto Hinh] Hown. unfold count_type, obj_assign.
  case_decide as Hk.
  - subst k'. rewrite bool_decide_eq_false_2 by done.
    rewrite lookup_insert_eq. unfold read_property.
    destruct (o !! k) as [v|] eqn:Hv.
    + destruct (Hown v eq_refl) as (n & -> & Hn). simpl.
      destruct (Z.eqb_spec n 0); [lia | done].
    + rewrite bool_decide_eq_false_2 by done. by rewrite Hinh.
  - case_bool_decide; [done|]. by rewrite lookup_insert_ne.
Qed.

Lemma occurrences_cons k e events :
  occurrences k (e :: events)
  = if decide (to_string (eventType e) = k)
    then S (occurrences k events) else occurrences k events.
Proof. unfold occurrences. rewrite filter_cons. by case_decide. Qed.

Lemma breakdown_plain events acc k :
  plain_key k →
  (∀ v, acc.2 !! k = Some v → ∃ n, v = PNum n ∧ 0 < n) →
  (foldl score_step acc events).2 !! k
  = match occurrences k events, acc.2 !! k with
    | O, own => own
    | S n, Some (PNum c) => Some (PNum (c + Z.of_nat (S n)))
    | S n, _ => Some (PNum (Z.of_nat (S n)))
    end.
Proof.
  intros Hk. revert acc.
  induction events as [|e events IH]; intros acc Hown; [done|].
  cbn [foldl]. rewrite occurrences_cons.
  assert (Hstep : (score_step acc e).2 !! k
                  = if decide (to_string (eventType e) = k)
                    then Some (PNum (match acc.2 !! k with
                                     | Some (PNum n) => n + 1 | _ => 1 end))
                    else acc.2 !! k)
    by (apply count_type_lookup_plain; done).
  rewrite IH; last first.
  { intros v. rewrite Hstep. case_decide; [|by apply Hown].
    intros [= <-]. destruct (acc.2 !! k) as [v'|] eqn:Hv; [|eexists; split; [done|lia]].
    destruct (Hown v' eq_refl) as (n & -> & Hn). eexists; split; [done|lia]. }
  rewrite Hstep.
  destruct (decide (to_string (eventType e) = k)) as [He|He]; [|done].
  destruct (acc.2 !! k) as [v'|] eqn:Hv.
  - destruct (Hown v' eq_refl) as (n & -> & Hn).
    destruct (occurrences k events); f_equal; f_equal; lia.
  - destruct (occurrences k events); f_equal; f_equal; lia.
Qed.

Lemma breakdown_counts events k :
  plain_key k →
  (score_loop events).2 !! k
  = match occurrences k events with
    | O => None
    | S n => Some (PNum (Z.of_nat (S n)))
    end.
Proof.
  intros Hk. unfold score_loop. rewrite breakdown_plain; [|done|].
  - simpl. rewrite lookup_empty. by destruct (occurrences k events).
  - simpl. intros v. by rewrite lookup_empty.
Qed.

(** An event whose severity is outside the table leaves the score where
    it was and adds one to the total; under a plain key it adds one to
    the count of its type. *)
Lemma unknown_severity_event events e :
  level_of (severity e) = None →
  (score_loop (events ++ [e])).1 = (score_loop events).1
  ∧ length (events ++ [e]) = S (length events)
  ∧ (plain_key (to_string (eventType e)) →
     (score_loop (events ++ [e])).2 !! to_string (eventType e)
     = Some (PNum (Z.of_nat (S (occurrences (to_string (eventType e)) events))))).
Proof.
  intros Hsev. split; [|split].
  - unfold score_loop. rewrite !score_fold_from, total_deduction_app. simpl.
    unfold deduction. rewrite Hsev. simpl. lia.
  - rewrite length_app. simpl. lia.
  - intros Hk. rewrite breakdown_counts by done.
    unfold occurrences. rewrite filter_app, length_app, filter_cons.
    rewrite decide_True by done. simpl.
    by replace (length (filter (λ e0, to_string (eventType e0) = to_string (eventType e))
                               events) + 1)%nat
      with (S (length (filter (λ e0, to_string (eventType e0) = to_string (eventType e))
                              events))) by lia.
Qed.

(** The log of a session after a series of [POST /event] requests for
    it. *)
Lemma events_of_record_all rs st id :
  Forall (λ r, er_interviewId r.1 = id) rs →
  events_of (record_all st rs) id = events_of st id ++ (stored_event <$> rs).
Proof.
  revert st. induction rs as [|r rs IH]; intros st Hrs.
  - by rewrite app_nil_r.
  - apply Forall_cons in Hrs as [Hr Hrs]. cbn [record_all foldl].
    unfold record_all in IH. rewrite IH by done.
    rewrite events_of_post_event, decide_True by done.
    by rewrite <- app_assoc.
Qed.

(** *** The claims on the score *)

(** C1: the score that [GET /:interviewId/score] reports is
    max(0, 100 - the sum of the deductions of the recorded events), with
    2 points for low, 5 for medium, 10 for high and 20 for critical; a
    session whose log is [low, critical] scores 78 and one whose log is
    [medium, medium, high] scores 80. *)
Theorem C1_score_formula :
  (∀ st id,
     (get_score st id).1
     = ScoreReport (Z.max 0 (100 - total_deduction (events_of st (JStr id))))
                   (length (events_of st (JStr id)))
                   (score_loop (events_of st (JStr id))).2)
  ∧ (points Low = 2 ∧ points Medium = 5 ∧ points High = 10 ∧ points Critical = 20)
  ∧ (∀ id rs,
       Forall (λ r, er_interviewId r.1 = JStr id) rs →
       (get_score (record_all empty_store rs) id).1
       = ScoreReport (Z.max 0 (100 - total_deduction (stored_event <$> rs)))
                     (length rs)
                     (score_loop (stored_event <$> rs)).2)
  ∧ (∀ st id ty1 ty2 d1 d2 t1 t2,
       events_of st (JStr id) = [] →
       let st1 := (post_event st (EventRequest (JStr id) ty1 (JStr "low") d1) t1).2 in
       let st2 :=
         (post_event st1 (EventRequest (JStr id) ty2 (JStr "critical") d2) t2).2 in
       ∃ n b, (get_score st2 id).1 = ScoreReport 78 n b)
  ∧ (∀ st id ty1 ty2 ty3 d1 d2 d3 t1 t2 t3,
       events_of st (JStr id) = [] →
       let st1 := (post_event st (EventRequest (JStr id) ty1 (JStr "medium") d1) t1).2 in
       let st2 := (post_event st1 (EventRequest (JStr id) ty2 (JStr "medium") d2) t2).2 in
       let st3 := (post_event st2 (EventRequest (JStr id) ty3 (JStr "high") d3) t3).2 in
       ∃ n b, (get_score st3 id).1 = ScoreReport 80 n b).
Proof.
  split; [|split; [done|split; [|split]]].
  - intros st id. by rewrite get_score_eq.
  - intros id rs Hrs. rewrite get_score_eq, events_of_record_all by done.
    change (events_of empty_store (JStr id)) with (@nil event).
    cbn [fst app]. unfold table_score. by rewrite length_fmap.
  - intros st id ty1 ty2 d1 d2 t1 t2 Hempty st1 st2.
    rewrite get_score_eq. do 2 eexists. cbn [fst]. f_equal.
    subst st1 st2. rewrite !events_of_post_event, !decide_True, Hempty by done.
    reflexivity.
  - intros st id ty1 ty2 ty3 d1 d2 d3 t1 t2 t3 Hempty st1 st2 st3.
    rewrite get_score_eq. do 2 eexists. cbn [fst]. f_equal.
    subst st1 st2 st3. rewrite !events_of_post_event, !decide_True, Hempty by done.
    reflexivity.
Qed.

Lemma C1_score_formula_witness :
  ∃ n b,
    (get_score
       (post_event
          (post_event empty_store
             (EventRequest (JStr "S1") (JStr "tab-switch") (JStr "low")
                           (Scalar JUndefined)) 1).2
          (EventRequest (JStr "S1") (JStr "face-mismatch") (JStr "critical")
                        (Scalar JUndefined)) 2).2
       "S1").1
    = ScoreReport 78 n b.
Proof.
  destruct C1_score_formula as (_ & _ & _ & scenario_a & _).
  apply (scenario_a empty_store "S1"). reflexivity.
Defined.

(** C2: the score report is a function of the current log alone, so two
    calls with the log untouched in between give identical reports (and
    the call itself leaves the store as it was); an event appended,
    through [POST /event] or as the identity mismatch that
    [POST /verify-identity] logs, never raises the score; the score lies
    between 0 and 100. *)
Theorem C2_score_idempotent_monotone_bounded :
  (∀ st id, get_score (get_score st id).2 id = get_score st id)
  ∧ (∀ st st' id,
       events_of st (JStr id) = events_of st' (JStr id) →
       (get_score st id).1 = (get_score st' id).1)
  ∧ (∀ st id, ∃ s n b,
       reported (get_score st id).1 = Some (s, n, b) ∧ 0 ≤ s ≤ 100)
  ∧ (∀ st r now id, ∃ s n b s' n' b',
       reported (get_score st id).1 = Some (s, n, b)
       ∧ reported (get_score (post_event st r now).2 id).1 = Some (s', n', b')
       ∧ s' ≤ s)
  ∧ (∀ st r now answer id, ∃ s n b s' n' b',
       reported (get_score st id).1 = Some (s, n, b)
       ∧ reported (get_score (verify_identity st r now answer).2 id).1
         = Some (s', n', b')
       ∧ s' ≤ s).
Proof.
  split; [|split; [|split; [|split]]].
  - intros st id. by rewrite !get_score_eq.
  - intros st st' id Hlog. by rewrite !get_score_eq, Hlog.
  - intros st id. rewrite get_score_eq. do 3 eexists. split; [done|].
    apply table_score_bounds.
  - intros st r now id. rewrite !get_score_eq. do 6 eexists.
    split; [done|split; [done|]].
    rewrite events_of_post_event. case_decide; [apply table_score_app | lia].
  - intros st r now answer id. rewrite !get_score_eq. do 6 eexists.
    split; [done|split; [done|]].
    destruct (events_of_verify_identity st r now answer (JStr id)) as [->|[e ->]];
      [lia | apply table_score_app].
Qed.

Lemma C2_score_idempotent_monotone_bounded_witness :
  let registered :=
    (post_session empty_store
       (SessionRequest (JStr "S1") (Scalar (JStr "Cy")) (Scalar (JStr "cy@example.org"))
                       (Scalar (JStr "Rita")) JUndefined) 5).2 in
  (get_score empty_store "S1").1 = (get_score registered "S1").1.
Proof.
  intros registered.
  destruct C2_score_idempotent_monotone_bounded as (_ & same_log & _).
  apply same_log. reflexivity.
Defined.

(** The requests that reach the dashboard detail handler: the first
    segment reads [dashboard], in any case of its letters, and the second
    is none of those an earlier route takes. *)
Lemma route_dashboard_detail decode elapsed st a seg :
  ProctoringDashboard.matches "dashboard" a = true →
  ProctoringDashboard.shadowed seg = false →
  ProctoringDashboard.route_get decode elapsed st [a; seg]
  = ProctoringDashboard.with_param decode seg st (get_dashboard st).
Proof.
  unfold ProctoringDashboard.shadowed, ProctoringDashboard.route_get.
  intros -> [[-> ->]%orb_false_elim ->]%orb_false_elim. done.
Qed.

Lemma route_events decode elapsed st seg :
  ProctoringDashboard.route_get decode elapsed st [seg]
  = ProctoringDashboard.with_param decode seg st (get_events st).
Proof. done. Qed.

Lemma route_score decode elapsed st seg :
  ProctoringDashboard.route_get decode elapsed st [seg; "score"]
  = ProctoringDashboard.with_param decode seg st (get_score st).
Proof. done. Qed.

(** C8, as the code has it.  [GET /dashboard/<id>] answers 404 when no
    session is registered under the id, provided the id is none of
    [sessions], [score] and [identity-checks]: those paths are served by
    routes registered earlier, with status 200.  The event list and the
    score answer 200 for an id without a log, with an empty list and
    with score 100, total 0 and an empty breakdown.  None of them
    changes the store. *)
Theorem C8_unknown_id_replies :
  (∀ decode elapsed st a seg id,
     ProctoringDashboard.matches "dashboard" a = true →
     ProctoringDashboard.shadowed seg = false →
     seg ≠ "" →
     decode seg = Some id →
     activeSessions st !! JStr id = None →
     ProctoringDashboard.route_get decode elapsed st [a; seg]
     = (ProctoringDashboard.Served SessionNotFound, st)
     ∧ ProctoringDashboard.routed_status
         (ProctoringDashboard.route_get decode elapsed st [a; seg]).1 = Some 404)
  ∧ (∀ decode elapsed st seg id,
       seg ≠ "" →
       decode seg = Some id →
       proctoringEvents st !! JStr id = None →
       ProctoringDashboard.route_get decode elapsed st [seg]
       = (ProctoringDashboard.Served (EventLog []), st)
       ∧ ProctoringDashboard.routed_status
           (ProctoringDashboard.route_get decode elapsed st [seg]).1 = Some 200
       ∧ ProctoringDashboard.route_get decode elapsed st [seg; "score"]
         = (ProctoringDashboard.Served (ScoreReport 100 0 ∅), st)
       ∧ ProctoringDashboard.routed_status
           (ProctoringDashboard.route_get decode elapsed st [seg; "score"]).1 = Some 200)
  ∧ (∀ decode elapsed st a seg id,
       ProctoringDashboard.matches "dashboard" a = true →
       ProctoringDashboard.shadowed seg = true →
       decode a = Some id →
       ProctoringDashboard.routed_status
         (ProctoringDashboard.route_get decode elapsed st [a; seg]).1 = Some 200
       ∧ (ProctoringDashboard.route_get decode elapsed st [a; seg]).2 = st).
Proof.
  split; [|split].
  - intros decode elapsed st a seg id Hdashboard Hfree Hseg Hid Hnone.
    rewrite route_dashboard_detail by done.
    unfold ProctoringDashboard.with_param, get_dashboard.
    by rewrite bool_decide_eq_false_2, Hid, Hnone.
  - intros decode elapsed st seg id Hseg Hid Hnone.
    rewrite route_events, route_score.
    unfold ProctoringDashboard.with_param, get_events, get_score, events_of.
    by rewrite bool_decide_eq_false_2, Hid, Hnone.
  - intros decode elapsed st a seg id Hdashboard Htaken Hid.
    unfold ProctoringDashboard.route_get, ProctoringDashboard.shadowed in *.
    unfold ProctoringDashboard.with_param.
    rewrite (bool_decide_eq_false_2 (a = "")) by (by intros ->).
    rewrite Hdashboard, Hid, get_score_eq.
    destruct (ProctoringDashboard.matches "identity-checks" seg); [done|].
    destruct (ProctoringDashboard.matches "score" seg); [done|].
    cbn in Htaken. by rewrite Htaken.
Qed.

Lemma C8_unknown_id_replies_witness :
  ProctoringDashboard.route_get Some (λ _, JNum 0) empty_store
                                ["dashboard"; "never-registered"]
  = (ProctoringDashboard.Served SessionNotFound, empty_store)
  ∧ ProctoringDashboard.routed_status
      (ProctoringDashboard.route_get Some (λ _, JNum 0) empty_store
                                     ["dashboard"; "never-registered"]).1 = Some 404.
Proof.
  destruct C8_unknown_id_replies as [dashboard_404 _].
  apply (dashboard_404 Some (λ _, JNum 0) empty_store "dashboard" "never-registered"
                       "never-registered"); first [reflexivity | discriminate].
Defined.

(** C8 as stated fails: the event list and the score of an id that was
    never registered are answered with 200. *)
Lemma C8_counterexample :
  http_status (get_events empty_store "never-registered").1 = 200
  ∧ http_status (get_score empty_store "never-registered").1 = 200
  ∧ http_status (get_events empty_store "never-registered").1 ≠ 404.
Proof. by repeat split. Qed.

(** C9, as the code has it: [POST /verify-identity] answers 400 when
    [userId] or [image] is missing (or otherwise falsy), whatever the
    verifier would have said, and leaves the three maps as they were;
    [POST /event] checks nothing: it always stores the event it is given
    and answers 200. *)
Theorem C9_missing_user_or_image_rejected :
  (∀ st r now answer,
     truthy (ir_userId r) = false ∨ truthy (ir_image r) = false →
     verify_identity st r now answer = (MissingUserOrImage, st)
     ∧ http_status (verify_identity st r now answer).1 = 400)
  ∧ (∀ st r now,
       let e := Event (er_eventType r) (er_severity r) (er_details r) now in
       (post_event st r now).1 = EventStored e
       ∧ http_status (post_event st r now).1 = 200
       ∧ events_of (post_event st r now).2 (er_interviewId r)
         = events_of st (er_interviewId r) ++ [e]).
Proof.
  split.
  - intros st r now answer Hmissing. unfold verify_identity.
    by destruct Hmissing as [-> | ->]; rewrite ?orb_true_r.
  - intros st r now e. repeat split.
    by rewrite events_of_post_event, decide_True.
Qed.

Lemma C9_missing_user_or_image_rejected_witness :
  verify_identity empty_store
    (IdentityRequest (JStr "S1") JUndefined (JStr "data:image/png;base64,AAAA"))
    0 CallFails
  = (MissingUserOrImage, empty_store)
  ∧ http_status
      (verify_identity empty_store
         (IdentityRequest (JStr "S1") JUndefined (JStr "data:image/png;base64,AAAA"))
         0 CallFails).1
    = 400.
Proof.
  destruct C9_missing_user_or_image_rejected as [rejected _].
  apply rejected. left. reflexivity.
Defined.

(** C9 as stated fails: [POST /event] with only [interviewId] in the body
    is answered with 200 and an event of undefined type and severity is
    in the log afterwards. *)
Lemma C9_counterexample :
  let r := EventRequest (JStr "S1") JUndefined JUndefined (Scalar JUndefined) in
  http_status (post_event empty_store r 0).1 = 200
  ∧ events_of empty_store (JStr "S1") = []
  ∧ events_of (post_event empty_store r 0).2 (JStr "S1")
    = [Event JUndefined JUndefined (Scalar JUndefined) 0].
Proof. by repeat split. Qed.

(** C10 at the inputs where it fails: one event of unknown severity in
    the log of session S1.  With the event type [__proto__] the report
    has total 1 and an empty breakdown; with the event type
    [constructor] the breakdown holds a text, not the count 1.  The
    score is 100 both times. *)
Theorem C10_inherited_event_type_not_counted :
  (get_score
     (post_event empty_store
        (EventRequest (JStr "S1") (JStr "__proto__") (JStr "info") (Scalar JUndefined))
        0).2 "S1").1
  = ScoreReport 100 1 ∅
  ∧ (get_score
       (post_event empty_store
          (EventRequest (JStr "S1") (JStr "constructor") (JStr "info")
                        (Scalar JUndefined))
          0).2 "S1").1
    = ScoreReport 100 1
        {[ "constructor" := PText "function Object() { [native code] }1" ]}.
Proof. split; reflexivity. Qed.

End ProctoringFacts.

(** ** Room membership and room snapshots *)

Module LiveRoomsFacts.
Import LiveRooms.

Lemma members_join st sock d now sid :
  members (join_live_interview st sock d now).2 sid
  = if decide (jd_sessionId d = sid) then {[sock]} ∪ members st sid else members st sid.
Proof.
  unfold members, join_live_interview. cbn [snd with_rooms liveInterviewRooms].
  case_decide as Hsid.
  - subst sid. rewrite map_get_set_eq. cbn [participants with_participants].
    rewrite map_keys_set. by destruct (map_get (jd_sessionId d) (liveInterviewRooms st)).
  - by rewrite map_get_set_ne.
Qed.

Lemma members_leave_room sock r :
  list_to_set (C := gset string) (map_keys (participants (leave_room sock r)))
  = list_to_set (map_keys (participants r)) ∖ {[sock]}.
Proof. unfold leave_room. cbn [participants with_screenShares with_participants].
       apply map_keys_delete. Qed.

Lemma members_absent sock (r : room) :
  map_get sock (participants r) = None →
  list_to_set (C := gset string) (map_keys (participants r)) ∖ {[sock]}
  = list_to_set (map_keys (participants r)).
Proof. rewrite map_get_None. set_solver. Qed.

Lemma members_leave st sock sid sid' :
  members (leave_live_interview st sock sid).2 sid'
  = if decide (sid = sid') then members st sid' ∖ {[sock]} else members st sid'.
Proof.
  unfold members, leave_live_interview.
  destruct (map_get sid (liveInterviewRooms st)) as [r|] eqn:Hr; cbn [snd].
  - destruct (map_get sock (participants r)) as [p|] eqn:Hp;
      cbn [snd with_rooms liveInterviewRooms].
    + case_decide as Hsid.
      * subst sid'. rewrite map_get_set_eq, Hr. apply members_leave_room.
      * by rewrite map_get_set_ne.
    + case_decide as Hsid; [|done]. subst sid'. rewrite Hr.
      by rewrite members_absent.
  - case_decide as Hsid; [|done]. subst sid'. rewrite Hr. set_solver.
Qed.

(** The loop of [disconnect] visits every room once and keeps the keys
    of [liveInterviewRooms]. *)
Lemma map_get_disconnect_rooms sock rooms sid :
  map_get sid (disconnect_rooms sock rooms).2
  = (λ r, match map_get sock (participants r) with
          | Some _ => leave_room sock r
          | None => r
          end) <$> map_get sid rooms.
Proof.
  induction rooms as [|[sid0 r0] rooms IH]; [done|].
  cbn [disconnect_rooms]. destruct (disconnect_rooms sock rooms) as [out rest].
  cbn [snd] in IH.
  destruct (map_get sock (participants r0)) as [p|] eqn:Hp; cbn [snd map_get];
    (destruct (decide (sid0 = sid)); [cbn; by rewrite Hp | done]).
Qed.

Lemma members_disconnect st sock sid :
  members (disconnect st sock).2 sid = members st sid ∖ {[sock]}.
Proof.
  unfold members, disconnect.
  pose proof (map_get_disconnect_rooms sock (liveInterviewRooms st) sid) as Hget.
  destruct (disconnect_rooms sock (liveInterviewRooms st)) as [out rooms].
  cbn [snd with_rooms liveInterviewRooms] in *. rewrite Hget.
  destruct (map_get sid (liveInterviewRooms st)) as [r|]; cbn [fmap option_fmap option_map].
  - destruct (map_get sock (participants r)) as [p|] eqn:Hp.
    + apply members_leave_room.
    + by rewrite members_absent.
  - set_solver.
Qed.

Lemma members_step st op sid :
  members (membership_step st op) sid = account sid (members st sid) op.
Proof.
  destruct op as [sock d now|sock sid0|sock]; cbn [membership_step account].
  - apply members_join.
  - apply members_leave.
  - apply members_disconnect.
Qed.

Lemma members_run ops st sid :
  members (run_membership ops st) sid = foldl (account sid) (members st sid) ops.
Proof.
  revert st. induction ops as [|op ops IH]; intros st; [done|].
  cbn [run_membership foldl]. unfold run_membership in IH.
  by rewrite IH, members_step.
Qed.

(** Joining or leaving one room leaves the record of every other room
    as it is. *)
Lemma other_room_join st sock d now sid :
  jd_sessionId d ≠ sid →
  map_get sid (liveInterviewRooms (join_live_interview st sock d now).2)
  = map_get sid (liveInterviewRooms st).
Proof. intros Hne. cbn. by rewrite map_get_set_ne. Qed.

Lemma other_room_leave st sock sid0 sid :
  sid0 ≠ sid →
  map_get sid (liveInterviewRooms (leave_live_interview st sock sid0).2)
  = map_get sid (liveInterviewRooms st).
Proof.
  intros Hne. unfold leave_live_interview.
  destruct (map_get sid0 (liveInterviewRooms st)) as [r|]; [|done].
  destruct (map_get sock (participants r)); [|done].
  cbn. by rewrite map_get_set_ne.
Qed.

(** The handlers that edit a room in place keep its members. *)
Lemma members_edit_room st sid0 r r' sid :
  map_get sid0 (liveInterviewRooms st) = Some r →
  list_to_set (C := gset string) (map_keys (participants r'))
  = list_to_set (map_keys (participants r)) →
  members (with_rooms (map_set sid0 r' (liveInterviewRooms st)) st) sid = members st sid.
Proof.
  intros Hr Hkeys. unfold members. cbn [with_rooms liveInterviewRooms].
  destruct (decide (sid0 = sid)) as [<-|Hne].
  - by rewrite map_get_set_eq, Hr.
  - by rewrite map_get_set_ne.
Qed.

Lemma members_live_code_update st sock sid0 u sid :
  members (live_code_update st sock sid0 u).2 sid = members st sid.
Proof.
  unfold live_code_update.
  destruct (map_get sid0 (liveInterviewRooms st)) as [r|] eqn:Hr; [|done].
  by apply (members_edit_room st sid0 r).
Qed.

Lemma members_whiteboard_draw st sock sid0 stroke sid :
  members (whiteboard_draw st sock sid0 stroke).2 sid = members st sid.
Proof.
  unfold whiteboard_draw.
  destruct (map_get sid0 (liveInterviewRooms st)) as [r|] eqn:Hr; [|done].
  by apply (members_edit_room st sid0 r).
Qed.

Lemma members_whiteboard_clear st sid0 sid :
  members (whiteboard_clear st sid0).2 sid = members st sid.
Proof.
  unfold whiteboard_clear.
  destruct (map_get sid0 (liveInterviewRooms st)) as [r|] eqn:Hr; [|done].
  by apply (members_edit_room st sid0 r).
Qed.

Lemma members_start_screen_share st sock sid0 ty now sid :
  members (start_screen_share st sock sid0 ty now).2 sid = members st sid.
Proof.
  unfold start_screen_share.
  destruct (map_get sid0 (liveInterviewRooms st)) as [r|] eqn:Hr; [|done].
  by apply (members_edit_room st sid0 r).
Qed.

Lemma members_stop_screen_share st sock sid0 sid :
  members (stop_screen_share st sock sid0).2 sid = members st sid.
Proof.
  unfold stop_screen_share.
  destruct (map_get sid0 (liveInterviewRooms st)) as [r|] eqn:Hr; [|done].
  by apply (members_edit_room st sid0 r).
Qed.

Lemma members_camera_status_update st sock sid0 ty enabled stream sid :
  members (camera_status_update st sock sid0 ty enabled stream).2 sid = members st sid.
Proof.
  unfold camera_status_update.
  destruct (map_get sid0 (liveInterviewRooms st)) as [r|] eqn:Hr; [|done].
  destruct (map_get sock (participants r)) as [p|] eqn:Hp; [|done].
  apply (members_edit_room st sid0 r); [done|].
  cbn [participants with_participants]. rewrite map_keys_set.
  assert (sock ∈ map_keys (participants r)) as Hin.
  { destruct (decide (sock ∈ map_keys (participants r))) as [|Hout]; [done|].
    apply map_get_None in Hout. congruence. }
  set_solver.
Qed.

(** [live-code-update] on a room that exists. *)
Lemma live_code_update_room st sock sid u r :
  map_get sid (liveInterviewRooms st) = Some r →
  map_get sid (liveInterviewRooms (live_code_update st sock sid u).2)
  = Some (with_codeState (apply_code_update sock u (codeState r)) r).
Proof.
  intros Hr. unfold live_code_update. rewrite Hr. cbn. apply map_get_set_eq.
Qed.

Lemma run_code_updates_room us st sid r :
  map_get sid (liveInterviewRooms st) = Some r →
  ∃ r', map_get sid (liveInterviewRooms (run_code_updates sid us st)) = Some r'.
Proof.
  revert st r. induction us as [|[sock u] us IH]; intros st r Hr; [by eexists|].
  cbn [run_code_updates foldl]. eapply IH. cbn [fst snd].
  by apply live_code_update_room.
Qed.

(** The snapshot of a join shows the code state the room had. *)
Lemma join_snapshot st sock d now :
  snapshot_of (join_live_interview st sock d now).1
  = Some (room_state
            (with_participants
               (map_set sock
                  (Participant (jd_participantId d) sock (jd_userName d) (jd_role d)
                     (match jd_cameras d with
                      | Some o => CameraGiven <$> o
                      | None => default_cameras
                      end) true true now)
                  (participants
                     (default fresh_room
                        (map_get (jd_sessionId d) (liveInterviewRooms st)))))
               (default fresh_room (map_get (jd_sessionId d) (liveInterviewRooms st))))).
Proof. reflexivity. Qed.

(** Drawing changes nothing that a later join emits. *)
Lemma join_after_draw st drawer sid stroke sock d now :
  (join_live_interview (whiteboard_draw st drawer sid stroke).2 sock d now).1
  = (join_live_interview st sock d now).1.
Proof.
  unfold whiteboard_draw. cbn [snd].
  destruct (map_get sid (liveInterviewRooms st)) as [r|] eqn:Hr; [|done].
  unfold join_live_interview. cbn [fst with_rooms liveInterviewRooms].
  destruct (decide (sid = jd_sessionId d)) as [<-|Hne].
  - by rewrite map_get_set_eq, Hr.
  - by rewrite map_get_set_ne.
Qed.

(** *** The claims on rooms *)

(** C3: after any sequence of joins, leaves and disconnects the
    participant map of a room has as keys exactly the endpoints that
    joined that room and have not left it or disconnected since; a join
    or a leave on one room changes nothing in another room. *)
Theorem C3_members_are_joined_not_left :
  (∀ ops sid, members (run_membership ops initial_state) sid = joined_not_left sid ops)
  ∧ (∀ st sock d now sid,
       jd_sessionId d ≠ sid →
       map_get sid (liveInterviewRooms (join_live_interview st sock d now).2)
       = map_get sid (liveInterviewRooms st)
       ∧ members (join_live_interview st sock d now).2 sid = members st sid)
  ∧ (∀ st sock sid0 sid,
       sid0 ≠ sid →
       map_get sid (liveInterviewRooms (leave_live_interview st sock sid0).2)
       = map_get sid (liveInterviewRooms st)
       ∧ members (leave_live_interview st sock sid0).2 sid = members st sid).
Proof.
  split; [|split].
  - intros ops sid. by rewrite members_run.
  - intros st sock d now sid Hne. split; [by apply other_room_join|].
    by rewrite members_join, decide_False.
  - intros st sock sid0 sid Hne. split; [by apply other_room_leave|].
    by rewrite members_leave, decide_False.
Qed.

Lemma C3_members_are_joined_not_left_witness :
  let d := JoinData (JStr "R1") (Scalar (JStr "u1")) (Scalar (JStr "Ada"))
                    (Scalar (JStr "candidate")) None in
  map_get (JStr "R2") (liveInterviewRooms (join_live_interview initial_state "a" d 1).2)
  = map_get (JStr "R2") (liveInterviewRooms initial_state)
  ∧ members (join_live_interview initial_state "a" d 1).2 (JStr "R2")
    = members initial_state (JStr "R2").
Proof.
  destruct C3_members_are_joined_not_left as (_ & join_elsewhere & _).
  apply join_elsewhere. discriminate.
Defined.

(** C4: in a room that exists, after N ≥ 1 [live-code-update] messages
    in a row the snapshot that the next join receives carries the code
    and the language of the N-th of them. *)
Theorem C4_snapshot_shows_last_code_update st sid r us sock_n u_n sock d now :
  map_get sid (liveInterviewRooms st) = Some r →
  jd_sessionId d = sid →
  ∃ ps cs ss se,
    snapshot_of
      (join_live_interview (run_code_updates sid (us ++ [(sock_n, u_n)]) st) sock d now).1
    = Some (RoomState ps cs ss se)
    ∧ code cs = cu_code u_n
    ∧ language cs = cu_language u_n.
Proof.
  intros Hr <-. rewrite join_snapshot.
  unfold run_code_updates. rewrite foldl_app. cbn [foldl fst snd].
  destruct (run_code_updates_room us st (jd_sessionId d) r Hr) as [r' Hr'].
  unfold run_code_updates in Hr'.
  rewrite (live_code_update_room _ _ _ _ r' Hr').
  unfold room_state. by do 4 eexists.
Qed.

Lemma C4_snapshot_shows_last_code_update_witness :
  let d := JoinData (JStr "R") (Scalar (JStr "u1")) (Scalar (JStr "Ada"))
                    (Scalar (JStr "candidate")) None in
  let d' := JoinData (JStr "R") (Scalar (JStr "u2")) (Scalar (JStr "Bob"))
                     (Scalar (JStr "recruiter")) None in
  let u1 := CodeUpdate (Scalar (JStr "x = 1")) (Scalar (JStr "python"))
                       (Scalar JUndefined) (Scalar JUndefined) in
  let u2 := CodeUpdate (Scalar (JStr "let x = 2;")) (Scalar (JStr "javascript"))
                       (Scalar JUndefined) (Scalar JUndefined) in
  let st := (join_live_interview initial_state "a" d 1).2 in
  ∃ ps cs ss se,
    snapshot_of
      (join_live_interview (run_code_updates (JStr "R") ([("a", u1)] ++ [("a", u2)]) st)
                           "b" d' 2).1
    = Some (RoomState ps cs ss se)
    ∧ code cs = Scalar (JStr "let x = 2;")
    ∧ language cs = Scalar (JStr "javascript").
Proof.
  intros d d' u1 u2 st.
  eapply (C4_snapshot_shows_last_code_update st (JStr "R") _ [("a", u1)] "a" u2 "b" d' 2);
    reflexivity.
Defined.

(** C5 at work on the code: the messages a join emits, the [room-state]
    snapshot among them, are the same whether or not a stroke was drawn
    before; in a room where one stroke is on the whiteboard the snapshot
    of the next joiner lists participants, code state, screen shares and
    settings, and no stroke. *)
Theorem C5_snapshot_omits_whiteboard :
  (∀ st drawer sid stroke sock d now,
     snapshot_of
       (join_live_interview (whiteboard_draw st drawer sid stroke).2 sock d now).1
     = snapshot_of (join_live_interview st sock d now).1)
  ∧ (let d := JoinData (JStr "R") (Scalar (JStr "u1")) (Scalar (JStr "Ada"))
                       (Scalar (JStr "candidate")) None in
     let d' := JoinData (JStr "R") (Scalar (JStr "u2")) (Scalar (JStr "Bob"))
                        (Scalar (JStr "recruiter")) None in
     let stroke := Object [("x", Scalar (JNum 10)); ("y", Scalar (JNum 20))] in
     let st1 := (join_live_interview initial_state "a" d 1).2 in
     let st2 := (whiteboard_draw st1 "a" (JStr "R") stroke).2 in
     whiteboard <$> map_get (JStr "R") (liveInterviewRooms st2) = Some [stroke]
     ∧ snapshot_of (join_live_interview st2 "b" d' 2).1
       = Some (RoomState
                 [ Participant (Scalar (JStr "u1")) "a" (Scalar (JStr "Ada"))
                               (Scalar (JStr "candidate")) default_cameras true true 1;
                   Participant (Scalar (JStr "u2")) "b" (Scalar (JStr "Bob"))
                               (Scalar (JStr "recruiter")) default_cameras true true 2 ]
                 (CodeState (Scalar (JStr "")) (Scalar (JStr "javascript")) ∅)
                 [] (Settings true true true))).
Proof.
  split.
  - intros. by rewrite join_after_draw.
  - split; reflexivity.
Qed.

End LiveRoomsFacts.

(** ** The status of a live interview session *)

Module LiveSessionsFacts.
Import LiveSessions.

Lemma has_role_snoc r ps p :
  has_role r (ps ++ [p]) = has_role r ps || is_string r (p_role p).
Proof. unfold has_role. rewrite existsb_app. simpl. by rewrite orb_false_r. Qed.

(** A join that passes the two checks stores [join_session]. *)
Lemma join_accepted st sid s name role uuid now :
  st !! sid = Some s →
  (join st sid name role (JStr (accessCode s)) uuid now).2 !! sid
  = Some (join_session s (Participant uuid name role now None None true true) now).
Proof.
  intros Hs. unfold join. rewrite Hs. cbn [is_string].
  rewrite bool_decide_eq_true_2 by done. cbn [negb snd]. apply lookup_insert_eq.
Qed.

(** A session in progress stays so under any join, with its start
    time. *)
Lemma join_session_in_progress s p now :
  status_of s = InProgress →
  status_of (join_session s p now) = InProgress
  ∧ startedAt (join_session s p now) = startedAt s.
Proof.
  intros Hs. unfold join_session. cbn [status_of startedAt]. rewrite Hs.
  rewrite decide_False by done. rewrite bool_decide_eq_true_2 by done.
  cbn [negb]. by rewrite andb_false_r.
Qed.

(** The two outcomes of a join into a session that is not in progress:
    it starts the interview when both roles are present, and otherwise
    leaves a scheduled session waiting. *)
Lemma join_session_starts s p now :
  has_role "recruiter" (participants s ++ [p]) = true →
  has_role "candidate" (participants s ++ [p]) = true →
  status_of s ≠ InProgress →
  status_of (join_session s p now) = InProgress
  ∧ startedAt (join_session s p now) = Some now.
Proof.
  intros Hr Hc Hs. unfold join_session. cbn [status_of startedAt].
  rewrite Hr, Hc. cbn [andb].
  assert ((if decide (status_of s = Scheduled) then Waiting else status_of s)
          ≠ InProgress) as Hne by (by case_decide).
  by rewrite (bool_decide_eq_false_2 _ Hne).
Qed.

Lemma join_session_waits s p now :
  has_role "recruiter" (participants s ++ [p])
  && has_role "candidate" (participants s ++ [p]) = false →
  status_of s = Scheduled →
  status_of (join_session s p now) = Waiting
  ∧ startedAt (join_session s p now) = startedAt s.
Proof.
  intros Hroles Hs. unfold join_session. cbn [status_of startedAt].
  by rewrite Hroles, Hs.
Qed.

Lemma join_session_participants s p now :
  participants (join_session s p now) = participants s ++ [p].
Proof. done. Qed.

(** *** The claims on sessions *)

(** C6, as the code has it: on a session as [POST /create] leaves it, a
    join with role [recruiter] moves the status from scheduled to
    waiting, a join with role [candidate] after it moves it to
    in-progress and stamps the start time, and a third join with role
    [recruiter] leaves the status and the start time alone; in general a
    join into a session in progress changes neither. *)
Theorem C6_recruiter_then_candidate_starts_once :
  (∀ st sid s n1 n2 n3 u1 u2 u3 t1 t2 t3,
     st !! sid = Some s →
     status_of s = Scheduled →
     participants s = [] →
     let code := JStr (accessCode s) in
     let st1 := (join st sid n1 (JStr "recruiter") code u1 t1).2 in
     let st2 := (join st1 sid n2 (JStr "candidate") code u2 t2).2 in
     let st3 := (join st2 sid n3 (JStr "recruiter") code u3 t3).2 in
     status_of <$> st1 !! sid = Some Waiting
     ∧ startedAt <$> st1 !! sid = Some (startedAt s)
     ∧ status_of <$> st2 !! sid = Some InProgress
     ∧ startedAt <$> st2 !! sid = Some (Some t2)
     ∧ status_of <$> st3 !! sid = Some InProgress
     ∧ startedAt <$> st3 !! sid = Some (Some t2))
  ∧ (∀ s p now,
       status_of s = InProgress →
       status_of (join_session s p now) = InProgress
       ∧ startedAt (join_session s p now) = startedAt s).
Proof.
  split; [|apply join_session_in_progress].
  intros st sid s n1 n2 n3 u1 u2 u3 t1 t2 t3 Hs Hstatus Hnobody code st1 st2 st3.
  pose proof (join_accepted st sid s n1 (JStr "recruiter") u1 t1 Hs) as H1.
  fold code in H1. fold st1 in H1.
  set (s1 := join_session s _ t1) in H1.
  assert (accessCode s1 = accessCode s) as Hcode1 by done.
  pose proof (join_accepted st1 sid s1 n2 (JStr "candidate") u2 t2 H1) as H2.
  rewrite Hcode1 in H2. fold code in H2. fold st2 in H2.
  set (s2 := join_session s1 _ t2) in H2.
  assert (accessCode s2 = accessCode s) as Hcode2 by done.
  pose proof (join_accepted st2 sid s2 n3 (JStr "recruiter") u3 t3 H2) as H3.
  rewrite Hcode2 in H3. fold code in H3. fold st3 in H3.
  set (s3 := join_session s2 _ t3) in H3.
  rewrite H1, H2, H3. cbn [fmap option_fmap option_map].
  assert (status_of s1 = Waiting ∧ startedAt s1 = startedAt s) as [Hst1 Hstart1].
  { apply join_session_waits; [by rewrite Hnobody | done]. }
  assert (status_of s2 = InProgress ∧ startedAt s2 = Some t2) as [Hst2 Hstart2].
  { apply join_session_starts; [| | by rewrite Hst1];
      subst s1; rewrite join_session_participants, Hnobody; reflexivity. }
  destruct (join_session_in_progress s2
              (Participant u3 n3 (JStr "recruiter") t3 None None true true) t3 Hst2)
    as [Hst3 Hstart3].
  fold s3 in Hst3, Hstart3.
  by rewrite Hst1, Hstart1, Hst2, Hst3, Hstart3, Hstart2.
Qed.

Lemma C6_recruiter_then_candidate_starts_once_witness :
  let req := CreateRequest (Scalar (JStr "r-7")) (Scalar (JStr "Rita"))
                           (Scalar (JStr "Acme")) (Scalar (JStr "Engineer"))
                           (Scalar (JStr "cy@example.org")) (Scalar (JStr "Cy"))
                           JUndefined None None in
  let st := (create ∅ req "session-1" "ABC234" 0).2 in
  let code := JStr "ABC234" in
  let st1 := (join st "session-1" (Scalar (JStr "Rita")) (JStr "recruiter") code "p1" 1).2 in
  let st2 := (join st1 "session-1" (Scalar (JStr "Cy")) (JStr "candidate") code "p2" 2).2 in
  let st3 := (join st2 "session-1" (Scalar (JStr "Ron")) (JStr "recruiter") code "p3" 3).2 in
  status_of <$> st1 !! "session-1" = Some Waiting
  ∧ startedAt <$> st1 !! "session-1" = Some None
  ∧ status_of <$> st2 !! "session-1" = Some InProgress
  ∧ startedAt <$> st2 !! "session-1" = Some (Some 2)
  ∧ status_of <$> st3 !! "session-1" = Some InProgress
  ∧ startedAt <$> st3 !! "session-1" = Some (Some 2).
Proof.
  intros req st code st1 st2 st3.
  destruct C6_recruiter_then_candidate_starts_once as [scenario _].
  apply (scenario st "session-1"
           (Session "session-1" "ABC234"
              (Details (Scalar (JStr "r-7")) (Scalar (JStr "Rita")) (Scalar (JStr "Acme"))
                       (Scalar (JStr "Engineer")) (Scalar (JStr "cy@example.org"))
                       (Scalar (JStr "Cy")) (inr 0) (Scalar (JNum 60)) (Array []))
              Scheduled [] 0 None None false None [] [] [] None)
           (Scalar (JStr "Rita")) (Scalar (JStr "Cy")) (Scalar (JStr "Ron"))
           "p1" "p2" "p3" 1 2 3);
    reflexivity.
Defined.

(** C6 as stated fails: with the roles [interviewer] and [candidate] the
    session is left waiting and has no start time. *)
Lemma C6_counterexample :
  let req := CreateRequest (Scalar (JStr "r-7")) (Scalar (JStr "Rita"))
                           (Scalar (JStr "Acme")) (Scalar (JStr "Engineer"))
                           (Scalar (JStr "cy@example.org")) (Scalar (JStr "Cy"))
                           JUndefined None None in
  let st := (create ∅ req "session-1" "ABC234" 0).2 in
  let code := JStr "ABC234" in
  let st1 := (join st "session-1" (Scalar (JStr "Rita")) (JStr "interviewer") code "p1" 1).2 in
  let st2 := (join st1 "session-1" (Scalar (JStr "Cy")) (JStr "candidate") code "p2" 2).2 in
  status_of <$> st !! "session-1" = Some Scheduled
  ∧ status_of <$> st1 !! "session-1" = Some Waiting
  ∧ status_of <$> st2 !! "session-1" = Some Waiting
  ∧ status_of <$> st2 !! "session-1" ≠ Some InProgress
  ∧ startedAt <$> st2 !! "session-1" = Some None.
Proof. by repeat split. Qed.

(** An end, snapshot or proctoring-event call on a completed session. *)
Lemma handle_completed st sid s r :
  st !! sid = Some s →
  status_of s = Completed →
  is_join r = false →
  ∃ s', handle sid st r !! sid = Some s'
        ∧ status_of s' = Completed
        ∧ participants s' = participants s.
Proof.
  intros Hs Hdone Hr. destruct r as [? ? ? ? ?|fb notes now|c l ts now|e now];
    [done| | |]; cbn [handle].
  - unfold finish. rewrite Hs. cbn [snd]. rewrite lookup_insert_eq. by eexists.
  - unfold save_snapshot. rewrite Hs. cbn [snd]. rewrite lookup_insert_eq. by eexists.
  - unfold save_event. rewrite Hs. cbn [snd]. rewrite lookup_insert_eq. by eexists.
Qed.

(** C7, as the code has it: on a completed session any sequence of end,
    snapshot and proctoring-event calls keeps the status completed and
    the participant list as it is; the record is not closed, though: a
    snapshot call appends to the code snapshots, a proctoring-event call
    appends to the log, and a join with the access code appends a
    participant. *)
Theorem C7_completed_kept_by_end_snapshot_event :
  (∀ reqs st sid s,
     st !! sid = Some s →
     status_of s = Completed →
     Forall (λ r, is_join r = false) reqs →
     ∃ s', foldl (handle sid) st reqs !! sid = Some s'
           ∧ status_of s' = Completed
           ∧ participants s' = participants s)
  ∧ (∀ st sid s c l ts now,
       st !! sid = Some s →
       status_of s = Completed →
       ∃ s' snap,
         (save_snapshot st sid c l ts now).2 !! sid = Some s'
         ∧ codeSnapshots s' = codeSnapshots s ++ [snap])
  ∧ (∀ st sid s e now,
       st !! sid = Some s →
       status_of s = Completed →
       ∃ s',
         (save_event st sid e now).2 !! sid = Some s'
         ∧ proctoringEvents s' = proctoringEvents s ++ [(e, now)])
  ∧ (∀ st sid s name role uuid now,
       st !! sid = Some s →
       status_of s = Completed →
       ∃ s' p,
         (join st sid name role (JStr (accessCode s)) uuid now).2 !! sid = Some s'
         ∧ participants s' = participants s ++ [p]).
Proof.
  repeat split.
  - induction reqs as [|r reqs IH]; intros st sid s Hs Hdone Hreqs.
    + by exists s.
    + apply Forall_cons in Hreqs as [Hr Hreqs]. cbn [foldl].
      destruct (handle_completed st sid s r Hs Hdone Hr) as (s1 & Hs1 & Hdone1 & Hps1).
      destruct (IH (handle sid st r) sid s1 Hs1 Hdone1 Hreqs) as (s' & Hs' & Hdone' & Hps').
      exists s'. by rewrite Hps', Hps1.
  - intros st sid s c l ts now Hs _. unfold save_snapshot. rewrite Hs. cbn [snd].
    rewrite lookup_insert_eq. by do 2 eexists.
  - intros st sid s e now Hs _. unfold save_event. rewrite Hs. cbn [snd].
    rewrite lookup_insert_eq. by eexists.
  - intros st sid s name role uuid now Hs _. rewrite (join_accepted _ _ _ _ _ _ _ Hs).
    by do 2 eexists.
Qed.

Lemma C7_completed_kept_by_end_snapshot_event_witness :
  let req := CreateRequest (Scalar (JStr "r-7")) (Scalar (JStr "Rita"))
                           (Scalar (JStr "Acme")) (Scalar (JStr "Engineer"))
                           (Scalar (JStr "cy@example.org")) (Scalar (JStr "Cy"))
                           JUndefined None None in
  let st := (finish (create ∅ req "session-1" "ABC234" 0).2 "session-1"
                    (Scalar (JStr "good")) (Scalar JUndefined) 9).2 in
  let reqs := [ ReqSnapshot (Scalar (JStr "x = 1")) (Scalar (JStr "python")) JUndefined 10;
                ReqEvent (Scalar (JStr "tab-switch")) 12;
                ReqEnd (Scalar (JStr "fine")) (Scalar JUndefined) 13 ] in
  ∃ s', foldl (handle "session-1") st reqs !! "session-1" = Some s'
        ∧ status_of s' = Completed
        ∧ participants s' = [].
Proof.
  intros req st reqs.
  destruct C7_completed_kept_by_end_snapshot_event as [kept _].
  apply (kept reqs st "session-1"
           (Session "session-1" "ABC234"
              (Details (Scalar (JStr "r-7")) (Scalar (JStr "Rita"))
                       (Scalar (JStr "Acme")) (Scalar (JStr "Engineer"))
                       (Scalar (JStr "cy@example.org")) (Scalar (JStr "Cy"))
                       (inr 0) (Scalar (JNum 60)) (Array []))
              Completed [] 0 None (Some 9) false None [] [] []
              (Some (Scalar (JStr "good"), Scalar JUndefined))));
    [reflexivity | reflexivity | repeat constructor].
Defined.

(** C7 as stated fails: after [POST /end] a snapshot call grows the code
    snapshots of the completed session, and a join into it, with a
    recruiter and a candidate on the list, sets its status back to
    in-progress and stamps a new start time. *)
Lemma C7_counterexample :
  let req := CreateRequest (Scalar (JStr "r-7")) (Scalar (JStr "Rita"))
                           (Scalar (JStr "Acme")) (Scalar (JStr "Engineer"))
                           (Scalar (JStr "cy@example.org")) (Scalar (JStr "Cy"))
                           JUndefined None None in
  let code := JStr "ABC234" in
  let st0 := (create ∅ req "session-1" "ABC234" 0).2 in
  let st1 := (join st0 "session-1" (Scalar (JStr "Rita")) (JStr "recruiter") code "p1" 1).2 in
  let st2 := (join st1 "session-1" (Scalar (JStr "Cy")) (JStr "candidate") code "p2" 2).2 in
  let done := (finish st2 "session-1" (Scalar (JStr "good")) (Scalar JUndefined) 9).2 in
  let after_snapshot :=
    (save_snapshot done "session-1" (Scalar (JStr "x = 1")) (Scalar (JStr "python"))
                   JUndefined 10).2 in
  let after_join :=
    (join done "session-1" (Scalar (JStr "Ron")) (JStr "proctor") code "p3" 11).2 in
  status_of <$> done !! "session-1" = Some Completed
  ∧ codeSnapshots <$> done !! "session-1" = Some []
  ∧ codeSnapshots <$> after_snapshot !! "session-1"
    = Some [Snapshot (Scalar (JStr "x = 1")) (Scalar (JStr "python")) (inr 10)]
  ∧ status_of <$> after_join !! "session-1" = Some InProgress
  ∧ startedAt <$> after_join !! "session-1" = Some (Some 11)
  ∧ length <$> (participants <$> after_join !! "session-1") = Some 3%nat.
Proof. by repeat split. Qed.

End LiveSessionsFacts.

(** ** Runs of proctoring requests and the dashboard listing *)

Module ProctoringDashboardFacts.
Import Proctoring ProctoringDashboard.

(** Every request leaves a log as it was or puts one event at its end. *)
Lemma handle_log st r id :
  events_of (handle st r) id = events_of st id
  ∨ ∃ e, events_of (handle st r) id = events_of st id ++ [e].
Proof.
  destruct r as [r now|r now answer|r now|sid now|sid|sid|sid|sid|elapsed];
    cbn [handle].
  - rewrite ProctoringFacts.events_of_post_event. case_decide; eauto.
  - apply ProctoringFacts.events_of_verify_identity.
  - by left.
  - left. unfold delete_session. by destruct (activeSessions st !! JStr sid).
  - by left.
  - left. by rewrite ProctoringFacts.get_score_eq.
  - by left.
  - left. unfold get_dashboard. by destruct (activeSessions st !! JStr sid).
  - by left.
Qed.

Lemma run_log reqs st id :
  events_of st id `prefix_of` events_of (run reqs st) id.
Proof.
  revert st. induction reqs as [|r reqs IH]; intros st; [done|].
  cbn [run foldl]. unfold run in IH. etrans; [|apply IH].
  destruct (handle_log st r id) as [->|[e ->]]; [done|by apply prefix_app_r].
Qed.

(** X1: whatever requests the router serves, the log of an interview only
    grows at its end; so its score never rises and its event total never
    falls. *)
Theorem X1_log_append_only reqs st :
  (∀ id, events_of st id `prefix_of` events_of (run reqs st) id)
  ∧ (∀ id, ∃ s n b s' n' b',
       reported (get_score st id).1 = Some (s, n, b)
       ∧ reported (get_score (run reqs st) id).1 = Some (s', n', b')
       ∧ s' ≤ s
       ∧ (n ≤ n')%nat).
Proof.
  split; [intros id; apply run_log|].
  intros id. rewrite !ProctoringFacts.get_score_eq. do 6 eexists.
  split; [done|split; [done|]].
  destruct (run_log reqs st (JStr id)) as [more ->]. split.
  - apply ProctoringFacts.table_score_app.
  - rewrite length_app. lia.
Qed.

(** The log after a series of [POST /event], for any interview. *)
Lemma events_of_record_all_for rs st id :
  events_of (record_all st rs) id
  = events_of st id ++ (stored_event <$> for_interview id rs).
Proof.
  revert st. induction rs as [|r rs IH]; intros st.
  - by rewrite app_nil_r.
  - cbn [record_all foldl]. unfold record_all in IH. rewrite IH.
    rewrite ProctoringFacts.events_of_post_event. unfold for_interview.
    rewrite filter_cons. case_decide; [|done].
    by rewrite fmap_cons, <- app_assoc.
Qed.

Lemma session_after_post_event st r now k :
  activeSessions (post_event st r now).2 !! k
  = if decide (er_interviewId r = k)
    then bump_session now <$> activeSessions st !! k
    else activeSessions st !! k.
Proof.
  cbn. case_decide as Hk.
  - subst k. destruct (activeSessions st !! er_interviewId r) as [s|] eqn:Hs.
    + by rewrite lookup_insert_eq.
    + by rewrite Hs.
  - destruct (activeSessions st !! er_interviewId r) as [s|] eqn:Hs; [|done].
    by rewrite lookup_insert_ne.
Qed.

(** X2: on a registered session a series of [POST /event] adds to
    [eventCount] the number of events of the series that are for it and
    moves [lastActivity] to the time of the last of them; it changes
    neither the status (an ended session stays ended) nor the start and
    end times. *)
Theorem X2_event_count rs st id s :
  activeSessions st !! id = Some s →
  ∃ s',
    activeSessions (record_all st rs) !! id = Some s'
    ∧ eventCount s' = eventCount s + Z.of_nat (length (for_interview id rs))
    ∧ lastActivity s' = default (lastActivity s) (last (snd <$> for_interview id rs))
    ∧ status s' = status s
    ∧ startTime s' = startTime s
    ∧ endTime s' = endTime s
    ∧ interviewId s' = interviewId s.
Proof.
  revert st s. induction rs as [|r rs IH]; intros st s Hs.
  - exists s. cbn. repeat split; [done|lia].
  - cbn [record_all foldl]. unfold record_all in IH.
    unfold for_interview. rewrite filter_cons.
    fold (for_interview id rs).
    destruct (decide (er_interviewId r.1 = id)) as [Hid|Hid].
    + destruct (IH (post_event st r.1 r.2).2 (bump_session r.2 s))
        as (s' & Hs' & Hcount & Hlast & Hstatus & Hstart & Hend & Hident).
      { by rewrite session_after_post_event, decide_True, Hs. }
      exists s'. rewrite Hs', Hcount, Hlast, Hstatus, Hstart, Hend, Hident.
      repeat split.
      * cbn [length bump_session eventCount].
        destruct (Z.eqb_spec (eventCount s) 0); lia.
      * rewrite fmap_cons. cbn [snd bump_session lastActivity].
        rewrite last_cons. by destruct (last (snd <$> for_interview id rs)).
    + destruct (IH (post_event st r.1 r.2).2 s)
        as (s' & Hs' & Hcount & Hlast & Hstatus & Hstart & Hend & Hident).
      { by rewrite session_after_post_event, decide_False. }
      by exists s'.
Qed.

Lemma X2_event_count_witness :
  let st :=
    (post_session empty_store
       (SessionRequest (JStr "S1") (Scalar (JStr "Cy")) (Scalar (JStr "cy@example.org"))
                       (Scalar (JStr "Rita")) JUndefined) 5).2 in
  let rs :=
    [ (EventRequest (JStr "S1") (JStr "tab-switch") (JStr "low") (Scalar JUndefined), 6);
      (EventRequest (JStr "S2") (JStr "copy-paste") (JStr "high") (Scalar JUndefined), 7);
      (EventRequest (JStr "S1") (JStr "copy-paste") (JStr "high") (Scalar JUndefined), 8) ] in
  ∃ s',
    activeSessions (record_all st rs) !! JStr "S1" = Some s'
    ∧ eventCount s' = 0 + Z.of_nat (length (for_interview (JStr "S1") rs))
    ∧ lastActivity s' = default 5 (last (snd <$> for_interview (JStr "S1") rs))
    ∧ status s' = Active
    ∧ startTime s' = StartClock 5
    ∧ endTime s' = None
    ∧ interviewId s' = JStr "S1".
Proof.
  intros st rs.
  apply (X2_event_count rs st (JStr "S1")
           (Session (JStr "S1") (Scalar (JStr "Cy")) (Scalar (JStr "cy@example.org"))
                    (Scalar (JStr "Rita")) (StartClock 5) 5 Active 0 None)).
  reflexivity.
Defined.

(** X3: [POST /event] never registers a session.  Events sent for an
    interview that [POST /session] was not called for are stored and
    served by the event list, while [GET /dashboard/<id>] keeps
    answering 404 for it; the ids [sessions], [score] and
    [identity-checks], which never reach the detail handler, are set
    aside. *)
Theorem X3_events_do_not_register decode elapsed rs st a seg id :
  matches "dashboard" a = true →
  shadowed seg = false →
  seg ≠ "" →
  decode seg = Some id →
  activeSessions st !! JStr id = None →
  route_get decode elapsed (record_all st rs) [a; seg]
  = (Served SessionNotFound, record_all st rs)
  ∧ route_get decode elapsed (record_all st rs) [seg]
    = (Served (EventLog (events_of st (JStr id)
                         ++ (stored_event <$> for_interview (JStr id) rs))),
       record_all st rs).
Proof.
  intros Hdashboard Hfree Hseg Hid Hnone. split.
  - rewrite ProctoringFacts.route_dashboard_detail by done.
    unfold with_param, get_dashboard. rewrite bool_decide_eq_false_2, Hid by done.
    assert (activeSessions (record_all st rs) !! JStr id = None) as ->; [|done].
    clear Hid. revert st Hnone. induction rs as [|r rs IH]; intros st Hnone; [done|].
    cbn [record_all foldl]. apply IH.
    rewrite session_after_post_event. case_decide; by rewrite Hnone.
  - rewrite ProctoringFacts.route_events. unfold with_param, get_events.
    by rewrite bool_decide_eq_false_2, Hid, events_of_record_all_for.
Qed.

Lemma X3_events_do_not_register_witness :
  let rs :=
    [ (EventRequest (JStr "S9") (JStr "tab-switch") (JStr "low") (Scalar JUndefined), 6) ] in
  route_get Some (λ _, JNum 0) (record_all empty_store rs) ["dashboard"; "S9"]
  = (Served SessionNotFound, record_all empty_store rs)
  ∧ route_get Some (λ _, JNum 0) (record_all empty_store rs) ["S9"]
    = (Served (EventLog (events_of empty_store (JStr "S9")
                         ++ (stored_event <$> for_interview (JStr "S9") rs))),
       record_all empty_store rs).
Proof.
  intros rs.
  apply (X3_events_do_not_register Some (λ _, JNum 0) rs empty_store "dashboard" "S9" "S9");
    first [reflexivity | discriminate].
Defined.

(** The entries of the dashboard listing. *)
Lemma listing_entries st elapsed sm :
  sm ∈ (dashboard_sessions st elapsed).1
  ↔ ∃ k s, activeSessions st !! k = Some s
           ∧ status s = Active
           ∧ sm = summarize st elapsed s.
Proof.
  cbn [dashboard_sessions fst]. split.
  - intros Hin. apply list_elem_of_fmap_1 in Hin as (s & -> & Hs).
    apply list_elem_of_filter in Hs as [Hactive Hs].
    apply list_elem_of_fmap_1 in Hs as ([k s'] & -> & Hks).
    apply elem_of_map_to_list in Hks. exists k, s'. repeat split; [done|].
    unfold is_active in Hactive. cbn [snd] in *. by destruct (status s').
  - intros (k & s & Hs & Hactive & ->). apply list_elem_of_fmap_2.
    apply list_elem_of_filter. split; [unfold is_active; by rewrite Hactive|].
    apply (list_elem_of_fmap_2' snd _ (k, s)); [|done].
    by apply elem_of_map_to_list.
Qed.

Lemma sessions_after_verify_identity st r now answer :
  activeSessions (verify_identity st r now answer).2 = activeSessions st.
Proof.
  unfold verify_identity.
  destruct (negb (truthy (ir_userId r)) || negb (truthy (ir_image r))); [done|].
  destruct answer as [| |res]; [done|done|].
  destruct (truthy (vr_verified res)); [done|].
  by destruct (optional_toFixed3 (vr_score res)).
Qed.

(** What one request makes of the session under a key: nothing, the
    session with one more event, the session ended, or a session
    registered anew. *)
Lemma session_after_handle st r k :
  activeSessions (handle st r) !! k = activeSessions st !! k
  ∨ (∃ s now, activeSessions st !! k = Some s
              ∧ activeSessions (handle st r) !! k = Some (bump_session now s))
  ∨ (∃ s now, activeSessions st !! k = Some s
              ∧ activeSessions (handle st r) !! k = Some (end_session s now))
  ∨ (registers k r = true
     ∧ ∃ s, activeSessions (handle st r) !! k = Some s
            ∧ interviewId s = k ∧ status s = Active).
Proof.
  destruct r as [r now|r now answer|r now|sid now|sid|sid|sid|sid|elapsed];
    cbn [handle].
  - rewrite session_after_post_event. case_decide; [|by left].
    destruct (activeSessions st !! k) as [s|]; [|by left].
    right. left. by exists s, now.
  - left. by rewrite sessions_after_verify_identity.
  - cbn. destruct (decide (sr_interviewId r = k)) as [<-|Hk].
    + do 3 right. rewrite bool_decide_eq_true_2 by done. split; [done|].
      rewrite lookup_insert_eq. by eexists.
    + left. by rewrite lookup_insert_ne.
  - unfold delete_session.
    destruct (activeSessions st !! JStr sid) as [s|] eqn:Hs; [|by left].
    cbn. destruct (decide (JStr sid = k)) as [<-|Hk].
    + right. right. left. exists s, now. by rewrite lookup_insert_eq.
    + left. by rewrite lookup_insert_ne.
  - by left.
  - left. by rewrite ProctoringFacts.get_score_eq.
  - by left.
  - left. unfold get_dashboard. by destruct (activeSessions st !! JStr sid).
  - by left.
Qed.

(** Every session is filed under its own [interviewId]. *)
Lemma run_keyed reqs st :
  (∀ k s, activeSessions st !! k = Some s → interviewId s = k) →
  ∀ k s, activeSessions (run reqs st) !! k = Some s → interviewId s = k.
Proof.
  revert st. induction reqs as [|r reqs IH]; intros st Hst; [done|].
  cbn [run foldl]. apply IH. intros k s.
  destruct (session_after_handle st r k)
    as [->|[(s0 & now & Hs0 & ->)|[(s0 & now & Hs0 & ->)|(_ & s1 & -> & Hk & _)]]].
  - apply Hst.
  - intros [= <-]. cbn. by apply Hst.
  - intros [= <-]. cbn. by apply Hst.
  - by intros [= <-].
Qed.

(** A session that is not active stays so until it is registered anew. *)
Lemma run_keeps_ended reqs st k :
  Forall (λ r, registers k r = false) reqs →
  status <$> activeSessions st !! k ≠ Some Active →
  status <$> activeSessions (run reqs st) !! k ≠ Some Active.
Proof.
  revert st. induction reqs as [|r reqs IH]; intros st Hreqs Hst; [done|].
  apply Forall_cons in Hreqs as [Hr Hreqs]. cbn [run foldl]. apply IH; [done|].
  destruct (session_after_handle st r k)
    as [->|[(s0 & now & Hs0 & ->)|[(s0 & now & Hs0 & ->)|(Hreg & _)]]].
  - done.
  - by rewrite Hs0 in Hst.
  - done.
  - congruence.
Qed.

(** X4: the dashboard listing over the life of a session.  Once
    [DELETE /session/<id>] was served, no entry of the listing is for
    that interview, whatever requests follow, until a [POST /session]
    registers it anew.  A [POST /session] puts the interview on the
    listing, as an active session with no events counted and no end
    time, also where it had been ended before.  At any time the entries
    are the summaries of the sessions whose status is active. *)
Theorem X4_listing_over_session_life before later id now elapsed :
  (Forall (λ r, registers (JStr id) r = false) later →
   Forall (λ sm, interviewId (of_session sm) ≠ JStr id)
          (dashboard_sessions
             (run later (delete_session (run before empty_store) id now).2) elapsed).1)
  ∧ (∀ st r registered,
       ∃ sm, sm ∈ (dashboard_sessions (post_session st r registered).2 elapsed).1
             ∧ interviewId (of_session sm) = sr_interviewId r
             ∧ status (of_session sm) = Active
             ∧ eventCount (of_session sm) = 0
             ∧ lastActivity (of_session sm) = registered
             ∧ endTime (of_session sm) = None)
  ∧ (∀ st sm,
       sm ∈ (dashboard_sessions st elapsed).1
       ↔ ∃ k s, activeSessions st !! k = Some s
                ∧ status s = Active
                ∧ sm = summarize st elapsed s).
Proof.
  split; [|split].
  - intros Hlater. apply Forall_forall. intros sm Hsm Hid.
    apply listing_entries in Hsm as (k & s & Hs & Hactive & ->).
    cbn [summarize of_session] in Hid.
    assert (k = JStr id) as ->.
    { rewrite <- Hid. symmetry. revert Hs. apply (run_keyed later).
      apply (run_keyed [DeleteSession id now] (run before empty_store)).
      apply (run_keyed before empty_store).
      intros k0 s0 Hnone. cbn in Hnone. by rewrite lookup_empty in Hnone. }
    eapply (run_keeps_ended later); [done| |by rewrite Hs, <- Hactive].
    unfold delete_session.
    destruct (activeSessions (run before empty_store) !! JStr id) as [s0|] eqn:Hs0.
    + cbn. by rewrite lookup_insert_eq.
    + cbn [snd]. by rewrite Hs0.
  - intros st r registered. eexists. split.
    + apply listing_entries. exists (sr_interviewId r). eexists.
      split; [cbn; apply lookup_insert_eq|]. by split.
    + done.
  - intros st sm. apply listing_entries.
Qed.

Lemma X4_listing_over_session_life_witness :
  let register id :=
    PostSession (SessionRequest (JStr id) (Scalar (JStr "Cy")) (Scalar JUndefined)
                                (Scalar (JStr "Rita")) JUndefined) 1 in
  let later :=
    [ PostEvent (EventRequest (JStr "S1") (JStr "tab-switch") (JStr "low")
                              (Scalar JUndefined)) 9;
      GetDashboard "S1" ] in
  Forall (λ sm, interviewId (of_session sm) ≠ JStr "S1")
         (dashboard_sessions
            (run later (delete_session (run [register "S1"; register "S2"] empty_store)
                                       "S1" 8).2)
            (λ _, JNum 0)).1.
Proof.
  intros register later.
  apply (X4_listing_over_session_life [register "S1"; register "S2"] later "S1" 8
                                      (λ _, JNum 0)).
  repeat constructor.
Defined.

Lemma dashboard_score_from acc events :
  foldl (λ score e, deduct score (severity e)) acc events
  = acc - total_deduction events.
Proof.
  revert acc. induction events as [|e events IH]; intros acc; simpl; [lia|].
  rewrite IH, ProctoringFacts.deduct_table. unfold deduction. lia.
Qed.

Lemma count_severity_one lit e :
  count_severity lit [e] = if is_string lit (severity e) then 1%nat else 0%nat.
Proof.
  unfold count_severity. rewrite filter_cons, filter_nil.
  destruct (is_string lit (severity e)); by case_decide.
Qed.

(** The points of an event, by the bucket that counts it. *)
Lemma deduction_buckets e :
  deduction e
  = 2 * Z.of_nat (count_severity "low" [e])
    + 5 * Z.of_nat (count_severity "medium" [e])
    + 10 * Z.of_nat (count_severity "high" [e])
    + 20 * Z.of_nat (count_severity "critical" [e])
  ∧ (count_severity "low" [e] + count_severity "medium" [e]
     + count_severity "high" [e] + count_severity "critical" [e] ≤ 1)%nat.
Proof.
  rewrite !count_severity_one. unfold deduction.
  destruct (severity e) as [| | b | n | s]; cbn [level_of is_string from_option];
    try (split; lia).
  destruct (decide (s = "low")) as [->|Hlow];
    [split; [reflexivity | apply Nat.leb_le; reflexivity]|].
  rewrite (bool_decide_eq_false_2 _ Hlow).
  destruct (decide (s = "medium")) as [->|Hmedium];
    [split; [reflexivity | apply Nat.leb_le; reflexivity]|].
  rewrite (bool_decide_eq_false_2 _ Hmedium).
  destruct (decide (s = "high")) as [->|Hhigh];
    [split; [reflexivity | apply Nat.leb_le; reflexivity]|].
  rewrite (bool_decide_eq_false_2 _ Hhigh).
  destruct (decide (s = "critical")) as [->|Hcritical];
    [split; [reflexivity | apply Nat.leb_le; reflexivity]|].
  rewrite (bool_decide_eq_false_2 _ Hcritical). cbn. split; lia.
Qed.

Lemma count_severity_cons lit e events :
  count_severity lit (e :: events)
  = (count_severity lit [e] + count_severity lit events)%nat.
Proof.
  unfold count_severity. rewrite !filter_cons, filter_nil.
  by case_decide.
Qed.

Lemma total_deduction_buckets events :
  total_deduction events
  = 2 * Z.of_nat (count_severity "low" events)
    + 5 * Z.of_nat (count_severity "medium" events)
    + 10 * Z.of_nat (count_severity "high" events)
    + 20 * Z.of_nat (count_severity "critical" events)
  ∧ (count_severity "low" events + count_severity "medium" events
     + count_severity "high" events + count_severity "critical" events
     ≤ length events)%nat.
Proof.
  induction events as [|e events [IHsum IHlen]]; [done|].
  cbn [total_deduction foldr length]. fold (total_deduction events).
  rewrite !(count_severity_cons _ e events), IHsum.
  destruct (deduction_buckets e) as [-> Hone]. split; lia.
Qed.

(** X5: in every entry of the dashboard listing the integrity score is
    max(0, 100 - 2 low - 5 medium - 10 high - 20 critical) of the
    entry's own violation counts, the counts add up to at most the event
    total (events of another severity are in no bucket), the recent
    events are the last min(5, total) events of the log, and score and
    total are those the score route reports for the same interview. *)
Theorem X5_listing_entry st elapsed s :
  let sm := summarize st elapsed s in
  let v := violations_of sm in
  integrityScore sm
  = Z.max 0 (100 - 2 * Z.of_nat (low v) - 5 * Z.of_nat (medium v)
             - 10 * Z.of_nat (high v) - 20 * Z.of_nat (critical v))
  ∧ (low v + medium v + high v + critical v ≤ totalEvents sm)%nat
  ∧ recentEvents sm `suffix_of` events_of st (interviewId s)
  ∧ length (recentEvents sm) = (totalEvents sm `min` 5)%nat
  ∧ (∀ id, interviewId s = JStr id →
       ∃ b, (get_score st id).1 = ScoreReport (integrityScore sm) (totalEvents sm) b).
Proof.
  intros sm v. subst sm v. cbn [summarize integrityScore violations_of totalEvents
                                 recentEvents low medium high critical].
  unfold dashboard_score. rewrite dashboard_score_from.
  destruct (total_deduction_buckets (events_of st (interviewId s))) as [Hsum Hlen].
  split; [rewrite Hsum; f_equal; lia|]. split; [done|].
  split; [apply suffix_drop|]. split.
  - unfold recent. rewrite length_drop. lia.
  - intros id Hid. rewrite ProctoringFacts.get_score_eq, Hid. by eexists.
Qed.

(** X6: the identity check report counts every stored verification
    once, as passed or as failed; a verification that the service
    answered adds one to the total and one to the side its [verified]
    field falls on. *)
Theorem X6_identity_checks_count st r now res id :
  truthy (ir_userId r) = true →
  truthy (ir_image r) = true →
  ir_interviewId r = JStr id →
  ∃ total passed failed,
    checks_of (get_identity_checks st id).1 = Some (total, passed, failed)
    ∧ total = (passed + failed)%nat
    ∧ checks_of (get_identity_checks (verify_identity st r now (Answers res)).2 id).1
      = Some (S total,
              if truthy (vr_verified res) then S passed else passed,
              if truthy (vr_verified res) then failed else S failed).
Proof.
  intros Huser Himage Hid. unfold get_identity_checks. cbn [fst checks_of].
  do 3 eexists. split; [done|]. split.
  { induction (default [] (identityVerifications st !! JStr id)) as [|v vs IH]; [done|].
    rewrite !filter_cons. cbn [length].
    destruct (truthy (v_verified v)); repeat case_decide; try done; cbn [length]; lia. }
  unfold verify_identity. rewrite Huser, Himage, Hid. cbn [negb orb].
  assert (∀ logs sessions,
            default [] (identityVerifications
              (Store logs sessions
                 (<[JStr id := default [] (identityVerifications st !! JStr id)
                               ++ [Verification now (ir_userId r) (vr_verified res)
                                                (vr_score res) (vr_liveness res)]]>
                    (identityVerifications st))) !! JStr id)
            = default [] (identityVerifications st !! JStr id)
              ++ [Verification now (ir_userId r) (vr_verified res)
                               (vr_score res) (vr_liveness res)]) as Hchecks.
  { intros. cbn. by rewrite lookup_insert_eq. }
  destruct (truthy (vr_verified res)) eqn:Hverified.
  - cbn [snd]. rewrite Hchecks, !filter_app, !length_app, !filter_cons, !filter_nil.
    cbn [v_verified]. rewrite Hverified.
    rewrite decide_True, decide_False by done. cbn [length]. f_equal. f_equal; [f_equal|]; lia.
  - destruct (optional_toFixed3 (vr_score res)) eqn:Hfix;
      cbn [snd]; rewrite Hchecks, !filter_app, !length_app, !filter_cons, !filter_nil;
      cbn [v_verified]; rewrite Hverified;
      rewrite decide_False, decide_True by done; cbn [length];
      (f_equal; f_equal; [f_equal|]; lia).
Qed.

Lemma X6_identity_checks_count_witness :
  let r := IdentityRequest (JStr "S1") (JStr "u-1") (JStr "data:image/png;base64,AAAA") in
  let res := VerifierResult (JBool true) (JNum 1) (Scalar (JBool true)) (Scalar JUndefined) in
  ∃ total passed failed,
    checks_of (get_identity_checks empty_store "S1").1 = Some (total, passed, failed)
    ∧ total = (passed + failed)%nat
    ∧ checks_of (get_identity_checks (verify_identity empty_store r 3 (Answers res)).2
                                     "S1").1
      = Some (S total,
              if truthy (vr_verified res) then S passed else passed,
              if truthy (vr_verified res) then failed else S failed).
Proof.
  intros r res. apply (X6_identity_checks_count empty_store r 3 res "S1"); reflexivity.
Defined.

(** X7: a verification that comes back not verified, with a score that is
    a number or absent, is answered with 200 and puts one event of type
    [identity_mismatch] and severity [critical] at the end of the
    interview's log, which takes 20 points off its score (down to 0 at
    most); one that comes back verified leaves every log alone. *)
Theorem X7_mismatch_costs_twenty st r now res id :
  truthy (ir_userId r) = true →
  truthy (ir_image r) = true →
  ir_interviewId r = JStr id →
  let after := verify_identity st r now (Answers res) in
  (truthy (vr_verified res) = false →
   optional_toFixed3 (vr_score res) ≠ FixedThrows →
   http_status after.1 = 200
   ∧ (∃ e, events_of after.2 (JStr id) = events_of st (JStr id) ++ [e]
           ∧ eventType e = JStr "identity_mismatch"
           ∧ severity e = JStr "critical"
           ∧ timestamp e = now)
   ∧ (∃ b, (get_score after.2 id).1
           = ScoreReport (Z.max 0 (100 - total_deduction (events_of st (JStr id)) - 20))
                         (S (length (events_of st (JStr id)))) b))
  ∧ (truthy (vr_verified res) = true →
     http_status after.1 = 200 ∧ ∀ k, events_of after.2 k = events_of st k).
Proof.
  intros Huser Himage Hid after. subst after. unfold verify_identity.
  rewrite Huser, Himage, Hid. cbn [negb orb]. split.
  - intros Hverified Hscore. rewrite Hverified.
    assert (∀ shown,
      let e := Event (JStr "identity_mismatch") (JStr "critical")
                     (Scalar (JStr (mismatch_text +:+ shown))) now in
      ∀ (answer : reply) checks,
        let after := (answer,
                      Store (<[JStr id := events_of st (JStr id) ++ [e]]>
                               (proctoringEvents st)) (activeSessions st) checks) in
        (∃ e, events_of after.2 (JStr id) = events_of st (JStr id) ++ [e]
              ∧ eventType e = JStr "identity_mismatch"
              ∧ severity e = JStr "critical"
              ∧ timestamp e = now)
        ∧ (∃ b, (get_score after.2 id).1
                = ScoreReport
                    (Z.max 0 (100 - total_deduction (events_of st (JStr id)) - 20))
                    (S (length (events_of st (JStr id)))) b)) as Hlog.
    { intros shown e answer checks after.
      assert (events_of after.2 (JStr id) = events_of st (JStr id) ++ [e]) as Hafter
        by (unfold events_of at 1; cbn; by rewrite lookup_insert_eq).
      split; [by exists e|].
      rewrite ProctoringFacts.get_score_eq, Hafter. eexists. cbn [fst].
      unfold table_score.
      rewrite ProctoringFacts.total_deduction_app, length_app.
      change (total_deduction [e]) with 20. cbn [length].
      f_equal; [f_equal|]; lia. }
    destruct (optional_toFixed3 (vr_score res)) as [|shown|] eqn:Hfix; [| |done].
    + split; [done|]. apply (Hlog "N/A").
    + split; [done|]. apply (Hlog shown).
  - intros Hverified. by rewrite Hverified.
Qed.

Lemma X7_mismatch_costs_twenty_witness :
  let r := IdentityRequest (JStr "S1") (JStr "u-1") (JStr "data:image/png;base64,AAAA") in
  let res := VerifierResult (JBool false) JUndefined (Scalar (JBool true))
                            (Scalar (JStr "no match")) in
  let after := verify_identity empty_store r 3 (Answers res) in
  http_status after.1 = 200
  ∧ (∃ e, events_of after.2 (JStr "S1") = events_of empty_store (JStr "S1") ++ [e]
          ∧ eventType e = JStr "identity_mismatch"
          ∧ severity e = JStr "critical"
          ∧ timestamp e = 3)
  ∧ (∃ b, (get_score after.2 "S1").1
          = ScoreReport
              (Z.max 0 (100 - total_deduction (events_of empty_store (JStr "S1")) - 20))
              (S (length (events_of empty_store (JStr "S1")))) b).
Proof.
  intros r res after.
  apply (X7_mismatch_costs_twenty empty_store r 3 res "S1"); (reflexivity || discriminate).
Defined.

(** X8: when the service answers not verified with a score that is
    neither a number nor absent (a string, say), building the event
    throws: the request is answered with 503 as if the service had been
    unreachable, the verification is on record all the same, and no
    event reaches any log. *)
Theorem X8_unprintable_score st r now res :
  truthy (ir_userId r) = true →
  truthy (ir_image r) = true →
  truthy (vr_verified res) = false →
  optional_toFixed3 (vr_score res) = FixedThrows →
  let after := verify_identity st r now (Answers res) in
  after.1 = VerifierUnavailable
  ∧ http_status after.1 = 503
  ∧ (∀ k, events_of after.2 k = events_of st k)
  ∧ identityVerifications after.2 !! ir_interviewId r
    = Some (default [] (identityVerifications st !! ir_interviewId r)
            ++ [Verification now (ir_userId r) (vr_verified res) (vr_score res)
                             (vr_liveness res)]).
Proof.
  intros Huser Himage Hverified Hfix after. subst after. unfold verify_identity.
  rewrite Huser, Himage, Hverified, Hfix. cbn [negb orb fst snd].
  repeat split.
  - intros k. unfold events_of at 1. cbn.
    destruct (decide (ir_interviewId r = k)) as [<-|Hne].
    + by rewrite lookup_insert_eq.
    + by rewrite lookup_insert_ne.
  - cbn. by rewrite lookup_insert_eq.
Qed.

Lemma X8_unprintable_score_witness :
  let r := IdentityRequest (JStr "S1") (JStr "u-1") (JStr "data:image/png;base64,AAAA") in
  let res := VerifierResult (JBool false) (JStr "0.41") (Scalar (JBool true))
                            (Scalar (JStr "no match")) in
  let after := verify_identity empty_store r 3 (Answers res) in
  after.1 = VerifierUnavailable
  ∧ http_status after.1 = 503
  ∧ (∀ k, events_of after.2 k = events_of empty_store k)
  ∧ identityVerifications after.2 !! JStr "S1"
    = Some (default [] (identityVerifications empty_store !! JStr "S1")
            ++ [Verification 3 (JStr "u-1") (JBool false) (JStr "0.41")
                             (Scalar (JBool true))]).
Proof.
  intros r res after.
  apply (X8_unprintable_score empty_store r 3 res); reflexivity.
Defined.

End ProctoringDashboardFacts.

(** ** Runs of calls on the session directory *)

Module SessionDirectoryFacts.
Import LiveSessions SessionDirectory.

Lemma is_string_iff lit v : is_string lit v = true ↔ v = JStr lit.
Proof.
  destruct v; simpl; try by split.
  rewrite bool_decide_eq_true. split; [by intros -> | by intros [= ->]].
Qed.

(** One request on a session that exists. *)
Lemma handle_step st sid s r :
  st !! sid = Some s →
  ∃ s1,
    handle sid st r !! sid = Some s1
    ∧ id s1 = id s ∧ accessCode s1 = accessCode s ∧ info s1 = info s
    ∧ createdAt s1 = createdAt s
    ∧ participants s1
      = participants s ++ match joined (accessCode s) r with Some p => [p] | None => [] end
    ∧ codeSnapshots s1
      = codeSnapshots s ++ match snapped r with Some x => [x] | None => [] end
    ∧ proctoringEvents s1
      = proctoringEvents s ++ match logged r with Some x => [x] | None => [] end.
Proof.
  intros Hs. destruct r as [name role c uuid now|fb notes now|c l ts now|e now];
    cbn [handle joined snapped logged].
  - unfold join. rewrite Hs. destruct (is_string (accessCode s) c); cbn [negb snd].
    + rewrite lookup_insert_eq. eexists. split; [done|].
      cbn. by rewrite !app_nil_r.
    + exists s. by rewrite !app_nil_r.
  - unfold finish. rewrite Hs. cbn [snd]. rewrite lookup_insert_eq.
    eexists. split; [done|]. cbn. by rewrite !app_nil_r.
  - unfold save_snapshot. rewrite Hs. cbn [snd]. rewrite lookup_insert_eq.
    eexists. split; [done|]. cbn. by rewrite !app_nil_r.
  - unfold save_event. rewrite Hs. cbn [snd]. rewrite lookup_insert_eq.
    eexists. split; [done|]. cbn. by rewrite !app_nil_r.
Qed.

Lemma omap_cons_match {A B} (f : A → option B) x l :
  omap f (x :: l) = match f x with Some y => [y] | None => [] end ++ omap f l.
Proof. cbn. by destruct (f x). Qed.

(** X9: under any sequence of join, end, snapshot and proctoring-event
    requests a session stays in the directory with its id, access code,
    details and creation time, and its three lists are exactly what they
    were followed by, in order of arrival: the participants of the joins
    that carried the access code, the snapshots of the snapshot
    requests, and the events of the event requests.  Nothing is ever
    taken off or rewritten, and a join with another code adds nothing. *)
Theorem X9_session_lists_are_request_history reqs st sid s :
  st !! sid = Some s →
  ∃ s',
    foldl (handle sid) st reqs !! sid = Some s'
    ∧ id s' = id s ∧ accessCode s' = accessCode s ∧ info s' = info s
    ∧ createdAt s' = createdAt s
    ∧ participants s' = participants s ++ omap (joined (accessCode s)) reqs
    ∧ codeSnapshots s' = codeSnapshots s ++ omap snapped reqs
    ∧ proctoringEvents s' = proctoringEvents s ++ omap logged reqs.
Proof.
  revert st s. induction reqs as [|r reqs IH]; intros st s Hs.
  - exists s. by rewrite !app_nil_r.
  - cbn [foldl].
    destruct (handle_step st sid s r Hs)
      as (s1 & Hs1 & Hid & Hcode & Hinfo & Hcreated & Hps & Hsnaps & Hevents).
    destruct (IH _ _ Hs1)
      as (s' & Hs' & Hid' & Hcode' & Hinfo' & Hcreated' & Hps' & Hsnaps' & Hevents').
    exists s'. rewrite Hs', Hid', Hcode', Hinfo', Hcreated', Hps', Hsnaps', Hevents'.
    rewrite Hid, Hcode, Hinfo, Hcreated, Hps, Hsnaps, Hevents.
    by rewrite !omap_cons_match, <- !app_assoc.
Qed.

Lemma X9_session_lists_are_request_history_witness :
  let req := CreateRequest (Scalar (JStr "r-7")) (Scalar (JStr "Rita"))
                           (Scalar (JStr "Acme")) (Scalar (JStr "Engineer"))
                           (Scalar (JStr "cy@example.org")) (Scalar (JStr "Cy"))
                           JUndefined None None in
  let st := (create ∅ req "session-1" "ABC234" 0).2 in
  let s := Session "session-1" "ABC234"
             (Details (Scalar (JStr "r-7")) (Scalar (JStr "Rita")) (Scalar (JStr "Acme"))
                      (Scalar (JStr "Engineer")) (Scalar (JStr "cy@example.org"))
                      (Scalar (JStr "Cy")) (inr 0) (Scalar (JNum 60)) (Array []))
             Scheduled [] 0 None None false None [] [] [] None in
  let reqs := [ ReqJoin (Scalar (JStr "Rita")) (JStr "recruiter") (JStr "ABC234") "p1" 1;
                ReqJoin (Scalar (JStr "Eve")) (JStr "candidate") (JStr "WRONG1") "p2" 2;
                ReqSnapshot (Scalar (JStr "x = 1")) (Scalar (JStr "python")) JUndefined 3 ] in
  ∃ s',
    foldl (handle "session-1") st reqs !! "session-1" = Some s'
    ∧ id s' = id s ∧ accessCode s' = accessCode s ∧ info s' = info s
    ∧ createdAt s' = createdAt s
    ∧ participants s' = participants s ++ omap (joined (accessCode s)) reqs
    ∧ codeSnapshots s' = codeSnapshots s ++ omap snapped reqs
    ∧ proctoringEvents s' = proctoringEvents s ++ omap logged reqs.
Proof.
  intros req st s reqs.
  apply (X9_session_lists_are_request_history reqs st "session-1" s). reflexivity.
Defined.

(** X10: a call changes no session but the one it is addressed to: a
    session that no call of a sequence creates or writes to is after the
    sequence what it was before. *)
Theorem X10_sessions_are_isolated cs st sid :
  Forall (λ c, target c ≠ Some sid) cs →
  serve_all cs st !! sid = st !! sid.
Proof.
  revert st. induction cs as [|c cs IH]; intros st Hcs; [done|].
  apply Forall_cons in Hcs as [Hc Hcs]. cbn [serve_all foldl].
  unfold serve_all in IH. rewrite IH by done.
  destruct c as [r uuid code now|sid0 r|sid0 code|]; cbn [serve target] in *.
  - cbn. apply lookup_insert_ne. congruence.
  - assert (sid0 ≠ sid) as Hne by congruence.
    destruct r as [name role c uuid now|fb notes now|c l ts now|e now]; cbn [handle].
    + unfold join. destruct (st !! sid0); [|done].
      destruct (is_string _ _); cbn [negb snd]; [|done]. by apply lookup_insert_ne.
    + unfold finish. destruct (st !! sid0); [|done]. by apply lookup_insert_ne.
    + unfold save_snapshot. destruct (st !! sid0); [|done]. by apply lookup_insert_ne.
    + unfold save_event. destruct (st !! sid0); [|done]. by apply lookup_insert_ne.
  - unfold get_session. destruct (st !! sid0); [|done].
    by destruct (is_string _ _).
  - done.
Qed.

Lemma X10_sessions_are_isolated_witness :
  let req := CreateRequest (Scalar (JStr "r-7")) (Scalar (JStr "Rita"))
                           (Scalar (JStr "Acme")) (Scalar (JStr "Engineer"))
                           (Scalar (JStr "cy@example.org")) (Scalar (JStr "Cy"))
                           JUndefined None None in
  let st := (create ∅ req "session-1" "ABC234" 0).2 in
  let cs := [ Create req "session-2" "XYZ789" 1;
              On "session-2"
                 (ReqJoin (Scalar (JStr "Rita")) (JStr "recruiter") (JStr "XYZ789") "p1" 2);
              On "session-2" (ReqEnd (Scalar (JStr "ok")) (Scalar JUndefined) 3) ] in
  serve_all cs st !! "session-1" = st !! "session-1".
Proof.
  intros req st cs. apply (X10_sessions_are_isolated cs st "session-1").
  repeat constructor; discriminate.
Defined.

Lemma both_roles_join s p now :
  both_roles (join_session s p now)
  = has_role "recruiter" (participants s ++ [p])
    && has_role "candidate" (participants s ++ [p]).
Proof. done. Qed.

Lemma both_roles_grow s p :
  both_roles s = true →
  has_role "recruiter" (participants s ++ [p])
  && has_role "candidate" (participants s ++ [p]) = true.
Proof.
  unfold both_roles. rewrite !LiveSessionsFacts.has_role_snoc.
  intros [-> ->]%andb_true_iff. done.
Qed.

Lemma consistent_fresh uuid code d now :
  consistent (Session uuid code d Scheduled [] now None None false None [] [] [] None).
Proof. constructor; cbn; done. Qed.

Lemma consistent_end s fb notes now :
  consistent s → consistent (end_session s fb notes now).
Proof.
  intros [_ _ _ Hstarted _]. constructor; cbn; done.
Qed.

Lemma consistent_snapshot s c l ts now :
  consistent s → consistent (add_snapshot s c l ts now).
Proof. intros []. constructor; cbn; done. Qed.

Lemma consistent_event s e now :
  consistent s → consistent (add_event s e now).
Proof. intros []. constructor; cbn; done. Qed.

Lemma consistent_join s p now :
  consistent s → consistent (join_session s p now).
Proof.
  intros [Hscheduled Hwaiting Hrunning Hstarted Hcompleted].
  pose proof (both_roles_grow s p) as Hgrow.
  assert (participants s ++ [p] ≠ []) as Hsome by (by destruct (participants s)).
  constructor; rewrite ?both_roles_join; unfold join_session;
    cbn [status_of startedAt endedAt participants feedback];
    destruct (status_of s) eqn:Hstatus;
    destruct (has_role "recruiter" (participants s ++ [p])
              && has_role "candidate" (participants s ++ [p])) eqn:Hboth;
    cbn; try done; intros;
    try (destruct Hscheduled as (? & ? & ?); [done|]);
    try (destruct Hwaiting as (? & ? & ? & ?); [done|]);
    try (destruct Hrunning as (? & ?); [done|]);
    try (destruct Hcompleted as (? & ?); [done|]);
    repeat split; try done; try congruence; eauto.
Qed.

Lemma serve_consistent st c :
  (∀ sid s, st !! sid = Some s → consistent s) →
  ∀ sid s, serve st c !! sid = Some s → consistent s.
Proof.
  intros Hst sid s.
  destruct c as [r uuid code now|sid0 r|sid0 code|]; cbn [serve].
  - cbn. destruct (decide (uuid = sid)) as [->|Hne].
    + rewrite lookup_insert_eq. intros [= <-]. apply consistent_fresh.
    + rewrite lookup_insert_ne by done. apply Hst.
  - destruct r as [name role c uuid now|fb notes now|c l ts now|e now]; cbn [handle].
    + unfold join. destruct (st !! sid0) as [s0|] eqn:Hs0; [|apply Hst].
      destruct (is_string _ _); cbn [negb snd]; [|apply Hst].
      destruct (decide (sid0 = sid)) as [->|Hne].
      * rewrite lookup_insert_eq. intros [= <-]. apply consistent_join. eauto.
      * rewrite lookup_insert_ne by done. apply Hst.
    + unfold finish. destruct (st !! sid0) as [s0|] eqn:Hs0; [|apply Hst].
      cbn [snd]. destruct (decide (sid0 = sid)) as [->|Hne].
      * rewrite lookup_insert_eq. intros [= <-]. apply consistent_end. eauto.
      * rewrite lookup_insert_ne by done. apply Hst.
    + unfold save_snapshot. destruct (st !! sid0) as [s0|] eqn:Hs0; [|apply Hst].
      cbn [snd]. destruct (decide (sid0 = sid)) as [->|Hne].
      * rewrite lookup_insert_eq. intros [= <-]. apply consistent_snapshot. eauto.
      * rewrite lookup_insert_ne by done. apply Hst.
    + unfold save_event. destruct (st !! sid0) as [s0|] eqn:Hs0; [|apply Hst].
      cbn [snd]. destruct (decide (sid0 = sid)) as [->|Hne].
      * rewrite lookup_insert_eq. intros [= <-]. apply consistent_event. eauto.
      * rewrite lookup_insert_ne by done. apply Hst.
  - unfold get_session. destruct (st !! sid0); [|apply Hst].
    destruct (is_string _ _); apply Hst.
  - apply Hst.
Qed.

Lemma serve_all_consistent cs st :
  (∀ sid s, st !! sid = Some s → consistent s) →
  ∀ sid s, serve_all cs st !! sid = Some s → consistent s.
Proof.
  revert st. induction cs as [|c cs IH]; intros st Hst; [done|].
  cbn [serve_all foldl]. apply IH. by apply serve_consistent.
Qed.

(** X11: every session the directory can come to hold, through any
    sequence of create, join, end, snapshot, event and read calls, has
    its status, participant list and time stamps in step: a scheduled
    session has no participant and no start or end time; a waiting one
    has a participant, lacks a recruiter or a candidate, and has no
    start or end time; one in progress has both a recruiter and a
    candidate and a start time; a start time is only ever present with
    both roles on the list; a completed one has an end time and a
    feedback record. *)
Theorem X11_reachable_sessions_consistent cs sid s :
  serve_all cs ∅ !! sid = Some s →
  consistent s.
Proof. apply serve_all_consistent. intros ? ?. by rewrite lookup_empty. Qed.

Lemma X11_reachable_sessions_consistent_witness :
  let req := CreateRequest (Scalar (JStr "r-7")) (Scalar (JStr "Rita"))
                           (Scalar (JStr "Acme")) (Scalar (JStr "Engineer"))
                           (Scalar (JStr "cy@example.org")) (Scalar (JStr "Cy"))
                           JUndefined None None in
  let cs := [ Create req "session-1" "ABC234" 0;
              On "session-1"
                 (ReqJoin (Scalar (JStr "Rita")) (JStr "recruiter") (JStr "ABC234") "p1" 1) ] in
  consistent
    (Session "session-1" "ABC234"
       (Details (Scalar (JStr "r-7")) (Scalar (JStr "Rita")) (Scalar (JStr "Acme"))
                (Scalar (JStr "Engineer")) (Scalar (JStr "cy@example.org"))
                (Scalar (JStr "Cy")) (inr 0) (Scalar (JNum 60)) (Array []))
       Waiting
       [Participant "p1" (Scalar (JStr "Rita")) (JStr "recruiter") 1 None None true true]
       0 None None false None [] [] [] None).
Proof.
  intros req cs. apply (X11_reachable_sessions_consistent cs "session-1"). reflexivity.
Defined.

(** X12: the active listing has one entry for each session whose status
    is waiting or in-progress and nothing else, so a session nobody has
    joined and a completed session are not listed; in a directory built
    by calls every listed session has at least one participant, and it
    has a start time exactly when it is in progress. *)
Theorem X12_active_listing :
  (∀ st e,
     e ∈ (active st).1
     ↔ ∃ sid s, st !! sid = Some s
                ∧ (status_of s = InProgress ∨ status_of s = Waiting)
                ∧ e = entry_of s)
  ∧ (∀ cs e,
       e ∈ (active (serve_all cs ∅)).1 →
       (1 ≤ ae_participants e)%nat
       ∧ (ae_status e = InProgress ↔ is_Some (ae_startedAt e))).
Proof.
  assert (∀ st e,
     e ∈ (active st).1
     ↔ ∃ sid s, st !! sid = Some s
                ∧ (status_of s = InProgress ∨ status_of s = Waiting)
                ∧ e = entry_of s) as Hlisting.
  { intros st e. cbn [active fst]. split.
    - intros Hin. apply list_elem_of_fmap_1 in Hin as (s & -> & Hs).
      apply list_elem_of_filter in Hs as [Hlive Hs].
      apply list_elem_of_fmap_1 in Hs as ([sid s'] & -> & Hks).
      apply elem_of_map_to_list in Hks. exists sid, s'. split; [done|]. split; [|done].
      cbn [snd] in Hlive. unfold is_live in Hlive.
      apply orb_true_iff in Hlive as [H|H]; apply bool_decide_eq_true in H; eauto.
    - intros (sid & s & Hs & Hstatus & ->). apply list_elem_of_fmap_2.
      apply list_elem_of_filter. split.
      + unfold is_live. destruct Hstatus as [-> | ->]; done.
      + apply (list_elem_of_fmap_2' snd _ (sid, s)); [|done].
        by apply elem_of_map_to_list. }
  split; [done|].
  intros cs e (sid & s & Hs & Hstatus & ->)%Hlisting.
  assert (consistent s) as [_ Hwaiting Hrunning Hstarted _].
  { eapply (serve_all_consistent cs ∅); [|done]. intros ? ?. by rewrite lookup_empty. }
  cbn [entry_of ae_participants ae_status ae_startedAt].
  destruct Hstatus as [Hstatus|Hstatus].
  - destruct (Hrunning Hstatus) as [Hboth Hstart]. split; [|done].
    unfold both_roles in Hboth. destruct (participants s); [done|cbn; lia].
  - destruct (Hwaiting Hstatus) as (Hsome & _ & Hstart & _). split.
    + destruct (participants s); [done|cbn; lia].
    + rewrite Hstatus, Hstart. split; [done|]. by intros [? ?].
Qed.

(** Every position below 32 of the alphabet holds one of its
    characters. *)
Lemma charAt_alphabet n :
  (n < 32)%nat →
  ∃ c, charAt access_alphabet n = String c ""
       ∧ c ∈ String.list_ascii_of_string access_alphabet.
Proof.
  intros Hn.
  do 32 (destruct n as [|n];
         [eexists; split; [reflexivity|cbn; rewrite !elem_of_cons; tauto]|]).
  lia.
Qed.

(** X13: when each of the six draws falls inside the alphabet, as
    [Math.floor(Math.random() * 32)] does, the access code has six
    characters, each one a capital letter other than I and O or a digit
    from 2 to 9. *)
Theorem X13_access_code_shape draw :
  (∀ i, (i < 6)%nat → (draw i < 32)%nat) →
  String.length (generateAccessCode draw) = 6%nat
  ∧ (∀ c, c ∈ String.list_ascii_of_string (generateAccessCode draw) →
          c ∈ String.list_ascii_of_string access_alphabet)
  ∧ (∀ c, c ∈ String.list_ascii_of_string "IO01" →
          c ∉ String.list_ascii_of_string (generateAccessCode draw)).
Proof.
  intros Hdraw. unfold generateAccessCode. cbn [seq foldl].
  destruct (charAt_alphabet (draw 0%nat)) as (c0 & -> & H0); [apply Hdraw; lia|].
  destruct (charAt_alphabet (draw 1%nat)) as (c1 & -> & H1); [apply Hdraw; lia|].
  destruct (charAt_alphabet (draw 2%nat)) as (c2 & -> & H2); [apply Hdraw; lia|].
  destruct (charAt_alphabet (draw 3%nat)) as (c3 & -> & H3); [apply Hdraw; lia|].
  destruct (charAt_alphabet (draw 4%nat)) as (c4 & -> & H4); [apply Hdraw; lia|].
  destruct (charAt_alphabet (draw 5%nat)) as (c5 & -> & H5); [apply Hdraw; lia|].
  cbn [String.append String.length String.list_ascii_of_string].
  assert (∀ c, c ∈ [c0; c1; c2; c3; c4; c5] →
               c ∈ String.list_ascii_of_string access_alphabet) as Hin.
  { intros c. rewrite !elem_of_cons, elem_of_nil.
    intros [->|[->|[->|[->|[->|[->|[]]]]]]]; done. }
  split; [done|]. split; [done|].
  intros c Hbad Hc. apply Hin in Hc. revert Hbad Hc.
  cbn [String.list_ascii_of_string access_alphabet].
  rewrite !elem_of_cons, !elem_of_nil.
  intros [->|[->|[->|[->|[]]]]] Hc;
    repeat (destruct Hc as [Hc|Hc]; [discriminate Hc|]); done.
Qed.

Lemma X13_access_code_shape_witness :
  String.length (generateAccessCode (λ i, (5 * i)%nat)) = 6%nat
  ∧ (∀ c, c ∈ String.list_ascii_of_string (generateAccessCode (λ i, (5 * i)%nat)) →
          c ∈ String.list_ascii_of_string access_alphabet)
  ∧ (∀ c, c ∈ String.list_ascii_of_string "IO01" →
          c ∉ String.list_ascii_of_string (generateAccessCode (λ i, (5 * i)%nat))).
Proof. apply (X13_access_code_shape (λ i, (5 * i)%nat)). intros i Hi. lia. Defined.

(** X14: right after [POST /create] the session can be read and joined
    with the access code that was handed out, it is scheduled and empty,
    and the first join leaves it waiting with that one participant; a
    read or a join with anything else for a code is answered with 403
    and changes nothing; and the sessions under other ids are as they
    were. *)
Theorem X14_create_then_enter st r uuid code now :
  let st' := (create st r uuid code now).2 in
  (∃ s, get_session st' uuid (JStr code) = (SessionView s, st')
        ∧ status_of s = Scheduled ∧ participants s = [] ∧ accessCode s = code)
  ∧ (∀ name role u t, ∃ p,
       (join st' uuid name role (JStr code) u t).1 = Joined p Waiting [p]
       ∧ p_id p = u ∧ p_role p = role)
  ∧ (∀ c, c ≠ JStr code →
       http_status (get_session st' uuid c).1 = 403
       ∧ (get_session st' uuid c).2 = st'
       ∧ ∀ name role u t,
           http_status (join st' uuid name role c u t).1 = 403
           ∧ (join st' uuid name role c u t).2 = st')
  ∧ (∀ sid, sid ≠ uuid → st' !! sid = st !! sid).
Proof.
  intros st'. subst st'. cbn [create snd].
  assert (∀ c, c ≠ JStr code → is_string code c = false) as Hwrong.
  { intros c Hc. destruct (is_string code c) eqn:Hs; [|done].
    by apply is_string_iff in Hs. }
  split; [|split; [|split]].
  - unfold get_session. rewrite lookup_insert_eq. cbn [accessCode is_string].
    rewrite bool_decide_eq_true_2 by done. by eexists.
  - intros name role u t. unfold join. rewrite lookup_insert_eq.
    cbn [accessCode is_string]. rewrite bool_decide_eq_true_2 by done.
    cbn [negb fst]. exists (Participant u name role t None None true true).
    split; [|done].
    unfold join_session. cbn [status_of participants app].
    rewrite decide_True by done.
    assert (has_role "recruiter" [Participant u name role t None None true true]
            && has_role "candidate" [Participant u name role t None None true true]
            = false) as ->; [|done].
    unfold has_role. cbn [existsb p_role]. rewrite !orb_false_r.
    destruct (is_string "recruiter" role) eqn:Hrec; [|done].
    apply is_string_iff in Hrec as ->. reflexivity.
  - intros c Hc. unfold get_session, join. rewrite lookup_insert_eq.
    cbn [accessCode]. by rewrite (Hwrong c Hc).
  - intros sid Hne. by apply lookup_insert_ne.
Qed.

End SessionDirectoryFacts.

(** ** Room traffic *)

Section JsMapMoreFacts.
Context {K V : Type} `{Countable K}.
Implicit Types (k : K) (v : V) (m : list (K * V)).

Lemma map_get_delete_eq k m : map_get k (map_delete k m) = None.
Proof.
  unfold map_delete. induction m as [|[k' v'] m IH]; [done|].
  rewrite filter_cons. cbn [fst].
  destruct (decide (k' ≠ k)) as [Hne|Heq]; [|done].
  cbn [map_get]. by rewrite decide_False.
Qed.

Lemma map_get_Some_elem k v m : map_get k m = Some v → (k, v) ∈ m.
Proof.
  induction m as [|[k' v'] m IH]; [done|]. cbn [map_get].
  destruct (decide (k' = k)) as [->|Hne].
  - intros [= ->]. apply list_elem_of_here.
  - intros Hget. apply list_elem_of_further. by apply IH.
Qed.

Lemma map_keys_elem_set k k' v m :
  k' ∈ map_keys (map_set k v m) ↔ k' = k ∨ k' ∈ map_keys m.
Proof.
  unfold map_keys. induction m as [|[k0 v0] m IH]; cbn [map_set].
  - rewrite fmap_cons, elem_of_cons. cbn. set_solver.
  - destruct (decide (k0 = k)) as [->|Hne].
    + rewrite !fmap_cons, !elem_of_cons. cbn. naive_solver.
    + rewrite !fmap_cons, !elem_of_cons, IH. cbn. naive_solver.
Qed.

Lemma map_set_NoDup k v m : NoDup (map_keys m) → NoDup (map_keys (map_set k v m)).
Proof.
  induction m as [|[k0 v0] m IH]; cbn [map_set].
  - intros _. apply NoDup_singleton.
  - unfold map_keys in *. rewrite fmap_cons. intros [Hout Hm]%NoDup_cons.
    destruct (decide (k0 = k)) as [->|Hne].
    + rewrite fmap_cons. by apply NoDup_cons.
    + rewrite fmap_cons. apply NoDup_cons. split; [|by apply IH].
      cbn [fst] in *. intros Hin. apply (map_keys_elem_set k k0 v m) in Hin.
      naive_solver.
Qed.

Lemma map_delete_NoDup k m : NoDup (map_keys m) → NoDup (map_keys (map_delete k m)).
Proof.
  unfold map_keys, map_delete. induction m as [|[k0 v0] m IH]; [done|].
  rewrite fmap_cons. intros [Hout Hm]%NoDup_cons. rewrite filter_cons.
  destruct (decide ((k0, v0).1 ≠ k)); [|by apply IH].
  rewrite fmap_cons. apply NoDup_cons. split; [|by apply IH].
  intros Hin. apply Hout. apply list_elem_of_fmap_1 in Hin as (kv & -> & Hkv).
  apply list_elem_of_filter in Hkv as [_ Hkv]. by apply list_elem_of_fmap_2.
Qed.

Lemma map_set_Forall (P : K * V → Prop) k v m :
  P (k, v) → Forall P m → Forall P (map_set k v m).
Proof.
  intros Hkv. induction m as [|[k0 v0] m IH]; cbn [map_set].
  - intros _. by apply Forall_singleton.
  - intros [H0 Hm]%Forall_cons. destruct (decide (k0 = k)).
    + by apply Forall_cons.
    + apply Forall_cons. split; [done|by apply IH].
Qed.

Lemma map_delete_Forall (P : K * V → Prop) k m :
  Forall P m → Forall P (map_delete k m).
Proof.
  rewrite !Forall_forall. intros Hm kv Hkv. apply Hm.
  unfold map_delete in Hkv. by apply list_elem_of_filter in Hkv as [_ ?].
Qed.

End JsMapMoreFacts.

Module RoomTrafficFacts.
Import LiveRooms RoomTraffic.

Lemma members_step_all st op sid :
  is_cleanup op = false →
  members (step st op) sid
  = match membership_of op with
    | Some mop => account sid (members st sid) mop
    | None => members st sid
    end.
Proof.
  intros Hop. destruct op; cbn [step membership_of account]; [..|done].
  - apply LiveRoomsFacts.members_join.
  - apply LiveRoomsFacts.members_leave.
  - apply LiveRoomsFacts.members_disconnect.
  - apply LiveRoomsFacts.members_camera_status_update.
  - apply LiveRoomsFacts.members_start_screen_share.
  - apply LiveRoomsFacts.members_stop_screen_share.
  - apply LiveRoomsFacts.members_live_code_update.
  - apply LiveRoomsFacts.members_whiteboard_draw.
  - apply LiveRoomsFacts.members_whiteboard_clear.
  - done.
Qed.

(** X15: whatever else goes on in the rooms (code updates, whiteboard
    strokes and clears, camera and screen-share messages, end
    announcements), as long as no room is torn down the members of a
    room are the endpoints that the join, leave and disconnect
    operations of the sequence account for: no other handler adds or
    removes a participant. *)
Theorem X15_only_membership_changes_members ops st sid :
  Forall (λ op, is_cleanup op = false) ops →
  members (run ops st) sid
  = foldl (account sid) (members st sid) (omap membership_of ops).
Proof.
  revert st. induction ops as [|op ops IH]; intros st Hops; [done|].
  apply Forall_cons in Hops as [Hop Hops]. cbn [run foldl].
  unfold run in IH. rewrite IH, members_step_all by done.
  cbn [omap list_omap]. by destruct (membership_of op).
Qed.

Lemma X15_only_membership_changes_members_witness :
  let d := JoinData (JStr "R") (Scalar (JStr "u1")) (Scalar (JStr "Ada"))
                    (Scalar (JStr "candidate")) None in
  let ops := [ OpJoin "a" d 1;
               OpDraw "a" (JStr "R") (Scalar (JNum 7));
               OpCode "a" (JStr "R")
                      (CodeUpdate (Scalar (JStr "x")) (Scalar (JStr "python"))
                                  (Scalar JUndefined) (Scalar JUndefined));
               OpEnd "a" (JStr "R") (Scalar JUndefined) 2 ] in
  members (run ops initial_state) (JStr "R")
  = foldl (account (JStr "R")) (members initial_state (JStr "R")) (omap membership_of ops).
Proof.
  intros d ops. apply (X15_only_membership_changes_members ops initial_state (JStr "R")).
  repeat constructor.
Defined.

Lemma lookup_after_set st sid0 r' sid :
  map_get sid (liveInterviewRooms (with_rooms (map_set sid0 r' (liveInterviewRooms st)) st))
  = if decide (sid0 = sid) then Some r' else map_get sid (liveInterviewRooms st).
Proof.
  cbn [with_rooms liveInterviewRooms]. case_decide as Hsid.
  - subst. apply map_get_set_eq.
  - by apply map_get_set_ne.
Qed.

Lemma disconnect_rooms_of st sock :
  liveInterviewRooms (disconnect st sock).2
  = (disconnect_rooms sock (liveInterviewRooms st)).2.
Proof.
  unfold disconnect. by destruct (disconnect_rooms sock (liveInterviewRooms st)).
Qed.

Lemma dom_obj_assign {V} k (v : V) (o : gmap string V) : dom o ⊆ dom (obj_assign k v o).
Proof. unfold obj_assign. case_bool_decide; [done|]. rewrite dom_insert_L. set_solver. Qed.

Lemma follows_refl sid op r :
  sketch sid (whiteboard r) op = whiteboard r →
  retype sid (code (codeState r), language (codeState r)) op
  = (code (codeState r), language (codeState r)) →
  follows sid op r r.
Proof. intros Hsketch Hretype. unfold follows. by rewrite Hsketch, Hretype. Qed.

(** One operation other than a teardown on a room that exists. *)
Lemma step_present st op sid r :
  map_get sid (liveInterviewRooms st) = Some r →
  is_cleanup op = false →
  ∃ r1, map_get sid (liveInterviewRooms (step st op)) = Some r1 ∧ follows sid op r r1.
Proof.
  intros Hr Hop.
  destruct op as [sock d now|sock sid0|sock|sock sid0 ty enabled stream
                  |sock sid0 ty now|sock sid0|sock sid0 u|sock sid0 stroke|sid0
                  |sock sid0 reason now|]; cbn [step]; [..|done].
  - unfold join_live_interview. cbn [snd]. rewrite lookup_after_set.
    destruct (decide (jd_sessionId d = sid)) as [Hsid|Hsid].
    + rewrite Hsid, Hr. eexists. split; [done|]. by repeat split.
    + exists r. split; [done|]. by apply follows_refl.
  - unfold leave_live_interview.
    destruct (map_get sid0 (liveInterviewRooms st)) as [r0|] eqn:Hr0;
      [|exists r; split; [done|by apply follows_refl]].
    destruct (map_get sock (participants r0)) as [p|] eqn:Hp;
      [|exists r; split; [done|by apply follows_refl]].
    cbn [snd]. rewrite lookup_after_set.
    destruct (decide (sid0 = sid)) as [->|Hsid].
    + rewrite Hr in Hr0. injection Hr0 as <-. eexists. split; [done|]. by repeat split.
    + exists r. split; [done|]. by apply follows_refl.
  - rewrite disconnect_rooms_of, LiveRoomsFacts.map_get_disconnect_rooms, Hr.
    cbn [fmap option_fmap option_map].
    destruct (map_get sock (participants r)); eexists; (split; [done|]); by repeat split.
  - unfold camera_status_update.
    destruct (map_get sid0 (liveInterviewRooms st)) as [r0|] eqn:Hr0;
      [|exists r; split; [done|by apply follows_refl]].
    destruct (map_get sock (participants r0)) as [p|] eqn:Hp;
      [|exists r; split; [done|by apply follows_refl]].
    cbn [snd]. rewrite lookup_after_set.
    destruct (decide (sid0 = sid)) as [->|Hsid].
    + rewrite Hr in Hr0. injection Hr0 as <-. eexists. split; [done|]. by repeat split.
    + exists r. split; [done|]. by apply follows_refl.
  - unfold start_screen_share.
    destruct (map_get sid0 (liveInterviewRooms st)) as [r0|] eqn:Hr0;
      [|exists r; split; [done|by apply follows_refl]].
    cbn [snd]. rewrite lookup_after_set.
    destruct (decide (sid0 = sid)) as [->|Hsid].
    + rewrite Hr in Hr0. injection Hr0 as <-. eexists. split; [done|]. by repeat split.
    + exists r. split; [done|]. by apply follows_refl.
  - unfold stop_screen_share.
    destruct (map_get sid0 (liveInterviewRooms st)) as [r0|] eqn:Hr0;
      [|exists r; split; [done|by apply follows_refl]].
    cbn [snd]. rewrite lookup_after_set.
    destruct (decide (sid0 = sid)) as [->|Hsid].
    + rewrite Hr in Hr0. injection Hr0 as <-. eexists. split; [done|]. by repeat split.
    + exists r. split; [done|]. by apply follows_refl.
  - unfold live_code_update.
    destruct (map_get sid0 (liveInterviewRooms st)) as [r0|] eqn:Hr0; cbn [snd].
    + rewrite lookup_after_set. destruct (decide (sid0 = sid)) as [->|Hsid].
      * rewrite Hr in Hr0. injection Hr0 as <-. eexists. split; [done|].
        unfold follows. cbn. rewrite decide_True by done.
        repeat split. apply dom_obj_assign.
      * exists r. split; [done|]. apply follows_refl; cbn; by rewrite ?decide_False.
    + exists r. split; [done|]. apply follows_refl; [done|]. cbn.
      destruct (decide (sid0 = sid)) as [->|]; [congruence|done].
  - unfold whiteboard_draw. cbn [snd].
    destruct (map_get sid0 (liveInterviewRooms st)) as [r0|] eqn:Hr0.
    + rewrite lookup_after_set. destruct (decide (sid0 = sid)) as [->|Hsid].
      * rewrite Hr in Hr0. injection Hr0 as <-. eexists. split; [done|].
        unfold follows. cbn. rewrite decide_True by done. by repeat split.
      * exists r. split; [done|]. apply follows_refl; cbn; by rewrite ?decide_False.
    + exists r. split; [done|]. apply follows_refl; [|done]. cbn.
      destruct (decide (sid0 = sid)) as [->|]; [congruence|done].
  - unfold whiteboard_clear. cbn [snd].
    destruct (map_get sid0 (liveInterviewRooms st)) as [r0|] eqn:Hr0.
    + rewrite lookup_after_set. destruct (decide (sid0 = sid)) as [->|Hsid].
      * rewrite Hr in Hr0. injection Hr0 as <-. eexists. split; [done|].
        unfold follows. cbn. rewrite decide_True by done. by repeat split.
      * exists r. split; [done|]. apply follows_refl; cbn; by rewrite ?decide_False.
    + exists r. split; [done|]. apply follows_refl; [|done]. cbn.
      destruct (decide (sid0 = sid)) as [->|]; [congruence|done].
  - exists r. split; [done|]. by apply follows_refl.
Qed.

(** One operation other than a join where there is no room. *)
Lemma step_absent st op sid :
  map_get sid (liveInterviewRooms st) = None →
  is_join op = false →
  map_get sid (liveInterviewRooms (step st op)) = None.
Proof.
  intros Hr Hop.
  destruct op as [sock d now|sock sid0|sock|sock sid0 ty enabled stream
                  |sock sid0 ty now|sock sid0|sock sid0 u|sock sid0 stroke|sid0
                  |sock sid0 reason now|]; cbn [step]; [done|..].
  - unfold leave_live_interview.
    destruct (map_get sid0 (liveInterviewRooms st)) as [r0|] eqn:Hr0; [|done].
    destruct (map_get sock (participants r0)); [|done].
    cbn [snd]. rewrite lookup_after_set. case_decide; congruence.
  - by rewrite disconnect_rooms_of, LiveRoomsFacts.map_get_disconnect_rooms, Hr.
  - unfold camera_status_update.
    destruct (map_get sid0 (liveInterviewRooms st)) as [r0|] eqn:Hr0; [|done].
    destruct (map_get sock (participants r0)); [|done].
    cbn [snd]. rewrite lookup_after_set. case_decide; congruence.
  - unfold start_screen_share.
    destruct (map_get sid0 (liveInterviewRooms st)) as [r0|] eqn:Hr0; [|done].
    cbn [snd]. rewrite lookup_after_set. case_decide; congruence.
  - unfold stop_screen_share.
    destruct (map_get sid0 (liveInterviewRooms st)) as [r0|] eqn:Hr0; [|done].
    cbn [snd]. rewrite lookup_after_set. case_decide; congruence.
  - unfold live_code_update.
    destruct (map_get sid0 (liveInterviewRooms st)) as [r0|] eqn:Hr0; [|done].
    cbn [snd]. rewrite lookup_after_set. case_decide; congruence.
  - unfold whiteboard_draw. cbn [snd].
    destruct (map_get sid0 (liveInterviewRooms st)) as [r0|] eqn:Hr0; [|done].
    rewrite lookup_after_set. case_decide; congruence.
  - unfold whiteboard_clear. cbn [snd].
    destruct (map_get sid0 (liveInterviewRooms st)) as [r0|] eqn:Hr0; [|done].
    rewrite lookup_after_set. case_decide; congruence.
  - done.
  - unfold cleanup. destruct (scheduledCleanups st) as [|sid0 later]; [done|].
    cbn [snd liveInterviewRooms].
    destruct (decide (sid0 = sid)) as [->|Hne].
    + apply map_get_delete_eq.
    + by rewrite map_get_delete_ne.
Qed.

(** What the handlers do with a message for an id that has no room. *)
Lemma absent_room_replies st sid :
  map_get sid (liveInterviewRooms st) = None →
  (∀ sock u, live_code_update st sock sid u = ([], st))
  ∧ (∀ sock ty enabled stream,
       camera_status_update st sock sid ty enabled stream = ([], st))
  ∧ (∀ sock ty now, start_screen_share st sock sid ty now = ([], st))
  ∧ (∀ sock, stop_screen_share st sock sid = ([], st))
  ∧ (∀ sock, leave_live_interview st sock sid = ([], st))
  ∧ (∀ sock stroke,
       whiteboard_draw st sock sid stroke
       = ([(OthersIn (live sid), WhiteboardDraw stroke sock)], st))
  ∧ whiteboard_clear st sid = ([(EveryoneIn (live sid), WhiteboardCleared)], st)
  ∧ (∀ sock reason now,
       end_live_interview st sock sid reason now
       = ([(EveryoneIn (live sid), InterviewEnded reason sock now)],
          State (liveInterviewRooms st) (scheduledCleanups st ++ [sid]))).
Proof.
  intros Hr.
  unfold live_code_update, camera_status_update, start_screen_share, stop_screen_share,
    leave_live_interview, whiteboard_draw, whiteboard_clear, end_live_interview.
  rewrite Hr. by repeat split.
Qed.

(** X16: only a join creates a room.  Where there is no room under an
    id, no sequence of other operations makes one, and a message for
    that id meets no state to change: a code update, a camera update, a
    screen-share start or stop and a leave are dropped, with nothing
    sent and nothing stored.  A stroke, a clear and an end announcement
    are not dropped: the stroke is forwarded to the others in the
    socket.io room of that name, the clear and the end are sent to
    everyone in it, and the end also arms the timer; none of the three
    stores anything in the registry. *)
Theorem X16_only_join_creates_room ops st sid :
  map_get sid (liveInterviewRooms st) = None →
  Forall (λ op, is_join op = false) ops →
  let st' := run ops st in
  map_get sid (liveInterviewRooms st') = None
  ∧ (∀ sock u, live_code_update st' sock sid u = ([], st'))
  ∧ (∀ sock ty enabled stream,
       camera_status_update st' sock sid ty enabled stream = ([], st'))
  ∧ (∀ sock ty now, start_screen_share st' sock sid ty now = ([], st'))
  ∧ (∀ sock, stop_screen_share st' sock sid = ([], st'))
  ∧ (∀ sock, leave_live_interview st' sock sid = ([], st'))
  ∧ (∀ sock stroke,
       whiteboard_draw st' sock sid stroke
       = ([(OthersIn (live sid), WhiteboardDraw stroke sock)], st'))
  ∧ whiteboard_clear st' sid = ([(EveryoneIn (live sid), WhiteboardCleared)], st')
  ∧ (∀ sock reason now,
       end_live_interview st' sock sid reason now
       = ([(EveryoneIn (live sid), InterviewEnded reason sock now)],
          State (liveInterviewRooms st') (scheduledCleanups st' ++ [sid]))).
Proof.
  intros Hr Hops st'.
  assert (map_get sid (liveInterviewRooms st') = None) as Hnone.
  { subst st'. revert st Hr. induction ops as [|op ops IH]; intros st Hr; [done|].
    apply Forall_cons in Hops as [Hop Hops]. cbn [run foldl].
    apply IH; [done|]. by apply step_absent. }
  split; [done|]. by apply absent_room_replies.
Qed.

Lemma X16_only_join_creates_room_witness :
  let ops := [ OpCode "a" (JStr "R")
                      (CodeUpdate (Scalar (JStr "x")) (Scalar (JStr "python"))
                                  (Scalar JUndefined) (Scalar JUndefined));
               OpDraw "a" (JStr "R") (Scalar (JNum 7));
               OpStartShare "a" (JStr "R") (Scalar (JStr "screen")) 3 ] in
  map_get (JStr "R") (liveInterviewRooms (run ops initial_state)) = None
  ∧ whiteboard_draw (run ops initial_state) "a" (JStr "R") (Scalar (JNum 8))
    = ([(OthersIn (live (JStr "R")), WhiteboardDraw (Scalar (JNum 8)) "a")],
       run ops initial_state).
Proof.
  intros ops.
  destruct (X16_only_join_creates_room ops initial_state (JStr "R"))
    as (absent & _ & _ & _ & _ & _ & forwarded & _);
    [reflexivity | repeat constructor |].
  split; [exact absent | apply forwarded].
Defined.

(** X17: in a room that is not torn down, whatever traffic is mixed in,
    the whiteboard holds the strokes drawn in that room since its last
    clear, in drawing order, the code state shows the code and language
    of the last code update for that room (or what it showed before, if
    there was none), the settings stay as they were, and no socket's
    cursor entry is ever dropped, not even when the socket leaves or
    disconnects. *)
Theorem X17_shared_state_follows_traffic ops st sid r :
  map_get sid (liveInterviewRooms st) = Some r →
  Forall (λ op, is_cleanup op = false) ops →
  ∃ r',
    map_get sid (liveInterviewRooms (run ops st)) = Some r'
    ∧ whiteboard r' = foldl (sketch sid) (whiteboard r) ops
    ∧ (code (codeState r'), language (codeState r'))
      = foldl (retype sid) (code (codeState r), language (codeState r)) ops
    ∧ room_settings r' = room_settings r
    ∧ dom (cursorPositions (codeState r)) ⊆ dom (cursorPositions (codeState r')).
Proof.
  revert st r. induction ops as [|op ops IH]; intros st r Hr Hops.
  - by exists r.
  - apply Forall_cons in Hops as [Hop Hops]. cbn [run foldl].
    destruct (step_present st op sid r Hr Hop)
      as (r1 & Hr1 & Hboard & Hcode & Hsettings & Hcursors).
    destruct (IH _ _ Hr1 Hops) as (r' & Hr' & Hboard' & Hcode' & Hsettings' & Hcursors').
    exists r'. split; [done|].
    rewrite Hboard', Hcode', Hsettings', Hboard, Hcode, Hsettings.
    repeat split. set_solver.
Qed.

Lemma X17_shared_state_follows_traffic_witness :
  let d := JoinData (JStr "R") (Scalar (JStr "u1")) (Scalar (JStr "Ada"))
                    (Scalar (JStr "candidate")) None in
  let st := (join_live_interview initial_state "a" d 1).2 in
  let r := Room [("a", Participant (Scalar (JStr "u1")) "a" (Scalar (JStr "Ada"))
                                   (Scalar (JStr "candidate")) default_cameras true true 1)]
                (CodeState (Scalar (JStr "")) (Scalar (JStr "javascript")) ∅) [] []
                (Settings true true true) in
  let ops := [ OpDraw "a" (JStr "R") (Scalar (JNum 1));
               OpClear (JStr "R");
               OpDraw "a" (JStr "R") (Scalar (JNum 2));
               OpCode "a" (JStr "R")
                      (CodeUpdate (Scalar (JStr "x")) (Scalar (JStr "python"))
                                  (Scalar JUndefined) (Scalar JUndefined));
               OpLeave "a" (JStr "R") ] in
  ∃ r',
    map_get (JStr "R") (liveInterviewRooms (run ops st)) = Some r'
    ∧ whiteboard r' = foldl (sketch (JStr "R")) (whiteboard r) ops
    ∧ (code (codeState r'), language (codeState r'))
      = foldl (retype (JStr "R")) (code (codeState r), language (codeState r)) ops
    ∧ room_settings r' = room_settings r
    ∧ dom (cursorPositions (codeState r)) ⊆ dom (cursorPositions (codeState r')).
Proof.
  intros d st r ops.
  apply (X17_shared_state_follows_traffic ops st (JStr "R") r);
    [reflexivity | repeat constructor].
Defined.

Lemma tidy_fresh : tidy fresh_room.
Proof. split; [apply NoDup_nil_2 | apply Forall_nil_2]. Qed.

Lemma tidy_leave sock r : tidy r → tidy (leave_room sock r).
Proof.
  intros [Hkeys Hids]. split; cbn.
  - by apply map_delete_NoDup.
  - by apply map_delete_Forall.
Qed.

Lemma tidy_same_participants r r' :
  participants r' = participants r → tidy r → tidy r'.
Proof. unfold tidy. by intros ->. Qed.

Lemma tidy_set sock p r :
  socketId p = sock → tidy r → tidy (with_participants (map_set sock p (participants r)) r).
Proof.
  intros Hp [Hkeys Hids]. split; cbn.
  - by apply map_set_NoDup.
  - by apply map_set_Forall.
Qed.

Lemma tidy_filed sock p r :
  tidy r → map_get sock (participants r) = Some p → socketId p = sock.
Proof.
  intros [_ Hids] Hp. apply map_get_Some_elem in Hp.
  rewrite Forall_forall in Hids. by apply Hids in Hp.
Qed.

(** Every operation keeps every room tidy. *)
Lemma step_tidy st op :
  (∀ sid r, map_get sid (liveInterviewRooms st) = Some r → tidy r) →
  ∀ sid r, map_get sid (liveInterviewRooms (step st op)) = Some r → tidy r.
Proof.
  intros Hst sid r.
  destruct op as [sock d now|sock sid0|sock|sock sid0 ty enabled stream
                  |sock sid0 ty now|sock sid0|sock sid0 u|sock sid0 stroke|sid0
                  |sock sid0 reason now|]; cbn [step].
  - unfold join_live_interview. cbn [snd]. rewrite lookup_after_set.
    case_decide; [|apply Hst]. intros [= <-]. apply tidy_set; [done|].
    destruct (map_get (jd_sessionId d) (liveInterviewRooms st)) eqn:Hr0;
      [by eapply Hst | apply tidy_fresh].
  - unfold leave_live_interview.
    destruct (map_get sid0 (liveInterviewRooms st)) as [r0|] eqn:Hr0; [|apply Hst].
    destruct (map_get sock (participants r0)); [|apply Hst].
    cbn [snd]. rewrite lookup_after_set. case_decide; [|apply Hst].
    intros [= <-]. apply tidy_leave. by eapply Hst.
  - rewrite disconnect_rooms_of, LiveRoomsFacts.map_get_disconnect_rooms.
    destruct (map_get sid (liveInterviewRooms st)) as [r0|] eqn:Hr0; [|done].
    cbn [fmap option_fmap option_map]. intros [= <-].
    destruct (map_get sock (participants r0)); [apply tidy_leave|]; by eapply Hst.
  - unfold camera_status_update.
    destruct (map_get sid0 (liveInterviewRooms st)) as [r0|] eqn:Hr0; [|apply Hst].
    destruct (map_get sock (participants r0)) as [p|] eqn:Hp; [|apply Hst].
    cbn [snd]. rewrite lookup_after_set. case_decide; [|apply Hst].
    intros [= <-]. apply tidy_set; [|by eapply Hst].
    cbn. eapply tidy_filed; [by eapply Hst|done].
  - unfold start_screen_share.
    destruct (map_get sid0 (liveInterviewRooms st)) as [r0|] eqn:Hr0; [|apply Hst].
    cbn [snd]. rewrite lookup_after_set. case_decide; [|apply Hst].
    intros [= <-]. eapply tidy_same_participants; [|by eapply Hst]. done.
  - unfold stop_screen_share.
    destruct (map_get sid0 (liveInterviewRooms st)) as [r0|] eqn:Hr0; [|apply Hst].
    cbn [snd]. rewrite lookup_after_set. case_decide; [|apply Hst].
    intros [= <-]. eapply tidy_same_participants; [|by eapply Hst]. done.
  - unfold live_code_update.
    destruct (map_get sid0 (liveInterviewRooms st)) as [r0|] eqn:Hr0; [|apply Hst].
    cbn [snd]. rewrite lookup_after_set. case_decide; [|apply Hst].
    intros [= <-]. eapply tidy_same_participants; [|by eapply Hst]. done.
  - unfold whiteboard_draw. cbn [snd].
    destruct (map_get sid0 (liveInterviewRooms st)) as [r0|] eqn:Hr0; [|apply Hst].
    rewrite lookup_after_set. case_decide; [|apply Hst].
    intros [= <-]. eapply tidy_same_participants; [|by eapply Hst]. done.
  - unfold whiteboard_clear. cbn [snd].
    destruct (map_get sid0 (liveInterviewRooms st)) as [r0|] eqn:Hr0; [|apply Hst].
    rewrite lookup_after_set. case_decide; [|apply Hst].
    intros [= <-]. eapply tidy_same_participants; [|by eapply Hst]. done.
  - apply Hst.
  - unfold cleanup. destruct (scheduledCleanups st) as [|sid0 later]; [apply Hst|].
    cbn [snd liveInterviewRooms]. destruct (decide (sid0 = sid)) as [->|Hne].
    + by rewrite map_get_delete_eq.
    + rewrite map_get_delete_ne by done. apply Hst.
Qed.

Lemma run_tidy ops st :
  (∀ sid r, map_get sid (liveInterviewRooms st) = Some r → tidy r) →
  ∀ sid r, map_get sid (liveInterviewRooms (run ops st)) = Some r → tidy r.
Proof.
  revert st. induction ops as [|op ops IH]; intros st Hst; [done|].
  cbn [run foldl]. apply IH. by apply step_tidy.
Qed.

Lemma tidy_values r :
  tidy r → socketId <$> map_values (participants r) = map_keys (participants r).
Proof.
  intros [_ Hids]. unfold map_values, map_keys.
  induction Hids as [|[k p] ps Hkp Hps IH]; [done|].
  rewrite !fmap_cons. cbn in *. by rewrite Hkp, IH.
Qed.

(** X18: in any state the rooms can reach from nothing, through any
    traffic and any teardowns, the room-state message a joiner receives
    lists every member of the room after the join exactly once, the
    joiner among them. *)
Theorem X18_snapshot_lists_members_once ops sock d now :
  let out := join_live_interview (run ops initial_state) sock d now in
  ∃ m,
    snapshot_of out.1 = Some m
    ∧ NoDup (socketId <$> listed m)
    ∧ list_to_set (socketId <$> listed m) = members out.2 (jd_sessionId d)
    ∧ sock ∈ socketId <$> listed m.
Proof.
  intros out.
  assert (∀ sid r, map_get sid (liveInterviewRooms out.2) = Some r → tidy r) as Htidy.
  { apply (step_tidy (run ops initial_state) (OpJoin sock d now)).
    by apply run_tidy. }
  subst out. rewrite LiveRoomsFacts.join_snapshot. eexists. split; [done|].
  set (st := run ops initial_state) in *.
  set (r0 := default fresh_room (map_get (jd_sessionId d) (liveInterviewRooms st))).
  set (p := Participant _ _ _ _ _ _ _ _).
  set (r := with_participants (map_set sock p (participants r0)) r0).
  assert (map_get (jd_sessionId d)
            (liveInterviewRooms (join_live_interview st sock d now).2) = Some r) as Hr
    by (unfold join_live_interview; cbn [snd]; by rewrite lookup_after_set, decide_True).
  apply Htidy in Hr as Hr_tidy.
  change (listed (room_state r)) with (map_values (participants r)).
  rewrite (tidy_values r Hr_tidy). split; [apply Hr_tidy|]. split.
  - unfold members. by rewrite Hr.
  - subst r. cbn [participants with_participants]. apply map_keys_elem_set. by left.
Qed.

Lemma membership_keeps_cleanups ops st :
  scheduledCleanups (run_membership ops st) = scheduledCleanups st.
Proof.
  revert st. induction ops as [|op ops IH]; intros st; [done|].
  cbn [run_membership foldl]. unfold run_membership in IH. rewrite IH.
  destruct op as [sock d now|sock sid|sock]; cbn [membership_step].
  - done.
  - unfold leave_live_interview. destruct (map_get sid (liveInterviewRooms st)); [|done].
    by destruct (map_get sock (participants r)).
  - unfold disconnect. by destruct (disconnect_rooms sock (liveInterviewRooms st)).
Qed.

(** X19: joining during the grace period does not save a room.  When an
    interview is ended with no other teardown pending, then whoever
    joins, leaves or disconnects before the timer fires, the firing
    deletes the room with everyone in it and leaves the other rooms
    alone. *)
Theorem X19_teardown_ignores_late_joins st sock sid reason now ops :
  scheduledCleanups st = [] →
  let ended := (end_live_interview st sock sid reason now).2 in
  let before := run_membership ops ended in
  let after := (cleanup before).2 in
  map_get sid (liveInterviewRooms after) = None
  ∧ members after sid = ∅
  ∧ scheduledCleanups after = []
  ∧ (∀ sid', sid' ≠ sid →
       map_get sid' (liveInterviewRooms after) = map_get sid' (liveInterviewRooms before)).
Proof.
  intros Hnone ended before after.
  assert (scheduledCleanups before = [sid]) as Hpending.
  { subst before ended. rewrite membership_keeps_cleanups. cbn. by rewrite Hnone. }
  subst after. unfold cleanup. rewrite Hpending. cbn [snd liveInterviewRooms scheduledCleanups].
  assert (map_get sid (map_delete sid (liveInterviewRooms before)) = None) as Hgone
    by apply map_get_delete_eq.
  split; [done|]. split; [|split; [done|]].
  - unfold members. cbn [liveInterviewRooms]. by rewrite Hgone.
  - intros sid' Hne. by apply map_get_delete_ne.
Qed.

Lemma X19_teardown_ignores_late_joins_witness :
  let d := JoinData (JStr "R") (Scalar (JStr "u1")) (Scalar (JStr "Ada"))
                    (Scalar (JStr "candidate")) None in
  let st := (join_live_interview initial_state "a" d 1).2 in
  let ended := (end_live_interview st "a" (JStr "R") (Scalar JUndefined) 2).2 in
  let before := run_membership [Join "b" d 3] ended in
  let after := (cleanup before).2 in
  map_get (JStr "R") (liveInterviewRooms after) = None
  ∧ members after (JStr "R") = ∅
  ∧ scheduledCleanups after = []
  ∧ (∀ sid', sid' ≠ JStr "R" →
       map_get sid' (liveInterviewRooms after) = map_get sid' (liveInterviewRooms before)).
Proof.
  intros d st ended before after.
  apply (X19_teardown_ignores_late_joins st "a" (JStr "R") (Scalar JUndefined) 2
           [Join "b" d 3]).
  reflexivity.
Defined.

(** X20: a participant that leaves a room or disconnects is taken off the
    room's participants and its screen share is taken off with it.  The
    share handlers do not ask for membership, though, and leave and
    disconnect only clean up after participants: a share started by a
    socket that never joined the room is still registered after that
    socket has left and disconnected. *)
Theorem X20_shares_follow_participants st sock sid r :
  map_get sid (liveInterviewRooms st) = Some r →
  (is_Some (map_get sock (participants r)) →
   (∃ r', map_get sid (liveInterviewRooms (leave_live_interview st sock sid).2) = Some r'
          ∧ map_get sock (participants r') = None
          ∧ map_get sock (screenShares r') = None)
   ∧ (∃ r', map_get sid (liveInterviewRooms (disconnect st sock).2) = Some r'
            ∧ map_get sock (participants r') = None
            ∧ map_get sock (screenShares r') = None))
  ∧ (map_get sock (participants r) = None →
     ∀ ty now,
       let shared := (start_screen_share st sock sid ty now).2 in
       ∃ r', map_get sid
               (liveInterviewRooms
                  (disconnect (leave_live_interview shared sock sid).2 sock).2)
             = Some r'
             ∧ map_get sock (screenShares r') = Some (ScreenShare ty now)).
Proof.
  intros Hr. split.
  - intros [p Hp]. split.
    + unfold leave_live_interview. rewrite Hr, Hp. cbn [snd].
      rewrite lookup_after_set, decide_True by done. eexists. split; [done|].
      cbn. by rewrite !map_get_delete_eq.
    + rewrite disconnect_rooms_of, LiveRoomsFacts.map_get_disconnect_rooms, Hr.
      cbn [fmap option_fmap option_map]. rewrite Hp. eexists. split; [done|].
      cbn. by rewrite !map_get_delete_eq.
  - intros Hp ty now shared.
    set (r1 := with_screenShares (map_set sock (ScreenShare ty now) (screenShares r)) r).
    assert (map_get sid (liveInterviewRooms shared) = Some r1) as Hr1.
    { subst shared. unfold start_screen_share. rewrite Hr. cbn [snd].
      by rewrite lookup_after_set, decide_True. }
    assert (leave_live_interview shared sock sid = ([], shared)) as ->.
    { unfold leave_live_interview. rewrite Hr1. subst r1. cbn [participants with_screenShares].
      by rewrite Hp. }
    cbn [snd].
    rewrite disconnect_rooms_of, LiveRoomsFacts.map_get_disconnect_rooms, Hr1.
    cbn [fmap option_fmap option_map]. subst r1. cbn [participants with_screenShares].
    rewrite Hp. eexists. split; [done|]. cbn. apply map_get_set_eq.
Qed.

Lemma X20_shares_follow_participants_witness :
  let d := JoinData (JStr "R") (Scalar (JStr "u1")) (Scalar (JStr "Ada"))
                    (Scalar (JStr "candidate")) None in
  let st := (join_live_interview initial_state "a" d 1).2 in
  let shared := (start_screen_share st "z" (JStr "R") (Scalar (JStr "screen")) 5).2 in
  ∃ r', map_get (JStr "R")
          (liveInterviewRooms
             (disconnect (leave_live_interview shared "z" (JStr "R")).2 "z").2)
        = Some r'
        ∧ map_get "z" (screenShares r') = Some (ScreenShare (Scalar (JStr "screen")) 5).
Proof.
  intros d st shared.
  refine (proj2 (X20_shares_follow_participants st "z" (JStr "R")
                   (Room [("a", Participant (Scalar (JStr "u1")) "a" (Scalar (JStr "Ada"))
                                            (Scalar (JStr "candidate")) default_cameras
                                            true true 1)]
                         (CodeState (Scalar (JStr "")) (Scalar (JStr "javascript")) ∅)
                         [] [] (Settings true true true))
                   _) _ (Scalar (JStr "screen")) 5);
    reflexivity.
Defined.

Lemma disconnect_rooms_notices sock rooms :
  (disconnect_rooms sock rooms).1 = rooms ≫= departure sock
  ∧ (disconnect_rooms sock rooms).2.*1 = rooms.*1
  ∧ (Forall (λ kr, map_get sock (participants kr.2) = None) rooms →
     disconnect_rooms sock rooms = ([], rooms)).
Proof.
  induction rooms as [|[sid r] rooms (IHout & IHkeys & IHnone)]; [done|].
  cbn [disconnect_rooms]. rewrite bind_cons. unfold departure at 1. cbn [fst snd].
  destruct (disconnect_rooms sock rooms) as [out rest]. cbn [fst snd] in *.
  destruct (map_get sock (participants r)) as [p|] eqn:Hp; cbn [fst snd].
  - rewrite !fmap_cons, IHkeys, <- IHout. split; [done|]. split; [done|].
    intros [Hnone _]%Forall_cons. cbn in Hnone. congruence.
  - rewrite !fmap_cons, IHkeys, <- IHout. split; [done|]. split; [done|].
    intros [_ Hrest]%Forall_cons. by injection (IHnone Hrest) as -> ->.
Qed.

(** X23: who hears of a departure.  A disconnect goes through the rooms
    in the order of the registry and, for every room the socket is a
    participant of and for no other, sends [participant-left], with the
    socket id and the participant's name and role, to everyone in the
    room, and then [live-session-update] of type [participant-left],
    with the room id and the same name and role, to the dashboard; it
    sends nothing else.  It keeps every room in the registry, and for a
    socket that is in no room it sends nothing and changes nothing.  An
    explicit leave sends one [participant-left] to the others in the
    room when the socket is a participant of it, and otherwise nothing;
    it never notifies the dashboard. *)
Theorem X23_departure_notices st sock :
  (disconnect st sock).1 = liveInterviewRooms st ≫= departure sock
  ∧ (∀ notice,
       notice ∈ (disconnect st sock).1
       ↔ ∃ sid r p,
           (sid, r) ∈ liveInterviewRooms st
           ∧ map_get sock (participants r) = Some p
           ∧ (notice = (EveryoneIn (live sid), ParticipantLeft sock (userName p) (role p))
              ∨ notice = (EveryoneIn dashboard,
                          LiveSessionUpdate sid "participant-left" (userName p) (role p))))
  ∧ map_keys (liveInterviewRooms (disconnect st sock).2) = map_keys (liveInterviewRooms st)
  ∧ (Forall (λ kr, map_get sock (participants kr.2) = None) (liveInterviewRooms st) →
     disconnect st sock = ([], st))
  ∧ (∀ sid,
       (leave_live_interview st sock sid).1
       = match map_get sid (liveInterviewRooms st)
               ≫= (λ r, map_get sock (participants r)) with
         | Some p => [(OthersIn (live sid), ParticipantLeft sock (userName p) (role p))]
         | None => []
         end).
Proof.
  destruct (disconnect_rooms_notices sock (liveInterviewRooms st))
    as (Hout & Hkeys & Hnone).
  unfold disconnect.
  destruct (disconnect_rooms sock (liveInterviewRooms st)) as [out rooms] eqn:Hrooms.
  cbn [fst snd] in *. split; [done|]. split; [|split; [done|split]].
  - intros notice. rewrite Hout, list_elem_of_bind. split.
    + intros ([sid r] & Hin & Hroom). unfold departure in Hin. cbn [fst snd] in Hin.
      destruct (map_get sock (participants r)) as [p|] eqn:Hp;
        [|by apply elem_of_nil in Hin].
      exists sid, r, p. split; [done|]. split; [done|].
      apply elem_of_cons in Hin as [->|Hin]; [by left|].
      apply list_elem_of_singleton in Hin. by right.
    + intros (sid & r & p & Hroom & Hp & Hnotice). exists (sid, r). split; [|done].
      unfold departure. cbn [fst snd]. rewrite Hp.
      destruct Hnotice as [->| ->]; [apply list_elem_of_here|].
      apply list_elem_of_further, list_elem_of_here.
  - intros Hin. injection (Hnone Hin) as -> ->. by destruct st.
  - intros sid. unfold leave_live_interview.
    destruct (map_get sid (liveInterviewRooms st)) as [r|]; [|done].
    cbn. by destruct (map_get sock (participants r)).
Qed.

End RoomTrafficFacts.

(** ** The secondary camera registry *)

Module PairingFacts.
Import Pairing.

Lemma holder_step st op code :
  mainSocketId <$> secondaryCameraMappings (step st op) !! code
  = registrant code (mainSocketId <$> secondaryCameraMappings st !! code) op.
Proof.
  destruct op as [sock iv c|sock c status now|sock c snap now|sock|sock];
    cbn [step registrant].
  - cbn. case_decide as Hc.
    + subst. by rewrite lookup_insert_eq.
    + by rewrite lookup_insert_ne.
  - unfold connect_secondary_camera.
    destruct (secondaryCameraMappings st !! c) as [m|] eqn:Hm; [|done].
    cbn. destruct (decide (c = code)) as [->|Hne].
    + by rewrite lookup_insert_eq, Hm.
    + by rewrite lookup_insert_ne.
  - unfold secondary_snapshot. by destruct (secondaryCameraMappings st !! c).
  - done.
  - done.
Qed.

Lemma holder_run ops st code :
  mainSocketId <$> secondaryCameraMappings (run ops st) !! code
  = foldl (registrant code) (mainSocketId <$> secondaryCameraMappings st !! code) ops.
Proof.
  revert st. induction ops as [|op ops IH]; intros st; [done|].
  cbn [run foldl]. unfold run in IH. by rewrite IH, holder_step.
Qed.

(** X21: a pairing code belongs to the socket that registered it last,
    and to it for good: after any sequence of registrations, phone
    connections, snapshots, dashboard joins and disconnects, a phone that
    connects with the code notifies exactly that socket, once, even
    when that socket has disconnected in the meantime; with a code that
    was never registered it notifies nobody. *)
Theorem X21_code_goes_to_last_registrant ops st sock code status now :
  (connect_secondary_camera (run ops st) sock code status now).1
  = match foldl (registrant code)
                (mainSocketId <$> secondaryCameraMappings st !! code) ops with
    | Some main => [ (EveryoneIn (JStr main), SecondaryCameraConnected status now) ]
    | None => []
    end.
Proof.
  rewrite <- holder_run. unfold connect_secondary_camera.
  by destruct (secondaryCameraMappings (run ops st) !! code).
Qed.

(** X22: registering a code and then connecting a phone with it sends
    the registering socket one [secondary-camera-connected] message and
    records the phone against the code; a snapshot for a registered code
    goes to the registering socket and to the others in the interview's
    room and takes the sender off the dashboard set; and a connection or
    a snapshot with a code that is not registered sends nothing and
    changes nothing. *)
Theorem X22_pairing_round_trip st :
  (∀ main interview code phone status now,
     let registered := (register_secondary_camera st main interview code).2 in
     let out := connect_secondary_camera registered phone code status now in
     out.1 = [ (EveryoneIn (JStr main), SecondaryCameraConnected status now) ]
     ∧ secondaryCameraMappings out.2 !! code = Some (Mapping interview main (Some phone))
     ∧ ∀ snapshot later,
         let sent := secondary_snapshot out.2 phone code snapshot later in
         sent.1 = [ (EveryoneIn (JStr main), SecondarySnapshot snapshot later);
                    (OthersIn interview, SecondarySnapshot snapshot later) ]
         ∧ secondaryCameraMappings sent.2 = secondaryCameraMappings out.2
         ∧ phone ∉ proctorDashboardSockets sent.2)
  ∧ (∀ sock code status snapshot now,
       secondaryCameraMappings st !! code = None →
       connect_secondary_camera st sock code status now = ([], st)
       ∧ secondary_snapshot st sock code snapshot now = ([], st)).
Proof.
  split.
  - intros main interview code phone status now registered out.
    subst out registered. unfold connect_secondary_camera.
    cbn [register_secondary_camera snd secondaryCameraMappings].
    rewrite lookup_insert_eq. cbn [fst snd secondaryCameraMappings mainSocketId interviewId].
    split; [done|]. split; [by rewrite lookup_insert_eq|].
    intros snapshot later. unfold secondary_snapshot.
    cbn [secondaryCameraMappings]. rewrite lookup_insert_eq.
    cbn [fst snd secondaryCameraMappings proctorDashboardSockets mainSocketId interviewId].
    repeat split. set_solver.
  - intros sock code status snapshot now Hnone.
    unfold connect_secondary_camera, secondary_snapshot. by rewrite Hnone.
Qed.

End PairingFacts.
